(** * CGPA calculator: a shallow embedding of [app.py]

    The development follows the layout of the Python source:

    - text primitives ([str.strip], [str.replace], [str.lower], [in], ...),
    - a backtracking regular-expression matcher with the priority order of
      Python's [re] module, and the patterns of the source written in it,
    - insertion-ordered dictionaries,
    - [normalize_subject_code], [extract_core_code_parts],
      [parse_result_data], [parse_course_data], [find_matching_code],
      [combine_data], [calculate_sgpa] and [calculate_cgpa].

    Text is modelled over the code points 0 to 255: a Python [str] is a list
    of [ascii] characters, and [\d], [\s], [\w], [str.strip], [str.split],
    [str.isdigit] and [str.lower] are what Python makes of these code
    points. *)

From Stdlib Require Import Ascii String List Bool Arith ZArith QArith Lia.
From Stdlib Require Import Permutation Sorted Floats Uint63 Lqa.
Import ListNotations.

Set Implicit Arguments.
Local Open Scope list_scope.
Local Open Scope nat_scope.

(* ===================================================================== *)
(** ** Text *)
(* ===================================================================== *)

(** A Python [str]. *)
Abbreviation str := (list ascii) (only parsing).

(** String literals of the source. *)
Definition lit (s : string) : str := list_ascii_of_string s.

Definition code_of (c : ascii) : nat := nat_of_ascii c.

Definition between (lo hi : nat) (c : ascii) : bool :=
  (lo <=? code_of c) && (code_of c <=? hi).

(** [\d] and [[0-9]]. *)
Definition is_digit (c : ascii) : bool := between 48 57 c.
Definition is_upper (c : ascii) : bool := between 65 90 c.
Definition is_lower (c : ascii) : bool := between 97 122 c.
(** [[A-Za-z]]. *)
Definition is_alpha (c : ascii) : bool := is_upper c || is_lower c.
(** [[A-Za-z0-9]]. *)
Definition is_alnum (c : ascii) : bool := is_alpha c || is_digit c.
(** The letters above 127: the two ordinal indicators, the micro sign and
    the accented letters, without the signs for times and by. *)
Definition is_latin_upper (c : ascii) : bool :=
  between 192 222 c && negb (code_of c =? 215).
Definition is_latin_letter (c : ascii) : bool :=
  (code_of c =? 170) || (code_of c =? 181) || (code_of c =? 186)
  || (between 192 255 c && negb (code_of c =? 215) && negb (code_of c =? 247)).
(** The superscripts 2, 3 and 1, which [str.isdigit] counts and [\d] does
    not. *)
Definition is_superscript (c : ascii) : bool :=
  between 178 179 c || (code_of c =? 185).
(** [\w]: what [str.isalnum] accepts, the superscripts and the three
    fractions included, and the underscore. *)
Definition is_word (c : ascii) : bool :=
  is_alnum c || (code_of c =? 95) || is_latin_letter c || is_superscript c
  || between 188 190 c.
(** [\s], and the characters [str.strip] and [str.split] treat as blank:
    tab, line feed, vertical tab, form feed, carriage return, the four
    separators 28..31, the space, the next-line control 133 and the
    no-break space 160. *)
Definition is_space (c : ascii) : bool :=
  between 9 13 c || between 28 31 c || (code_of c =? 32)
  || (code_of c =? 133) || (code_of c =? 160).
(** [.]: anything but a line feed. *)
Definition is_dot (c : ascii) : bool := negb (code_of c =? 10).
Definition is_char (x c : ascii) : bool := Ascii.eqb x c.

Definition lower_char (c : ascii) : ascii :=
  if is_upper c || is_latin_upper c then ascii_of_nat (code_of c + 32) else c.
Definition upper_char (c : ascii) : ascii :=
  if is_lower c then ascii_of_nat (code_of c - 32) else c.

(** [s.lower()]. *)
Definition lower (s : str) : str := map lower_char s.
(** [s.upper()] on a text without letters above 127: the source takes it of
    what [[OABCPFo+]+] matched. *)
Definition upper (s : str) : str := map upper_char s.

Fixpoint str_eqb (a b : str) : bool :=
  match a, b with
  | [], [] => true
  | x :: a', y :: b' => Ascii.eqb x y && str_eqb a' b'
  | _, _ => false
  end.

Fixpoint dropwhile (p : ascii -> bool) (s : str) : str :=
  match s with
  | [] => []
  | c :: s' => if p c then dropwhile p s' else s
  end.

(** [s.strip()]. *)
Definition strip (s : str) : str :=
  rev (dropwhile is_space (rev (dropwhile is_space s))).

Fixpoint starts_with (p s : str) : bool :=
  match p, s with
  | [], _ => true
  | x :: p', y :: s' => Ascii.eqb x y && starts_with p' s'
  | _ :: _, [] => false
  end.

(** [sub in s]. *)
Fixpoint contains (sub s : str) : bool :=
  starts_with sub s ||
  match s with
  | [] => false
  | _ :: s' => contains sub s'
  end.

(** [s.replace(old, new)] for a non-empty [old]: the occurrences of [old] are
    replaced from left to right, without overlap.  [skip] counts the
    characters of an occurrence that are still to be dropped. *)
Fixpoint replace_from (old new : str) (skip : nat) (s : str) : str :=
  match s with
  | [] => []
  | c :: s' =>
      match skip with
      | S k => replace_from old new k s'
      | O =>
          if starts_with old s
          then new ++ replace_from old new (length old - 1) s'
          else c :: replace_from old new 0 s'
      end
  end.

(** With an empty [old] Python puts [new] before every character and at the
    end. *)
Definition replace (old new s : str) : str :=
  match old with
  | [] => flat_map (fun c => new ++ [c]) s ++ new
  | _ :: _ => replace_from old new 0 s
  end.

(** [s.isdigit()]: non-empty and all digits, superscripts included. *)
Definition isdigit (s : str) : bool :=
  match s with
  | [] => false
  | _ :: _ => forallb (fun c => is_digit c || is_superscript c) s
  end.

(** [s.split()]: the maximal runs of non-blank characters. *)
Fixpoint split_ws_aux (cur : str) (s : str) : list str :=
  match s with
  | [] => match cur with [] => [] | _ :: _ => [rev cur] end
  | c :: s' =>
      if is_space c
      then match cur with
           | [] => split_ws_aux [] s'
           | _ :: _ => rev cur :: split_ws_aux [] s'
           end
      else split_ws_aux (c :: cur) s'
  end.
Definition split_ws (s : str) : list str := split_ws_aux [] s.

(** [s.split('\n')]: always at least one piece. *)
Fixpoint split_on_aux (sep : ascii) (cur : str) (s : str) : list str :=
  match s with
  | [] => [rev cur]
  | c :: s' =>
      if Ascii.eqb c sep
      then rev cur :: split_on_aux sep [] s'
      else split_on_aux sep (c :: cur) s'
  end.
Definition split_lines (s : str) : list str :=
  split_on_aux (ascii_of_nat 10) [] s.

(* ===================================================================== *)
(** ** Regular expressions *)
(* ===================================================================== *)

(** The fragment of Python's [re] syntax the source uses.  Repetition is over
    a character class, which is all the source's patterns need ([\d+],
    [[A-Za-z]{2,7}], [.*?], [\s+]); [Grp] is a capturing group. *)
Inductive regex : Type :=
| Eps
| Chr (p : ascii -> bool)
| Rep (greedy : bool) (p : ascii -> bool) (lo : nat) (hi : option nat)
| Cat (r1 r2 : regex)
| Alt (r1 r2 : regex)
| Opt (r : regex)
| Grp (r : regex)
| Bnd
| Eol.

Notation "r1 ;; r2" := (Cat r1 r2) (at level 61, right associativity).

(** [p+], [p*], [p+?], [p*?], [p{lo,hi}]. *)
Definition plus (p : ascii -> bool) : regex := Rep true p 1 None.
Definition star (p : ascii -> bool) : regex := Rep true p 0 None.
Definition lazy_plus (p : ascii -> bool) : regex := Rep false p 1 None.
Definition lazy_star (p : ascii -> bool) : regex := Rep false p 0 None.
Definition times (p : ascii -> bool) (lo hi : nat) : regex :=
  Rep true p lo (Some hi).

(** A literal word; under [re.IGNORECASE] letters match in either case. *)
Fixpoint word (s : str) : regex :=
  match s with
  | [] => Eps
  | [c] => Chr (is_char c)
  | c :: s' => Chr (is_char c) ;; word s'
  end.
Definition is_char_i (x c : ascii) : bool :=
  Ascii.eqb (lower_char x) (lower_char c).
Fixpoint word_i (s : str) : regex :=
  match s with
  | [] => Eps
  | [c] => Chr (is_char_i c)
  | c :: s' => Chr (is_char_i c) ;; word_i s'
  end.

(** Length of the longest prefix of [s] in the class [p]. *)
Fixpoint span (p : ascii -> bool) (s : str) : nat :=
  match s with
  | [] => 0
  | c :: s' => if p c then S (span p s') else 0
  end.

(** The repetition counts a quantifier tries when at most [m] characters are
    available: [lo..m], longest first if greedy, shortest first if lazy. *)
Definition counts (greedy : bool) (lo m : nat) : list nat :=
  let l := seq lo (S m - lo) in
  if greedy then rev l else l.

Definition cap_hi (hi : option nat) (m : nat) : nat :=
  match hi with
  | None => m
  | Some h => Nat.min h m
  end.

(** The character before position [n] of [s], when [prev] is the character
    before [s]. *)
Definition char_before (prev : option ascii) (s : str) (n : nat) : option ascii :=
  match n with
  | O => prev
  | S k => nth_error s k
  end.

Definition opt_word (c : option ascii) : bool :=
  match c with
  | Some x => is_word x
  | None => false
  end.

(** [run r prev s]: every way [r] matches a prefix of [s], in the order the
    backtracking matcher of [re] tries them, as the number of characters
    taken and the texts of the capturing groups (numbered by their opening
    parenthesis).  [prev] is the character before [s], for [\b]. *)
Fixpoint run (r : regex) (prev : option ascii) (s : str) : list (nat * list str) :=
  match r with
  | Eps => [(0, [])]
  | Chr p =>
      match s with
      | c :: _ => if p c then [(1, [])] else []
      | [] => []
      end
  | Rep greedy p lo hi =>
      map (fun k => (k, [])) (counts greedy lo (cap_hi hi (span p s)))
  | Cat r1 r2 =>
      flat_map
        (fun m1 =>
           map (fun m2 => (fst m1 + fst m2, snd m1 ++ snd m2))
               (run r2 (char_before prev s (fst m1)) (skipn (fst m1) s)))
        (run r1 prev s)
  | Alt r1 r2 => run r1 prev s ++ run r2 prev s
  | Opt r1 => run r1 prev s ++ [(0, [])]
  | Grp r1 => map (fun m => (fst m, firstn (fst m) s :: snd m)) (run r1 prev s)
  | Bnd =>
      if xorb (opt_word prev) (opt_word (nth_error s 0)) then [(0, [])] else []
  | Eol =>
      match s with
      | [] => [(0, [])]
      | [c] => if code_of c =? 10 then [(0, [])] else []
      | _ => []
      end
  end.

(** A match object: where the match starts, its text ([group(0)]) and the
    texts of its groups. *)
Record rmatch : Type := mk_rmatch {
  m_start : nat;
  m_text : str;
  m_groups : list str
}.

(** [m.end()]. *)
Definition m_end (m : rmatch) : nat := m_start m + length (m_text m).
(** [m.group(k)] for [k >= 1]. *)
Definition group (m : rmatch) (k : nat) : option str :=
  nth_error (m_groups m) (k - 1).

(** [re.search]: the first match at the leftmost position that has one. *)
Fixpoint search_from (r : regex) (prev : option ascii) (s : str) (i : nat)
  : option rmatch :=
  match run r prev s with
  | (n, caps) :: _ => Some (mk_rmatch i (firstn n s) caps)
  | [] =>
      match s with
      | [] => None
      | c :: s' => search_from r (Some c) s' (S i)
      end
  end.

Definition re_search (r : regex) (s : str) : option rmatch :=
  search_from r None s 0.

(* ===================================================================== *)
(** ** Code normalizer *)
(* ===================================================================== *)

(** [(\d+)([A-Za-z]+)(\d+)([A-Za-z]+)([A-Za-z0-9]+)] *)
Definition re_normalize : regex :=
  Grp (plus is_digit) ;; Grp (plus is_alpha) ;; Grp (plus is_digit) ;;
  Grp (plus is_alpha) ;; Grp (plus is_alnum).

(** [(\d+)([A-Za-z]+)(\d+)([A-Za-z]+)] *)
Definition re_core : regex :=
  Grp (plus is_digit) ;; Grp (plus is_alpha) ;; Grp (plus is_digit) ;;
  Grp (plus is_alpha).

Definition space : str := lit " ".

(** [code.strip().replace(" ", "")] *)
Definition squeeze (code : str) : str := replace space [] (strip code).

Definition normalize_subject_code (code : str) : str :=
  let code := squeeze code in
  match re_search re_normalize code with
  | Some m => m_text m
  | None => code
  end.

(** The four results are each a string or [None]. *)
Definition extract_core_code_parts (code : str)
  : option str * option str * option str * option str :=
  match re_search re_core code with
  | Some m => (group m 1, group m 2, group m 3, group m 4)
  | None => (None, None, None, None)
  end.

(* ===================================================================== *)
(** ** Dictionaries, exceptions, numbers *)
(* ===================================================================== *)

(** A Python [dict] with [str] keys: the entries in insertion order.  A
    store to a key that is present keeps its place; a new key goes last. *)
Definition dict (V : Type) := list (str * V).

Fixpoint dict_get {V : Type} (d : dict V) (k : str) : option V :=
  match d with
  | [] => None
  | (k', v) :: d' => if str_eqb k' k then Some v else dict_get d' k
  end.

Fixpoint dict_set {V : Type} (d : dict V) (k : str) (v : V) : dict V :=
  match d with
  | [] => [(k, v)]
  | (k', v') :: d' =>
      if str_eqb k' k then (k', v) :: d' else (k', v') :: dict_set d' k v
  end.

(** [list(d.keys())], also the order of [for k in d]. *)
Definition keys {V : Type} (d : dict V) : list str := map fst d.

(** [k in d]. *)
Definition dict_mem {V : Type} (d : dict V) (k : str) : bool :=
  match dict_get d k with
  | Some _ => true
  | None => false
  end.

(** [d.get(k, default)]. *)
Definition dict_get_default {V : Type} (d : dict V) (k : str) (default : V) : V :=
  match dict_get d k with
  | Some v => v
  | None => default
  end.

Inductive exn : Type :=
  KeyError | IndexError | TypeError | ValueError | ZeroDivisionError.

(** The outcome of a call that may raise. *)
Inductive result (A : Type) : Type :=
| Ok (a : A)
| Raise (e : exn).
Arguments Ok {A} a.
Arguments Raise {A} e.

Definition bind {A B : Type} (m : result A) (f : A -> result B) : result B :=
  match m with
  | Ok a => f a
  | Raise e => Raise e
  end.

Notation "x <- m ;;; k" := (bind m (fun x => k))
  (at level 62, m at next level, right associativity).

(** [d[k]]. *)
Definition dict_item {V : Type} (d : dict V) (k : str) : result V :=
  match dict_get d k with
  | Some v => Ok v
  | None => Raise KeyError
  end.

(** The arithmetic the aggregator needs of Python's numbers ([int] and
    [float] mixed): the model is stated once over this interface and read at
    exact rationals and at IEEE binary64. *)
Class Number (num : Type) : Type := {
  of_int : Z -> num;
  (** the value of a decimal numeral with [k] digits after the point *)
  of_decimal : Z -> nat -> num;
  add : num -> num -> num;
  mul : num -> num -> num;
  div : num -> num -> num;
  num_eqb : num -> num -> bool;
  num_ltb : num -> num -> bool;
  num_leb : num -> num -> bool;
  (** [round(x, n)] *)
  round_nd : nat -> num -> num
}.

(** [x / y]: a zero divisor raises. *)
Definition py_div {num : Type} `{Number num} (x y : num) : result num :=
  if num_eqb y (of_int 0) then Raise ZeroDivisionError else Ok (div x y).

(** [SequenceMatcher(None, a, b).ratio()] of the standard library's
    [difflib], a parameter of the matcher. *)
Class Similarity : Type := { ratio : str -> str -> Q }.

Definition GRADE_POINTS : dict Z :=
  [ (lit "O", 10%Z); (lit "A+", 9%Z); (lit "A", 8%Z); (lit "B+", 7%Z);
    (lit "B", 6%Z); (lit "C", 5%Z); (lit "P", 4%Z); (lit "F", 0%Z) ].

Definition DEPARTMENT_CODES : dict str :=
  [ (lit "CV", lit "Civil Engineering");
    (lit "ME", lit "Mechanical Engineering");
    (lit "ES", lit "Electrical and Electronics Engineering");
    (lit "EC", lit "Electronics and Communication Engineering");
    (lit "IM", lit "Industrial Engineering and Management");
    (lit "CS", lit "Computer Science and Engineering");
    (lit "ET", lit "Electronics and Telecommunication Engineering");
    (lit "IS", lit "Information Science and Engineering");
    (lit "EI", lit "Electronics and Instrumentation Engineering");
    (lit "MD", lit "Medical Electronics Engineering");
    (lit "CH", lit "Chemical Engineering");
    (lit "BT", lit "Bio-Technology");
    (lit "AS", lit "Aerospace Engineering");
    (lit "AM", lit "Machine Learning (AI and ML)");
    (lit "DS", lit "Computer Science and Engineering (DS)");
    (lit "DC", lit "Computer Science and Engineering (IoT and CS)");
    (lit "AI", lit "Artificial Intelligence and Data Science");
    (lit "BS", lit "Computer Science and Business Systems") ].

(** A value of [parse_result_data]'s mapping. *)
Record result_record : Type := mk_result_record {
  r_name : str;
  r_grade : str;
  r_normalized_code : str
}.

(** Truth value of a [str] or [None]. *)
Definition truthy (o : option str) : bool :=
  match o with
  | Some (_ :: _) => true
  | _ => false
  end.

(** [a == b] on values that are a [str] or [None]. *)
Definition opt_eqb (a b : option str) : bool :=
  match a, b with
  | Some x, Some y => str_eqb x y
  | None, None => true
  | _, _ => false
  end.

Definition Qlt_bool (a b : Q) : bool := negb (Qle_bool b a).

(* ===================================================================== *)
(** ** Matcher *)
(* ===================================================================== *)

Definition special_keywords : list (str * str) :=
  [ (lit "BFE", lit "Biology for Engineers");
    (lit "FBE", lit "Biology for Engineers");
    (lit "ENV", lit "Environmental Studies");
    (lit "CPH", lit "Constitution of India");
    (lit "MAT", lit "Mathematics") ].

(** The first [Some] of [f] along [l]: a loop that returns from inside. *)
Fixpoint first_some {A B : Type} (f : A -> option B) (l : list A) : option B :=
  match l with
  | [] => None
  | a :: l' =>
      match f a with
      | Some b => Some b
      | None => first_some f l'
      end
  end.

(** Lines 337-341: the special-subject stage. *)
Definition special_stage (subject_code name : str) (codes : list str)
  : option str :=
  first_some
    (fun kw : str * str =>
       if contains (fst kw) subject_code || contains (snd kw) name
       then find (contains (fst kw)) codes
       else None)
    special_keywords.

(** Lines 344-350: year, semester and first word of the name.  [split()[0]]
    raises on a name of blanks only. *)
Fixpoint name_stage (year sem : option str) (name : str) (subject_names : dict str)
  (codes : list str) : result (option str) :=
  match codes with
  | [] => Ok None
  | code :: rest =>
      let '(year2, _, sem2, _) := extract_core_code_parts code in
      if opt_eqb year2 year && opt_eqb sem2 sem
         && truthy (Some name) && (3 <? length name)
      then
        match split_ws (lower name) with
        | [] => Raise IndexError
        | search_term :: _ =>
            if contains search_term (lower (dict_get_default subject_names code []))
            then Ok (Some code)
            else name_stage year sem name subject_names rest
        end
      else name_stage year sem name subject_names rest
  end.

(** Lines 359-366: the scan of the fuzzy stage, from [best_match] and
    [highest_similarity] to their final values. *)
Fixpoint fuzzy_scan `{Similarity} (normalized_code sem : str) (codes : list str)
  (best_match : option str) (highest_similarity : Q) : option str * Q :=
  match codes with
  | [] => (best_match, highest_similarity)
  | code :: rest =>
      if contains sem code
      then
        let similarity := ratio normalized_code code in
        if Qlt_bool highest_similarity similarity
        then fuzzy_scan normalized_code sem rest (Some code) similarity
        else fuzzy_scan normalized_code sem rest best_match highest_similarity
      else fuzzy_scan normalized_code sem rest best_match highest_similarity
  end.

(** Lines 372-375: any code of the same semester. *)
Definition semester_stage (sem : str) (codes : list str) : option str :=
  find
    (fun code =>
       let '(_, _, sem2, _) := extract_core_code_parts code in
       opt_eqb sem2 (Some sem))
    codes.

(** Lines 352-377. *)
Definition late_stages `{Similarity} (normalized_code year sem type_code : str)
  (codes : list str) : option str :=
  let core_pattern := year ++ sem ++ firstn 1 type_code in
  match find (contains core_pattern) codes with
  | Some code => Some code
  | None =>
      let '(best_match, highest_similarity) :=
        fuzzy_scan normalized_code sem codes None 0%Q in
      if Qlt_bool (1 # 2) highest_similarity
      then best_match
      else semester_stage sem codes
  end.

Definition find_matching_code `{Similarity} {V : Type}
  (subject_code : str) (course_credits : dict V) (subject_names : dict str)
  (subject_name_map : dict str) (result_subject_data : result_record)
  : result (option str) :=
  let normalized_code := normalize_subject_code subject_code in
  if dict_mem course_credits normalized_code then Ok (Some normalized_code)
  else
    let subject_name := replace space [] (lower (r_name result_subject_data)) in
    let by_name :=
      match dict_get subject_name_map subject_name with
      | Some matching_code =>
          if dict_mem course_credits matching_code then Some matching_code
          else None
      | None => None
      end in
    match by_name with
    | Some matching_code => Ok (Some matching_code)
    | None =>
        match extract_core_code_parts normalized_code with
        | (Some ((_ :: _) as year), Some (_ :: _), Some ((_ :: _) as sem),
           Some ((_ :: _) as type_code)) =>
            let codes := keys course_credits in
            match special_stage subject_code (r_name result_subject_data) codes with
            | Some code => Ok (Some code)
            | None =>
                by_first_word <-
                  name_stage (Some year) (Some sem) (r_name result_subject_data)
                    subject_names codes ;;;
                match by_first_word with
                | Some code => Ok (Some code)
                | None =>
                    Ok (late_stages normalized_code year sem type_code codes)
                end
            end
        | _ => Ok None
        end
    end.

(* ===================================================================== *)
(** ** Combine *)
(* ===================================================================== *)

(** A value of [combine_data]'s mapping, which is what [calculate_sgpa]
    reads; [credit] is optional there (["credit" not in data]). *)
Record subject_data (num : Type) : Type := mk_subject_data {
  d_name : str;
  d_credit : option num;
  d_grade : str;
  d_grade_point : Z;
  d_weighted_point : num
}.

(** An entry of [unmatched_subjects]. *)
Record unmatched : Type := mk_unmatched {
  u_code : str;
  u_name : str;
  u_grade : str
}.

(** [s[0]] on a value that is a [str] or [None]. *)
Definition index0 (s : option str) : result ascii :=
  match s with
  | None => Raise TypeError
  | Some [] => Raise IndexError
  | Some (c :: _) => Ok c
  end.

Section Combine.
Context {num : Type} `{Number num} `{Similarity}.

(** The record stored at lines 405-411, 437-443 and 454-460. *)
Definition combined_entry (name : str) (credit : num) (grade : str)
  : subject_data num :=
  mk_subject_data name (Some credit) grade
    (dict_get_default GRADE_POINTS grade 0%Z)
    (mul credit (of_int (dict_get_default GRADE_POINTS grade 0%Z))).

(** [name.isdigit() or not name or len(name) < 3] *)
Definition poor_name (name : str) : bool :=
  isdigit name || negb (truthy (Some name)) || (length name <? 3).

(** Lines 383-417: one result record. *)
Definition combine_one (course_credits : dict num)
  (subject_names subject_name_map : dict str)
  (acc : dict (subject_data num) * list unmatched)
  (entry : str * result_record)
  : result (dict (subject_data num) * list unmatched) :=
  let '(combined_data, unmatched_subjects) := acc in
  let '(subject_code, subject_data) := entry in
  let name := r_name subject_data in
  let normalized_code := r_normalized_code subject_data in
  found <-
    match dict_get course_credits subject_code with
    | Some credit => Ok (Some credit, name)
    | None =>
        match dict_get course_credits normalized_code with
        | Some credit => Ok (Some credit, name)
        | None =>
            matching_code <-
              find_matching_code subject_code course_credits subject_names
                subject_name_map subject_data ;;;
            match matching_code with
            | Some ((_ :: _) as code) =>
                credit <- dict_item course_credits code ;;;
                Ok (Some credit, dict_get_default subject_names code name)
            | _ => Ok (None, name)
            end
        end
    end ;;;
  match found with
  | (Some credit, name) =>
      let name :=
        if dict_mem subject_names subject_code && poor_name name
        then dict_get_default subject_names subject_code name
        else if dict_mem subject_names normalized_code && poor_name name
        then dict_get_default subject_names normalized_code name
        else name in
      Ok (dict_set combined_data subject_code
            (combined_entry name credit (r_grade subject_data)),
          unmatched_subjects)
  | (None, name) =>
      Ok (combined_data,
          unmatched_subjects ++
            [mk_unmatched subject_code name (r_grade subject_data)])
  end.

Fixpoint fold_result {A B : Type} (f : A -> B -> result A) (l : list B) (a : A)
  : result A :=
  match l with
  | [] => Ok a
  | b :: l' => a' <- f a b ;;; fold_result f l' a'
  end.

(** Lines 425-430. *)
Definition special_cases : list (str * regex) :=
  [ (lit "Biology", Alt (word (lit "BFE")) (word (lit "FBE")));
    (lit "Environment", word (lit "ENV"));
    (lit "Constitution", word (lit "CPH"));
    (lit "Math", word (lit "MAT")) ].

Definition re_found (r : regex) (s : str) : bool :=
  match re_search r s with
  | Some _ => true
  | None => false
  end.

(** Lines 425-444: the keyword loop, left at the first keyword that occurs in
    the name and has a course code. *)
Fixpoint special_case_pass (course_credits : dict num) (subject_names : dict str)
  (subj : unmatched) (cases : list (str * regex))
  (combined_data : dict (subject_data num)) : dict (subject_data num) :=
  match cases with
  | [] => combined_data
  | (keyword, pattern) :: rest =>
      if contains keyword (u_name subj)
      then
        match filter (re_found pattern) (keys course_credits) with
        | code :: _ =>
            match dict_get course_credits code with
            | Some credit =>
                dict_set combined_data (u_code subj)
                  (combined_entry
                     (dict_get_default subject_names code (u_name subj))
                     credit (u_grade subj))
            | None => combined_data
            end
        | [] => special_case_pass course_credits subject_names subj rest combined_data
        end
      else special_case_pass course_credits subject_names subj rest combined_data
  end.

(** Line 451: [code_sem == sem and (type_code == code_type or
    type_code[0] == code_type[0])], with Python's short-circuit order. *)
Definition same_semester_and_type (sem type_code code_sem code_type : option str)
  : result bool :=
  if opt_eqb code_sem sem
  then
    if opt_eqb type_code code_type then Ok true
    else
      a <- index0 type_code ;;;
      b <- index0 code_type ;;;
      Ok (Ascii.eqb a b)
  else Ok false.

(** Lines 449-461: the loop over the course codes, left at the first hit. *)
Fixpoint semester_type_pass (course_credits : dict num) (subject_names : dict str)
  (subj : unmatched) (sem type_code : option str) (codes : list str)
  (combined_data : dict (subject_data num))
  : result (dict (subject_data num)) :=
  match codes with
  | [] => Ok combined_data
  | code :: rest =>
      let '(_, _, code_sem, code_type) := extract_core_code_parts code in
      hit <- same_semester_and_type sem type_code code_sem code_type ;;;
      if hit : bool
      then
        credit <- dict_item course_credits code ;;;
        Ok (dict_set combined_data (u_code subj)
              (combined_entry
                 (dict_get_default subject_names code (u_name subj))
                 credit (u_grade subj)))
      else
        semester_type_pass course_credits subject_names subj sem type_code
          rest combined_data
  end.

(** Lines 421-461: the second chance of one unmatched subject. *)
Definition second_chance (course_credits : dict num) (subject_names : dict str)
  (combined_data : dict (subject_data num)) (subj : unmatched)
  : result (dict (subject_data num)) :=
  let combined_data :=
    special_case_pass course_credits subject_names subj special_cases
      combined_data in
  let '(_, _, sem, type_code) := extract_core_code_parts (u_code subj) in
  if truthy sem
  then
    semester_type_pass course_credits subject_names subj sem type_code
      (keys course_credits) combined_data
  else Ok combined_data.

Definition combine_data (subjects : dict result_record)
  (course_credits : dict num) (subject_names subject_name_map : dict str)
  : result (dict (subject_data num)) :=
  first_pass <-
    fold_result (combine_one course_credits subject_names subject_name_map)
      subjects ([], []) ;;;
  fold_result (second_chance course_credits subject_names)
    (snd first_pass) (fst first_pass).

End Combine.

(* ===================================================================== *)
(** ** Result parser *)
(* ===================================================================== *)

Definition digit_2 : ascii -> bool := is_char "2"%char.

(** [2\d[A-Za-z]{2}\d[A-Za-z]{2,7}] *)
Definition re_code_stem : regex :=
  Chr digit_2 ;; Chr is_digit ;; times is_alpha 2 2 ;; Chr is_digit ;;
  times is_alpha 2 7.

(** [\b2\d[A-Za-z]{2}\d[A-Za-z]{2,7}] *)
Definition re_subject_line : regex := Bnd ;; re_code_stem.

(** [2\d[A-Za-z]{2}\d[A-Za-z]{2,7}[A-Za-z0-9]*], as one group *)
Definition re_subject_code : regex := Grp (re_code_stem ;; star is_alnum).

(** [[OABCPFo+]] *)
Definition is_grade_char (c : ascii) : bool :=
  existsb (Ascii.eqb c) (lit "OABCPFo+").

(** [\s+\d+.*$] *)
Definition re_marks_tail : regex :=
  plus is_space ;; plus is_digit ;; star is_dot ;; Eol.

(** [[0-9]+\s+([OABCPFo+]+)$] *)
Definition re_grade_after_marks : regex :=
  plus is_digit ;; plus is_space ;; Grp (plus is_grade_char) ;; Eol.

(** [([OABCPFo+]+)$] *)
Definition re_grade_at_end : regex := Grp (plus is_grade_char) ;; Eol.

(** the subject code, then [\s+(.*?)\s+\d+\s+\d+\s+\d+\s+([OABCPFo+]+)] *)
Definition re_grades_row : regex :=
  re_subject_code ;; plus is_space ;; Grp (lazy_star is_dot) ;;
  plus is_space ;; plus is_digit ;; plus is_space ;; plus is_digit ;;
  plus is_space ;; plus is_digit ;; plus is_space ;; Grp (plus is_grade_char).

(** The four special-subject patterns of lines 167-172, matched with
    [re.IGNORECASE]. *)
Definition special_result_pattern (suffix : regex) (title : list str) : regex :=
  Grp (re_code_stem ;; suffix) ;; plus is_space ;;
  Grp (fold_right (fun w r => word_i w ;; plus is_space ;; r)
         (word_i (last title [])) (removelast title)).

Definition special_subject_patterns : list (regex * str) :=
  [ (special_result_pattern (Alt (word_i (lit "BFE")) (word_i (lit "FBE")))
       [lit "Biology"; lit "for"; lit "Engineers"],
     lit "Biology for Engineers");
    (special_result_pattern (word_i (lit "ENV"))
       [lit "Environmental"; lit "Studies"],
     lit "Environmental Studies");
    (special_result_pattern (word_i (lit "CPH"))
       [lit "Constitution"; lit "of"; lit "India"],
     lit "Constitution of India");
    (special_result_pattern (word_i (lit "MAT")) [lit "Mathematics"],
     lit "Mathematics") ].

(** [m.group(k)] of a group that takes part in every match, as all groups of
    the source's patterns do. *)
Definition group_text (m : rmatch) (k : nat) : str :=
  match group m k with
  | Some s => s
  | None => []
  end.

(** [re.sub(r, '', s)] for a pattern that matches no empty text: the matches
    are cut out from left to right. *)
Fixpoint re_cut (fuel : nat) (r : regex) (prev : option ascii) (s : str) : str :=
  match fuel with
  | O => s
  | S fuel' =>
      match search_from r prev s 0 with
      | None => s
      | Some m =>
          firstn (m_start m) s ++
          re_cut fuel' r (char_before prev s (m_end m)) (skipn (m_end m) s)
      end
  end.
Definition re_sub_empty (r : regex) (s : str) : str :=
  re_cut (S (length s)) r None s.

(** [enumerate(l)]. *)
Definition enumerate {A : Type} (l : list A) : list (nat * A) :=
  combine (seq 0 (length l)) l.

(** [m.group(1).strip().upper().replace(" ", "")] *)
Definition grade_of (m : rmatch) : str :=
  replace space [] (upper (strip (group_text m 1))).

(** [if grade in GRADE_POINTS: subjects[subject_code] = {...}] *)
Definition store_graded (subjects : dict result_record)
  (subject_code subject_name : str) (grade : option str)
  : dict result_record :=
  match grade with
  | Some g =>
      if dict_mem GRADE_POINTS g
      then dict_set subjects subject_code
             (mk_result_record subject_name g
                (normalize_subject_code subject_code))
      else subjects
  | None => subjects
  end.

(** Lines 130-136 and 207-219: the grade at the end of one of the next two
    lines, when that line is short. *)
Fixpoint grade_ahead (lines : list str) (line_idx : nat) (js : list nat)
  : option str :=
  match js with
  | [] => None
  | j :: js' =>
      match nth_error lines (line_idx + j) with
      | Some next_line =>
          match re_search re_grade_at_end next_line with
          | Some grade_match =>
              if length next_line <? 20 then Some (grade_of grade_match)
              else grade_ahead lines line_idx js'
          | None => grade_ahead lines line_idx js'
          end
      | None => grade_ahead lines line_idx js'
      end
  end.

(** Lines 110-146: one line that carries a subject code. *)
Definition scan_subject_line (lines : list str) (subject_lines : list (nat * str))
  (subjects : dict result_record) (entry : nat * str) : dict result_record :=
  let '(line_idx, line) := entry in
  match re_search re_subject_code line with
  | None => subjects
  | Some code_match =>
      let subject_code := strip (group_text code_match 1) in
      let remaining_text := strip (skipn (m_end code_match) line) in
      let subject_name := strip (re_sub_empty re_marks_tail remaining_text) in
      let subject_name :=
        if negb (truthy (Some subject_name)) || isdigit subject_name
        then
          if (line_idx + 1 <? length lines)
             && negb (existsb (Nat.eqb (line_idx + 1)) (map fst subject_lines))
          then
            match nth_error lines (line_idx + 1) with
            | Some next_line =>
                if re_found re_subject_line next_line then subject_name
                else strip next_line
            | None => subject_name
            end
          else subject_name
        else subject_name in
      let grade :=
        match re_search re_grade_after_marks line with
        | Some grade_match => Some (grade_of grade_match)
        | None => grade_ahead lines line_idx [1; 2]
        end in
      let grade :=
        if opt_eqb grade (Some (lit "O+")) then Some (lit "O") else grade in
      store_graded subjects subject_code subject_name grade
  end.

(** Lines 151-164: one line under a [GRADES] marker. *)
Definition scan_grades_row (lines : list str) (subjects : dict result_record)
  (j : nat) : dict result_record :=
  match nth_error lines j with
  | None => subjects
  | Some grade_line =>
      match re_search re_grades_row grade_line with
      | None => subjects
      | Some full_match =>
          store_graded subjects (strip (group_text full_match 1))
            (strip (group_text full_match 2))
            (Some (replace space [] (upper (strip (group_text full_match 3)))))
      end
  end.

(** Lines 149-164. *)
Definition scan_grades_block (lines : list str) (subjects : dict result_record)
  (entry : nat * str) : dict result_record :=
  let '(i, line) := entry in
  if contains (lit "GRADES") line && (i + 1 <? length lines)
  then
    fold_left (scan_grades_row lines)
      (seq (i + 1) (Nat.min (i + 20) (length lines) - (i + 1))) subjects
  else subjects.

(** Lines 174-188: one special pattern on one line. *)
Definition scan_special (pattern : regex) (name : str)
  (subjects : dict result_record) (line : str) : dict result_record :=
  match re_search pattern line with
  | None => subjects
  | Some special_match =>
      match re_search re_grade_at_end line with
      | None => subjects
      | Some grade_match =>
          store_graded subjects (strip (group_text special_match 1)) name
            (Some (grade_of grade_match))
      end
  end.

(** Lines 192-219: one keyword on one line. *)
Definition scan_keyword (lines : list str) (i : nat) (line : str)
  (subjects : dict result_record) (keyword : str) : dict result_record :=
  if contains keyword line
  then
    match re_search re_subject_code line with
    | None => subjects
    | Some code_match =>
        let subject_code := strip (group_text code_match 1) in
        match re_search re_grade_at_end line with
        | Some grade_match =>
            store_graded subjects subject_code keyword
              (Some (grade_of grade_match))
        | None =>
            store_graded subjects subject_code keyword
              (grade_ahead lines i [1; 2])
        end
    end
  else subjects.

Definition special_names : list str :=
  [ lit "Biology for Engineers"; lit "Environmental Studies";
    lit "Constitution of India" ].

Definition parse_result_data (result_text : str) : dict result_record :=
  let lines := split_lines result_text in
  let subject_lines :=
    filter (fun e => re_found re_subject_line (snd e)) (enumerate lines) in
  let subjects :=
    fold_left (scan_subject_line lines subject_lines) subject_lines [] in
  let subjects := fold_left (scan_grades_block lines) (enumerate lines) subjects in
  let subjects :=
    fold_left
      (fun subjects pn =>
         fold_left (scan_special (fst pn) (snd pn)) lines subjects)
      special_subject_patterns subjects in
  fold_left
    (fun subjects e =>
       fold_left (scan_keyword lines (fst e) (snd e)) special_names subjects)
    (enumerate lines) subjects.

(* ===================================================================== *)
(** ** Course parser *)
(* ===================================================================== *)

(** [2\d[A-Za-z0-9]{6,10}], as one group *)
Definition re_course_code : regex :=
  Grp (Chr digit_2 ;; Chr is_digit ;; times is_alnum 6 10).

(** [(\d+(?:\.\d+)?)] *)
Definition re_credit : regex :=
  Grp (plus is_digit ;; Opt (Chr (is_char "."%char) ;; plus is_digit)).

(** [(.+?)\s+(2\d[A-Za-z0-9]{6,10})\s+\w+\s+\d+\s+(\d+(?:\.\d+)?)] *)
Definition re_course_row : regex :=
  Grp (lazy_plus is_dot) ;; plus is_space ;; re_course_code ;;
  plus is_space ;; plus is_word ;; plus is_space ;; plus is_digit ;;
  plus is_space ;; re_credit.

(** The three patterns of lines 240-244, in the order they are tried. *)
Definition course_patterns : list regex :=
  [ plus is_digit ;; plus is_space ;; re_course_row;
    re_course_row;
    Grp (lazy_plus is_dot) ;; plus is_space ;; re_course_code ;;
    plus is_space ;; lazy_star is_dot ;; re_credit ;; Eol ].

(** [(\d+(?:\.\d+)?)$] *)
Definition re_credit_at_end : regex := re_credit ;; Eol.

(** The four patterns of lines 261-266, matched with [re.IGNORECASE]. *)
Definition special_course_pattern (title : list str) : regex :=
  Grp (fold_right (fun w r => word_i w ;; plus is_space ;; r)
         (word_i (last title [])) (removelast title)) ;;
  plus is_space ;; re_course_code.

Definition special_course_patterns : list regex :=
  [ special_course_pattern [lit "Biology"; lit "for"; lit "Engineers"];
    special_course_pattern [lit "Environmental"; lit "Studies"];
    special_course_pattern [lit "Constitution"; lit "of"; lit "India"];
    special_course_pattern [lit "Mathematics"] ].

(** The number a string of digits writes. *)
Definition digits_value (s : str) : Z :=
  fold_left (fun acc c => (10 * acc + (Z.of_nat (code_of c) - 48))%Z) s 0%Z.

(** Lines 286-287: the department letters of a code that passes
    [if year and dept and sem]. *)
Definition department_of (code : str) : option str :=
  match extract_core_code_parts code with
  | (Some (_ :: _), Some ((_ :: _) as dept), Some (_ :: _), _) => Some dept
  | _ => None
  end.

Section Course.
Context {num : Type} `{Number num}.

(** [float(s)] for the text of a credit, which [re_credit] makes a numeral
    [digits] or [digits.digits]. *)
Definition float_of (s : str) : num :=
  let whole := firstn (span is_digit s) s in
  let fraction := skipn (S (span is_digit s)) s in
  of_decimal (digits_value (whole ++ fraction)) (length fraction).

(** The two mappings [parse_course_data] builds side by side. *)
Definition course_index : Type := dict num * dict str.

(** Lines 254-257 and 279-282. *)
Definition store_course (idx : course_index) (subject_code subject_name : str)
  (credit : num) : course_index :=
  let normalized_code := normalize_subject_code subject_code in
  (dict_set (dict_set (fst idx) subject_code credit) normalized_code credit,
   dict_set (dict_set (snd idx) subject_code subject_name) normalized_code
     subject_name).

(** Lines 246-258: the first pattern that matches the line. *)
Fixpoint scan_course_row (patterns : list regex) (line : str)
  (idx : course_index) : course_index :=
  match patterns with
  | [] => idx
  | pattern :: rest =>
      match re_search pattern line with
      | Some m =>
          store_course idx (strip (group_text m 2)) (strip (group_text m 1))
            (float_of (strip (group_text m 3)))
      | None => scan_course_row rest line idx
      end
  end.

(** Lines 230-258: one line, with the flag [in_course_section]. *)
Definition scan_course_line (st : bool * course_index) (line : str)
  : bool * course_index :=
  let '(in_course_section, idx) := st in
  if contains (lit "Course Details") line || contains (lit "Course Title") line
  then (true, idx)
  else if in_course_section && contains (lit "Total Credits") line
  then (false, idx)
  else if in_course_section
  then (in_course_section, scan_course_row course_patterns line idx)
  else st.

(** Lines 268-282: one special pattern on one line. *)
Definition scan_special_course (pattern : regex) (idx : course_index)
  (line : str) : course_index :=
  match re_search pattern line with
  | None => idx
  | Some special_match =>
      match re_search re_credit_at_end line with
      | None => idx
      | Some credit_match =>
          store_course idx (strip (group_text special_match 2))
            (strip (group_text special_match 1))
            (float_of (strip (group_text credit_match 1)))
      end
  end.

(** Lines 291-298: the stores for one other department. *)
Definition alias_step (code dept : str) (credit : num) (name : str)
  (idx : course_index) (alt_dept : str) : course_index :=
  if negb (str_eqb alt_dept dept)
  then
    let alt_code := replace dept alt_dept code in
    let alt_normalized := normalize_subject_code alt_code in
    (dict_set (dict_set (fst idx) alt_code credit) alt_normalized credit,
     dict_set (dict_set (snd idx) alt_code name) alt_normalized name)
  else idx.

(** Lines 286-298: one code of the snapshot [list(course_credits.keys())]. *)
Definition alias_code (idx : course_index) (code : str) : course_index :=
  match department_of code with
  | Some dept =>
      match dict_get (fst idx) code with
      | Some credit =>
          let name := dict_get_default (snd idx) code [] in
          fold_left (alias_step code dept credit name) (keys DEPARTMENT_CODES)
            idx
      | None => idx
      end
  | None => idx
  end.

(** Lines 285-298. *)
Definition generate_aliases (idx : course_index) : course_index :=
  fold_left alias_code (keys (fst idx)) idx.

(** Lines 301-304. *)
Definition name_map (subject_names : dict str) : dict str :=
  fold_left
    (fun m e => dict_set m (replace space [] (lower (snd e))) (fst e))
    subject_names [].

(** Lines 227-282: the index before the aliases are added. *)
Definition parse_course_rows (course_text : str) : course_index :=
  let lines := split_lines course_text in
  let idx := snd (fold_left scan_course_line lines (false, ([], []))) in
  fold_left
    (fun idx pattern => fold_left (scan_special_course pattern) lines idx)
    special_course_patterns idx.

Definition parse_course_data (course_text : str)
  : dict num * dict str * dict str :=
  let idx := generate_aliases (parse_course_rows course_text) in
  (fst idx, snd idx, name_map (snd idx)).

End Course.

(* ===================================================================== *)
(** ** Aggregator *)
(* ===================================================================== *)

(** An entry of [subject_points]. *)
Record subject_point (num : Type) : Type := mk_subject_point {
  p_code : str;
  p_name : str;
  p_credit : num;
  p_grade : str;
  p_grade_point : Z;
  p_weighted_point : num
}.

Section Sgpa.
Context {num : Type} `{Number num}.

(** The loop state of [calculate_sgpa]: [total_credits], [weighted_sum] and
    [subject_points]. *)
Record sgpa_state : Type := mk_sgpa_state {
  total_credits : num;
  weighted_sum : num;
  subject_points : list (subject_point num)
}.

(** Lines 471-490: one subject. *)
Definition sgpa_step (st : sgpa_state) (entry : str * subject_data num)
  : sgpa_state :=
  let '(subject_code, data) := entry in
  match d_credit data with
  | None => st
  | Some credit =>
      if num_eqb credit (of_int 0) then st
      else
        let grade := d_grade data in
        let grade_point := dict_get_default GRADE_POINTS grade 0%Z in
        let weighted_point := mul credit (of_int grade_point) in
        mk_sgpa_state
          (add (total_credits st) credit)
          (add (weighted_sum st) weighted_point)
          (subject_points st ++
             [mk_subject_point subject_code (d_name data) credit grade
                grade_point weighted_point])
  end.

Definition sgpa_loop (subjects : dict (subject_data num)) : sgpa_state :=
  fold_left sgpa_step subjects (mk_sgpa_state (of_int 0) (of_int 0) []).

(** Returns [(sgpa, subject_points, total_credits, weighted_sum)]. *)
Definition calculate_sgpa (subjects : dict (subject_data num))
  : result (num * list (subject_point num) * num * num) :=
  let st := sgpa_loop subjects in
  if num_leb (total_credits st) (of_int 0)
  then Ok (of_int 0, subject_points st, total_credits st, weighted_sum st)
  else
    sgpa <- py_div (weighted_sum st) (total_credits st) ;;;
    Ok (round_nd 2 sgpa, subject_points st, total_credits st, weighted_sum st).

End Sgpa.

(** *** Cumulative average

    [calculate_cgpa] writes into the semester reports it is given and hands
    the same mapping back, so the reports live in a store of objects. *)

Definition loc := nat.

(** What a report holds under a key: a number, or anything else ([subjects],
    [department], ...), which [calculate_cgpa] never looks into. *)
Inductive value (num : Type) : Type :=
| VNum (x : num)
| VStr (s : str)
| VNone
| VRef (l : loc).
Arguments VNone {num}.
Arguments VStr {num} s.
Arguments VRef {num} l.

(** The objects of the store: a semester report (a [dict] with [str] keys)
    and the mapping from semester ids to reports. *)
Inductive object (num : Type) : Type :=
| Report (d : dict (value num))
| Semesters (d : list (Z * loc)).
Arguments Semesters {num} d.

Definition heap (num : Type) : Type := loc -> option (object num).

Definition heap_set {num : Type} (h : heap num) (l : loc) (o : object num)
  : heap num :=
  fun l' => if Nat.eqb l' l then Some o else h l'.

(** [d[k]] on the mapping of semester ids. *)
Fixpoint sem_get (d : list (Z * loc)) (k : Z) : option loc :=
  match d with
  | [] => None
  | (k', l) :: d' => if Z.eqb k' k then Some l else sem_get d' k
  end.

(** [sorted(items, key=lambda x: x[0])]: a stable sort by id. *)
Fixpoint insert_by_id (e : Z * loc) (l : list (Z * loc)) : list (Z * loc) :=
  match l with
  | [] => [e]
  | e' :: l' =>
      if (fst e <=? fst e')%Z then e :: l else e' :: insert_by_id e l'
  end.
Definition sorted_by_id (d : list (Z * loc)) : list (Z * loc) :=
  fold_right insert_by_id [] d.

Record cgpa_summary (num : Type) : Type := mk_cgpa_summary {
  sum_total_credits : num;
  sum_total_points : num;
  sum_max_possible_points : num;
  sum_overall_percentage : num
}.

Section Cgpa.
Context {num : Type} `{Number num}.

(** [data[k]] for a report, as a number. *)
Definition report_number (h : heap num) (l : loc) (k : str) : result num :=
  match h l with
  | Some (Report d) =>
      match dict_get d k with
      | Some (VNum x) => Ok x
      | Some _ => Raise TypeError
      | None => Raise KeyError
      end
  | _ => Raise TypeError
  end.

(** [round(points / credits, 2) if credits > 0 else 0] *)
Definition average (points credits : num) : result num :=
  if num_ltb (of_int 0) credits
  then q <- py_div points credits ;;; Ok (round_nd 2 q)
  else Ok (of_int 0).

(** [semester_data[sem_id]["cgpa"] = cgpa] *)
Definition store_cgpa (h : heap num) (semester_data : list (Z * loc))
  (sem_id : Z) (cgpa : num) : heap num * result unit :=
  match sem_get semester_data sem_id with
  | None => (h, Raise KeyError)
  | Some l =>
      match h l with
      | Some (Report d) =>
          (heap_set h l (Report (dict_set d (lit "cgpa") (VNum cgpa))), Ok tt)
      | _ => (h, Raise TypeError)
      end
  end.

(** The loop state: [cumulative_credits] and [cumulative_points]. *)
Definition running : Type := (num * num)%type.

(** Lines 514-529: the loop over [sorted_semesters]. *)
Fixpoint cgpa_loop (semester_data : list (Z * loc))
  (sorted_semesters : list (Z * loc)) (h : heap num) (acc : running)
  : heap num * result running :=
  match sorted_semesters with
  | [] => (h, Ok acc)
  | (sem_id, data) :: rest =>
      match report_number h data (lit "total_credits") with
      | Raise e => (h, Raise e)
      | Ok credits =>
          let cumulative_credits := add (fst acc) credits in
          match report_number h data (lit "total_points") with
          | Raise e => (h, Raise e)
          | Ok points =>
              let cumulative_points := add (snd acc) points in
              match average cumulative_points cumulative_credits with
              | Raise e => (h, Raise e)
              | Ok cgpa =>
                  match store_cgpa h semester_data sem_id cgpa with
                  | (h', Raise e) => (h', Raise e)
                  | (h', Ok _) =>
                      cgpa_loop semester_data rest h'
                        (cumulative_credits, cumulative_points)
                  end
              end
          end
      end
  end.

(** Lines 535-540. *)
Definition summary_of (acc : running) : result (cgpa_summary num) :=
  let '(cumulative_credits, cumulative_points) := acc in
  overall_percentage <-
    (if num_ltb (of_int 0) cumulative_credits
     then
       q <- py_div cumulative_points (mul cumulative_credits (of_int 10)) ;;;
       Ok (round_nd 2 (mul q (of_int 100)))
     else Ok (of_int 0)) ;;;
  Ok (mk_cgpa_summary
        (round_nd 1 cumulative_credits)
        (round_nd 1 cumulative_points)
        (round_nd 1 (mul cumulative_credits (of_int 10)))
        overall_percentage).

(** [calculate_cgpa(semester_data)] on the store [h]: the store afterwards,
    and [(overall_cgpa, semester_data, summary)] with [semester_data] the
    reference that was passed in. *)
Definition calculate_cgpa (h : heap num) (semester_data : loc)
  : heap num * result (num * loc * cgpa_summary num) :=
  match h semester_data with
  | Some (Semesters d) =>
      match cgpa_loop d (sorted_by_id d) h (of_int 0, of_int 0) with
      | (h', Raise e) => (h', Raise e)
      | (h', Ok acc) =>
          (h',
           overall_cgpa <- average (snd acc) (fst acc) ;;;
           summary <- summary_of acc ;;;
           Ok (overall_cgpa, semester_data, summary))
      end
  | _ => (h, Raise TypeError)
  end.

End Cgpa.

(* ===================================================================== *)
(** ** Upload check *)
(* ===================================================================== *)

Definition ALLOWED_EXTENSIONS : list str := [lit "pdf"].

Definition dot : ascii := "."%char.

(** [s.rsplit(sep, 1)]: the text cut at its last [sep], or the text alone. *)
Definition rsplit1 (sep : ascii) (s : str) : list str :=
  let r := rev s in
  let n := span (fun c => negb (Ascii.eqb c sep)) r in
  if n <? length r
  then [rev (skipn (S n) r); rev (firstn n r)]
  else [s].

(** [l[i]]. *)
Definition list_item {A : Type} (l : list A) (i : nat) : result A :=
  match nth_error l i with
  | Some a => Ok a
  | None => Raise IndexError
  end.

(** ['.' in filename and filename.rsplit('.', 1)[1].lower() in
    ALLOWED_EXTENSIONS] *)
Definition allowed_file (filename : str) : result bool :=
  if contains [dot] filename
  then
    extension <- list_item (rsplit1 dot filename) 1 ;;;
    Ok (existsb (str_eqb (lower extension)) ALLOWED_EXTENSIONS)
  else Ok false.

(* ===================================================================== *)
(** ** Department and semester *)
(* ===================================================================== *)

(** [len(re.findall(r, s))] for a pattern that matches no empty text: the
    matches are counted from left to right, each search starting where the
    match before it ended. *)
Fixpoint count_matches (fuel : nat) (r : regex) (prev : option ascii) (s : str)
  : nat :=
  match fuel with
  | O => 0
  | S fuel' =>
      match search_from r prev s 0 with
      | None => 0
      | Some m =>
          S (count_matches fuel' r (char_before prev s (m_end m))
               (skipn (m_end m) s))
      end
  end.
Definition findall_count (r : regex) (s : str) : nat :=
  count_matches (S (length s)) r None s.

(** [fr'\b2\d{dept_code}\d'], for a code made of letters as those of
    [DEPARTMENT_CODES]. *)
Definition re_department (dept_code : str) : regex :=
  Bnd ;; Chr digit_2 ;; Chr is_digit ;; word dept_code ;; Chr is_digit.

(** [max(items, key=lambda x: x[1])] from a first item on: the first item
    of the largest count. *)
Fixpoint max_by_count {A : Type} (best : A * nat) (l : list (A * nat))
  : A * nat :=
  match l with
  | [] => best
  | x :: l' => max_by_count (if snd best <? snd x then x else best) l'
  end.

Definition dept_counts (all_text : str) : list (str * nat) :=
  map (fun e => (fst e, findall_count (re_department (fst e)) all_text))
    DEPARTMENT_CODES.

Definition detect_department (result_text course_text : str)
  : option str * option str :=
  let all_text := result_text ++ course_text in
  match dept_counts all_text with
  | [] => (None, None)
  | first :: rest =>
      let max_dept := max_by_count first rest in
      if 0 <? snd max_dept
      then (Some (fst max_dept), dict_get DEPARTMENT_CODES (fst max_dept))
      else (None, None)
  end.

(** [str(i)] for a digit. *)
Definition digit_char (i : Z) : ascii := ascii_of_nat (48 + Z.to_nat i).

(** [fr'\b2\d[A-Za-z]{2}{i}[A-Za-z]{2}']: in the f-string each [{2}] is a
    replacement field and leaves the digit 2 in the pattern, which so reads
    [\b2\d[A-Za-z]2i[A-Za-z]2] with [i] the digit of the semester. *)
Definition re_semester (i : Z) : regex :=
  Bnd ;; Chr digit_2 ;; Chr is_digit ;; Chr is_alpha ;; Chr digit_2 ;;
  Chr (is_char (digit_char i)) ;; Chr is_alpha ;; Chr digit_2.

(** [sem_counts] over [range(1, 9)]. *)
Definition sem_counts (all_text : str) : list (Z * nat) :=
  map (fun i => (i, findall_count (re_semester i) all_text))
    (map Z.of_nat (seq 1 8)).

Definition detect_semester (result_text course_text : str) : option Z :=
  let all_text := result_text ++ course_text in
  match sem_counts all_text with
  | [] => None
  | first :: rest =>
      let max_sem := max_by_count first rest in
      if 0 <? snd max_sem then Some (fst max_sem) else None
  end.

(* ===================================================================== *)
(** ** Report of one semester *)
(* ===================================================================== *)

(** A value of [report["subjects"]]. *)
Record report_subject (num : Type) : Type := mk_report_subject {
  rs_code : str;
  rs_credit : num;
  rs_grade : str;
  rs_grade_point : Z;
  rs_weighted_point : num
}.

(** [report["summary"]]. *)
Record report_summary (num : Type) : Type := mk_report_summary {
  rep_total_credits : num;
  rep_total_points : num;
  rep_max_possible_points : num;
  rep_percentage : num
}.

Record report (num : Type) : Type := mk_report {
  rep_sgpa : num;
  rep_department : option str * option str;
  rep_semester : option Z;
  rep_subjects : dict (report_subject num);
  rep_summary : report_summary num
}.

(** What [process_semester_files] returns. *)
Record semester_result (num : Type) : Type := mk_semester_result {
  sem_sgpa : num;
  sem_subjects : dict (report_subject num);
  sem_total_credits : num;
  sem_total_points : num;
  sem_max_possible_points : num;
  sem_percentage : num;
  sem_department : option str * option str;
  sem_semester : option Z
}.

(** What [process_semester_files] raises: a [ValueError] with its message,
    or what one of the functions it calls raised. *)
Inductive failure : Type :=
| ValueErrorOf (message : str)
| Uncaught (e : exn).

Inductive outcome (A : Type) : Type :=
| Returns (a : A)
| Raises (f : failure).
Arguments Returns {A} a.
Arguments Raises {A} f.

Definition uncaught {A : Type} (r : result A) : outcome A :=
  match r with
  | Ok a => Returns a
  | Raise e => Raises (Uncaught e)
  end.

Definition no_text : str := lit "Unable to extract text from the provided PDF".
Definition no_subjects : str :=
  lit "No subjects found in the results PDF. Please check the file.".
Definition no_credits : str :=
  lit "No course credits found in the course PDF. Please check the file.".
Definition no_match : str :=
  lit "Could not match any subjects between the two files. Please check that both files are for the same semester.".

Section Report.
Context {num : Type} `{Number num} `{Similarity}.

(** [round((total_points / (total_credits * 10)) * 100, 2) if total_credits
    > 0 else 0] *)
Definition percentage_of (total_points total_credits : num) : result num :=
  if num_ltb (of_int 0) total_credits
  then
    q <- py_div total_points (mul total_credits (of_int 10)) ;;;
    Ok (round_nd 2 (mul q (of_int 100)))
  else Ok (of_int 0).

(** The key a subject gets in the report: its name, or [Subject] and its
    code when the name is empty or all digits. *)
Definition display_name (point : subject_point num) : str :=
  if isdigit (p_name point) || negb (truthy (Some (p_name point)))
  then lit "Subject " ++ p_code point
  else p_name point.

(** Lines 564-575: one entry of [subject_points]. *)
Definition report_step (subjects : dict (report_subject num))
  (point : subject_point num) : dict (report_subject num) :=
  dict_set subjects (display_name point)
    (mk_report_subject (p_code point) (p_credit point) (p_grade point)
       (p_grade_point point) (round_nd 2 (p_weighted_point point))).

Definition generate_report (subject_points : list (subject_point num))
  (sgpa total_credits total_points : num) (dept_code dept_name : option str)
  (semester : option Z) : result (report num) :=
  percentage <- percentage_of total_points total_credits ;;;
  Ok (mk_report sgpa (dept_code, dept_name) semester
        (fold_left report_step subject_points [])
        (mk_report_summary (round_nd 1 total_credits) (round_nd 1 total_points)
           (round_nd 1 (mul total_credits (of_int 10))) percentage)).

(** [pdfplumber] is a library, not code of the repository: [pdf_pages] is
    what it makes of a file, the texts of the pages ([None] for a page
    without text) or an exception. *)
Variable file : Type.
Variable pdf_pages : file -> result (list (option str)).

(** [text += page.extract_text() + "\n"] over the pages; a page without
    text makes the sum raise. *)
Fixpoint join_pages (text : str) (pages : list (option str)) : result str :=
  match pages with
  | [] => Ok text
  | Some page :: rest => join_pages (text ++ page ++ [ascii_of_nat 10]) rest
  | None :: _ => Raise TypeError
  end.

(** Whatever goes wrong is raised again as one [ValueError]. *)
Definition extract_text_from_pdf (pdf_file : file) : outcome str :=
  match (pages <- pdf_pages pdf_file ;;; join_pages [] pages) with
  | Ok text => Returns text
  | Raise _ => Raises (ValueErrorOf no_text)
  end.

(** Lines 579-648, without the log lines. *)
Definition process_semester_files (course_file result_file : file)
  : outcome (semester_result num) :=
  match extract_text_from_pdf course_file with
  | Raises f => Raises f
  | Returns course_text =>
  match extract_text_from_pdf result_file with
  | Raises f => Raises f
  | Returns result_text =>
      let '(dept_code, dept_name) := detect_department result_text course_text in
      let semester := detect_semester result_text course_text in
      match parse_result_data result_text with
      | [] => Raises (ValueErrorOf no_subjects)
      | (_ :: _) as subjects_with_grades =>
          let '(course_credits, subject_names, subject_name_map) :=
            parse_course_data course_text in
          match course_credits with
          | [] => Raises (ValueErrorOf no_credits)
          | _ :: _ =>
              match
                uncaught
                  (combine_data subjects_with_grades course_credits
                     subject_names subject_name_map)
              with
              | Raises f => Raises f
              | Returns [] => Raises (ValueErrorOf no_match)
              | Returns ((_ :: _) as combined_data) =>
                  uncaught
                    (totals <- calculate_sgpa combined_data ;;;
                     let '(sgpa, subject_points, total_credits, total_points) :=
                       totals in
                     report <-
                       generate_report subject_points sgpa total_credits
                         total_points dept_code dept_name semester ;;;
                     percentage <- percentage_of total_points total_credits ;;;
                     Ok (mk_semester_result sgpa (rep_subjects report)
                           total_credits total_points
                           (mul total_credits (of_int 10)) percentage
                           (dept_code, dept_name) semester))
              end
          end
      end
  end
  end.

End Report.

(* ===================================================================== *)
(** ** Two readings of the arithmetic *)
(* ===================================================================== *)

(** The integer nearest to [n / d], a tie going to the even one. *)
Definition round_half_even (n : Z) (d : positive) : Z :=
  let q := (n / Z.pos d)%Z in
  let r := (n mod Z.pos d)%Z in
  match (2 * r ?= Z.pos d)%Z with
  | Lt => q
  | Gt => (q + 1)%Z
  | Eq => if Z.even q then q else (q + 1)%Z
  end.

Definition pow10 (n : nat) : positive := Pos.pow 10 (Pos.of_nat n).

Definition scale10 (n : nat) : positive :=
  match n with
  | O => 1%positive
  | S _ => pow10 n
  end.

(** *** Exact rationals, kept in lowest terms *)

Definition Q_round_nd (n : nat) (x : Q) : Q :=
  Qred (round_half_even (Qnum x * Z.pos (scale10 n)) (Qden x) # scale10 n).

#[export] Instance Q_number : Number Q := {
  of_int := inject_Z;
  of_decimal := fun m k => Qred (m # scale10 k);
  add := fun x y => Qred (x + y);
  mul := fun x y => Qred (x * y);
  div := fun x y => Qred (x / y);
  num_eqb := Qeq_bool;
  num_ltb := Qlt_bool;
  num_leb := Qle_bool;
  round_nd := Q_round_nd
}.

(** *** IEEE binary64, Python's [float] *)

(** The binary64 number nearest to [n / d], a tie going to the even
    mantissa: the quotient is taken with at least three bits more than the
    format keeps and a last bit that tells whether anything was left, and
    rounded once. *)
Definition float_of_ratio (n : Z) (d : positive) : float :=
  match n with
  | Z0 => PrimFloat.zero
  | _ =>
      let a := Z.abs n in
      let s := Z.max 0 (Z.log2 (Z.pos d) - Z.log2 a + 56) in
      let q := (a * 2 ^ s / Z.pos d)%Z in
      let sticky := if (a * 2 ^ s mod Z.pos d =? 0)%Z then 0%Z else 1%Z in
      let m := (2 * q + sticky)%Z in
      SF2Prim
        (binary_normalize prec emax (if (n <? 0)%Z then (- m)%Z else m)
           (- s - 1) false)
  end.

(** An [int] where a [float] is needed, for the ints of the source (0, 10,
    100 and the grade points): the nearest binary64 number. *)
Definition float_of_Z (z : Z) : float := float_of_ratio z 1.

(** [round(x, n)] goes by the exact value of [x]: it is rounded to [n]
    decimals, ties to even, and the nearest float to that decimal is
    returned, with the sign of [x]. *)
Definition float_round_nd (n : nat) (x : float) : float :=
  match Prim2SF x with
  | S754_finite s m e =>
      let scaled :=
        if (0 <=? e)%Z
        then (Z.pos m * 2 ^ e * Z.pos (scale10 n))%Z
        else round_half_even (Z.pos m * Z.pos (scale10 n))
               (Pos.pow 2 (Z.to_pos (- e))) in
      let y := float_of_ratio scaled (scale10 n) in
      if s then PrimFloat.opp y else y
  | _ => x
  end.

#[export] Instance float_number : Number float := {
  of_int := float_of_Z;
  of_decimal := fun m k => float_of_ratio m (scale10 k);
  add := PrimFloat.add;
  mul := PrimFloat.mul;
  div := PrimFloat.div;
  num_eqb := PrimFloat.eqb;
  num_ltb := PrimFloat.ltb;
  num_leb := PrimFloat.leb;
  round_nd := float_round_nd
}.

(** The value of a finite binary64 number, counted in units of [2^-1074],
    the least positive one; [None] of an infinity and of the not-a-number. *)
Definition float_units (x : float) : option Z :=
  match Prim2SF x with
  | S754_zero _ => Some 0%Z
  | S754_finite s m e => Some (cond_Zopp s (Z.pos m * 2 ^ (e + 1074)))%Z
  | _ => None
  end.

(** [x + y] does not round: the operands and the sum are finite, and the sum
    is the sum of the operands. *)
Definition exact_add (x y : float) : bool :=
  match float_units x, float_units y, float_units (x + y) with
  | Some a, Some b, Some c => (c =? a + b)%Z
  | _, _, _ => false
  end.

Definition negative_zero (x : float) : Prop := Prim2SF x = S754_zero true.



(** *** The similarity ratio of [difflib]

    Modelled from the library's documentation: [difflib] is Python's
    standard library, not code of the repository.  [ratio()] is [2 * M / T]
    with [T] the total length and [M] the size of the matching blocks: the
    longest block common to both texts (the earliest in [a], then the
    earliest in [b]), and recursively the blocks to its left and to its
    right.  The automatic junk heuristic only acts on a second text of 200
    characters or more and is left out. *)

Fixpoint common_prefix (a b : str) : nat :=
  match a, b with
  | x :: a', y :: b' => if Ascii.eqb x y then S (common_prefix a' b') else 0
  | _, _ => 0
  end.

(** A block [(i, j, k)]: [k] characters from position [i] of [a] and [j] of
    [b]. *)
Definition block : Type := (nat * nat * nat)%type.
Definition block_size (m : block) : nat := snd m.

Fixpoint longest_at (a b : str) (i j : nat) (best : block) : block :=
  match b with
  | [] => best
  | _ :: b' =>
      let k := common_prefix a b in
      longest_at a b' i (S j) (if block_size best <? k then (i, j, k) else best)
  end.

Fixpoint find_longest_match (a b : str) (i : nat) (best : block) : block :=
  match a with
  | [] => best
  | _ :: a' => find_longest_match a' b (S i) (longest_at a b i 0 best)
  end.

Fixpoint matching_size (fuel : nat) (a b : str) : nat :=
  match fuel with
  | O => 0
  | S fuel' =>
      let '(i, j, k) := find_longest_match a b 0 (0, 0, 0) in
      if k =? 0 then 0
      else
        k + matching_size fuel' (firstn i a) (firstn j b)
          + matching_size fuel' (skipn (i + k) a) (skipn (j + k) b)
  end.

Definition difflib_ratio (a b : str) : Q :=
  match (length a + length b)%nat with
  | O => 1%Q
  | S t => Z.of_nat (2 * matching_size (S (length a)) a b) # Pos.of_succ_nat t
  end.

#[export] Instance difflib : Similarity := {| ratio := difflib_ratio |}.

(* ===================================================================== *)
(** * Properties *)
(* ===================================================================== *)

Unset Implicit Arguments.

(** ** Text *)

Lemma str_eqb_eq (a b : str) : str_eqb a b = true <-> a = b.
Proof.
  revert b; induction a as [|x a IH]; intros [|y b]; simpl; try easy.
  rewrite andb_true_iff, Ascii.eqb_eq, IH.
  split; [intros [-> ->]; reflexivity | intros E; injection E; auto].
Qed.

Lemma str_eqb_refl (a : str) : str_eqb a a = true.
Proof. apply str_eqb_eq; reflexivity. Qed.

Lemma str_eqb_neq (a b : str) : str_eqb a b = false <-> a <> b.
Proof.
  split.
  - intros E ->. rewrite str_eqb_refl in E. discriminate.
  - intros N. destruct (str_eqb a b) eqn:E; [|reflexivity].
    apply str_eqb_eq in E. contradiction.
Qed.

Lemma dropwhile_fix (p : ascii -> bool) (s : str) :
  match s with [] => True | c :: _ => p c = false end -> dropwhile p s = s.
Proof. destruct s as [|c s]; simpl; [reflexivity | intros ->; reflexivity]. Qed.

Lemma dropwhile_head (p : ascii -> bool) (s : str) :
  match dropwhile p s with [] => True | c :: _ => p c = false end.
Proof.
  induction s as [|c s IH]; simpl; [exact I|].
  destruct (p c) eqn:E; [exact IH | simpl; exact E].
Qed.

Lemma dropwhile_suffix (p : ascii -> bool) (s : str) :
  exists w, s = w ++ dropwhile p s.
Proof.
  induction s as [|c s [w IH]]; simpl; [exists []; reflexivity|].
  destruct (p c).
  - exists (c :: w). simpl. f_equal. exact IH.
  - exists []. reflexivity.
Qed.

(** A text has clean edges when it neither starts nor ends with a blank. *)
Definition clean_edges (s : str) : Prop :=
  match s with [] => True | c :: _ => is_space c = false end /\
  match rev s with [] => True | c :: _ => is_space c = false end.

Lemma strip_clean (s : str) : clean_edges s -> strip s = s.
Proof.
  intros [Hh Hl]. unfold strip.
  rewrite (dropwhile_fix is_space s Hh), (dropwhile_fix is_space (rev s) Hl).
  apply rev_involutive.
Qed.

Lemma last_head_rev (s w : str) (c : ascii) :
  rev s = w ++ c :: nil -> match s with [] => True | x :: _ => x = c end.
Proof.
  intros E. destruct s as [|x s]; [exact I|].
  simpl in E. apply app_inj_tail in E. apply E.
Qed.

Lemma strip_edges (s : str) : clean_edges (strip s).
Proof.
  unfold strip.
  pose proof (dropwhile_head is_space s) as Hu.
  set (u := dropwhile is_space s) in *.
  pose proof (dropwhile_head is_space (rev u)) as Hv.
  destruct (dropwhile_suffix is_space (rev u)) as [w Hw].
  set (v := dropwhile is_space (rev u)) in *.
  split.
  - destruct (rev v) as [|c r] eqn:Er; [exact I|].
    assert (Ev : v = rev r ++ [c]).
    { rewrite <- (rev_involutive v), Er. reflexivity. }
    rewrite Ev, app_assoc in Hw.
    apply last_head_rev in Hw.
    destruct u as [|x u']; [|subst x; exact Hu].
    simpl in Ev. unfold v in Ev. simpl in Ev. destruct (rev r); discriminate.
  - rewrite rev_involutive. exact Hv.
Qed.

Definition not_blank (c : ascii) : bool := negb (Ascii.eqb " "%char c).

Lemma replace_char_from (x : ascii) (s : str) :
  replace_from [x] [] 0 s = filter (fun c => negb (Ascii.eqb x c)) s.
Proof.
  induction s as [|c s IH]; simpl; [reflexivity|].
  destruct (Ascii.eqb x c); simpl; rewrite IH; reflexivity.
Qed.

Lemma replace_space (s : str) : replace space [] s = filter not_blank s.
Proof. apply replace_char_from. Qed.

Lemma not_blank_of_not_space (c : ascii) : is_space c = false -> not_blank c = true.
Proof.
  unfold not_blank. destruct (Ascii.eqb " "%char c) eqn:E; [|reflexivity].
  apply Ascii.eqb_eq in E. subst c. discriminate.
Qed.

Lemma filter_head_kept (s : str) :
  match s with [] => True | c :: _ => is_space c = false end ->
  match filter not_blank s with [] => True | c :: _ => is_space c = false end.
Proof.
  destruct s as [|c s]; simpl; [auto|].
  intros E. rewrite (not_blank_of_not_space c E). exact E.
Qed.

Lemma filter_clean (s : str) : clean_edges s -> clean_edges (filter not_blank s).
Proof.
  intros [Hh Hl]. split.
  - apply filter_head_kept, Hh.
  - rewrite <- filter_rev. apply filter_head_kept, Hl.
Qed.

Lemma filter_filter (f : ascii -> bool) (s : str) :
  filter f (filter f s) = filter f s.
Proof.
  induction s as [|c s IH]; simpl; [reflexivity|].
  destruct (f c) eqn:E; simpl; [rewrite E, IH|]; auto.
Qed.

(** [squeeze] leaves a text without blanks at the edges and without spaces,
    on which it changes nothing. *)
Lemma squeeze_idempotent (code : str) : squeeze (squeeze code) = squeeze code.
Proof.
  unfold squeeze. rewrite !replace_space.
  rewrite (strip_clean _ (filter_clean _ (strip_edges code))).
  apply filter_filter.
Qed.

Lemma filter_all (f : ascii -> bool) (s : str) :
  forallb f s = true -> filter f s = s.
Proof.
  induction s as [|c s IH]; simpl; [reflexivity|].
  intros E. apply andb_true_iff in E as [-> E]. rewrite (IH E). reflexivity.
Qed.

Lemma alnum_not_space (c : ascii) : is_alnum c = true -> is_space c = false.
Proof.
  unfold is_alnum, is_alpha, is_upper, is_lower, is_digit, is_space, between.
  generalize (code_of c). intros n E.
  repeat rewrite ?orb_true_iff, ?andb_true_iff, ?Nat.leb_le in E.
  repeat rewrite ?orb_false_iff, ?andb_false_iff, ?Nat.leb_gt, ?Nat.eqb_neq.
  lia.
Qed.

Lemma forallb_rev (f : ascii -> bool) (s : str) :
  forallb f (rev s) = forallb f s.
Proof.
  induction s as [|c s IH]; simpl; [reflexivity|].
  rewrite forallb_app, IH. simpl. rewrite andb_true_r. apply andb_comm.
Qed.

Lemma alnum_clean (s : str) : forallb is_alnum s = true -> clean_edges s.
Proof.
  intros E. split.
  - destruct s as [|c s]; [exact I|]. simpl in E.
    apply andb_true_iff in E as [E _]. apply alnum_not_space, E.
  - rewrite <- forallb_rev in E. destruct (rev s) as [|c r]; [exact I|].
    simpl in E. apply andb_true_iff in E as [E _]. apply alnum_not_space, E.
Qed.

Lemma squeeze_alnum (s : str) : forallb is_alnum s = true -> squeeze s = s.
Proof.
  intros E. unfold squeeze.
  rewrite (strip_clean _ (alnum_clean s E)), replace_space.
  apply filter_all. rewrite forallb_forall in *. intros c Hc.
  apply not_blank_of_not_space, alnum_not_space, E, Hc.
Qed.

(** ** The matcher *)

Lemma counts_In (g : bool) (lo m k : nat) :
  In k (counts g lo m) <-> lo <= k <= m.
Proof.
  unfold counts. destruct g; rewrite <- ?in_rev, in_seq; lia.
Qed.

Lemma span_le (p : ascii -> bool) (s : str) : span p s <= length s.
Proof.
  induction s as [|c s IH]; simpl; [lia|]. destruct (p c); simpl; lia.
Qed.

Lemma span_all (p : ascii -> bool) (s : str) :
  forallb p (firstn (span p s) s) = true.
Proof.
  induction s as [|c s IH]; simpl; [reflexivity|].
  destruct (p c) eqn:E; simpl; [rewrite E, IH|]; reflexivity.
Qed.

Lemma cap_hi_le (hi : option nat) (m : nat) : cap_hi hi m <= m.
Proof. destruct hi; simpl; lia. Qed.

Lemma forallb_firstn_le (p : ascii -> bool) (s : str) (k n : nat) :
  k <= n -> forallb p (firstn n s) = true -> forallb p (firstn k s) = true.
Proof.
  revert k n; induction s as [|c s IH]; intros k n L E.
  - rewrite firstn_nil. reflexivity.
  - destruct k; [reflexivity|]. destruct n; [lia|].
    simpl in *. apply andb_true_iff in E as [-> E]. simpl.
    apply (IH k n); [lia | exact E].
Qed.

(** No match takes more characters than there are. *)
Lemma run_bound (r : regex) :
  forall prev s m, In m (run r prev s) -> fst m <= length s.
Proof.
  induction r; intros prev s m Hm; simpl in Hm.
  - destruct Hm as [<-|[]]. simpl. lia.
  - destruct s as [|c s]; [destruct Hm|].
    destruct (p c); [|destruct Hm]. destruct Hm as [<-|[]]. simpl. lia.
  - apply in_map_iff in Hm as (k & <- & Hk). apply counts_In in Hk. simpl.
    pose proof (cap_hi_le hi (span p s)). pose proof (span_le p s). lia.
  - apply in_flat_map in Hm as (m1 & H1 & Hm).
    apply in_map_iff in Hm as (m2 & <- & H2).
    apply IHr1 in H1. apply IHr2 in H2. rewrite length_skipn in H2.
    simpl. lia.
  - apply in_app_iff in Hm as [Hm|Hm]; eauto.
  - apply in_app_iff in Hm as [Hm|[<-|[]]]; eauto. simpl. lia.
  - apply in_map_iff in Hm as (m1 & <- & H1). simpl. eauto.
  - destruct (xorb _ _); [|destruct Hm]. destruct Hm as [<-|[]]. simpl. lia.
  - destruct s as [|c [|c' s]].
    + destruct Hm as [<-|[]]. simpl. lia.
    + destruct (code_of c =? 10); [|destruct Hm].
      destruct Hm as [<-|[]]. simpl. lia.
    + destruct Hm.
Qed.

(** A pattern without [\b] and [$]. *)
Fixpoint anchor_free (r : regex) : bool :=
  match r with
  | Bnd | Eol => false
  | Cat r1 r2 | Alt r1 r2 => anchor_free r1 && anchor_free r2
  | Opt r1 | Grp r1 => anchor_free r1
  | _ => true
  end.

Lemma run_prev (r : regex) :
  anchor_free r = true -> forall p1 p2 s, run r p1 s = run r p2 s.
Proof.
  induction r; simpl; intros A p1 p2 s; try reflexivity; try discriminate.
  - apply andb_true_iff in A as [A1 A2].
    rewrite (IHr1 A1 p1 p2). apply flat_map_ext. intros m1.
    rewrite (IHr2 A2 _ (char_before p2 s (fst m1))). reflexivity.
  - apply andb_true_iff in A as [A1 A2].
    rewrite (IHr1 A1 p1 p2), (IHr2 A2 p1 p2). reflexivity.
  - rewrite (IHr A p1 p2). reflexivity.
  - rewrite (IHr A p1 p2). reflexivity.
Qed.

Lemma filter_seq_le (L n lo : nat) :
  filter (fun k => k <=? L) (seq lo n) = seq lo (Nat.min n (S L - lo)).
Proof.
  revert lo; induction n as [|n IH]; intros lo; [reflexivity|].
  cbn [seq filter]. rewrite IH. destruct (lo <=? L) eqn:E.
  - apply Nat.leb_le in E.
    replace (Nat.min (S n) (S L - lo)) with (S (Nat.min n (S L - S lo))) by lia.
    reflexivity.
  - apply Nat.leb_gt in E.
    replace (Nat.min (S n) (S L - lo)) with 0 by lia.
    replace (Nat.min n (S L - S lo)) with 0 by lia. reflexivity.
Qed.

Lemma counts_filter (g : bool) (lo M L : nat) :
  filter (fun k => k <=? L) (counts g lo M) = counts g lo (Nat.min M L).
Proof.
  unfold counts.
  assert (E : Nat.min (S M - lo) (S L - lo) = S (Nat.min M L) - lo) by lia.
  destruct g; rewrite ?filter_rev, filter_seq_le, E; reflexivity.
Qed.

Lemma span_app_min (p : ascii -> bool) (s t : str) :
  Nat.min (span p (s ++ t)) (length s) = span p s.
Proof.
  induction s as [|c s IH]; simpl; [lia|].
  destruct (p c); simpl; [rewrite IH|]; reflexivity.
Qed.

Lemma cap_hi_min (hi : option nat) (m L : nat) :
  Nat.min (cap_hi hi m) L = cap_hi hi (Nat.min m L).
Proof. destruct hi; simpl; lia. Qed.

Lemma filter_flat_map_split {A B : Type} (P : B -> bool) (Q : A -> bool)
  (g g' : A -> list B) (l : list A) :
  (forall x, In x l -> Q x = false -> filter P (g x) = []) ->
  (forall x, In x l -> Q x = true -> filter P (g x) = g' x) ->
  filter P (flat_map g l) = flat_map g' (filter Q l).
Proof.
  induction l as [|a l IH]; intros H0 H1; simpl; [reflexivity|].
  rewrite filter_app, IH.
  2: intros x Hx; apply H0; simpl; auto.
  2: intros x Hx; apply H1; simpl; auto.
  destruct (Q a) eqn:E; simpl.
  - rewrite (H1 a); simpl; auto.
  - rewrite (H0 a); simpl; auto.
Qed.

Lemma filter_none {A : Type} (P : A -> bool) (l : list A) :
  (forall x, In x l -> P x = false) -> filter P l = [].
Proof.
  induction l as [|a l IH]; intros H; simpl; [reflexivity|].
  rewrite (H a) by (simpl; auto). apply IH. intros; apply H; simpl; auto.
Qed.

Definition within (L : nat) (m : nat * list str) : bool := fst m <=? L.

(** Matching a prefix: without anchors, the matches on [s] are the matches
    on [s ++ t] that stay inside [s], in the same order. *)
Lemma run_prefix (r : regex) :
  anchor_free r = true ->
  forall prev s t,
    filter (within (length s)) (run r prev (s ++ t)) = run r prev s.
Proof.
  induction r; simpl; intros A prev s t; try discriminate.
  - reflexivity.
  - destruct s as [|c s]; simpl.
    + destruct t as [|c t]; [reflexivity|]. destruct (p c); reflexivity.
    + destruct (p c); reflexivity.
  - rewrite filter_map_swap.
    change (fun a : nat => within (length s) (a, [])) with (fun k => k <=? length s).
    rewrite counts_filter, cap_hi_min, span_app_min. reflexivity.
  - apply andb_true_iff in A as [A1 A2].
    rewrite <- (IHr1 A1 prev s t).
    apply filter_flat_map_split.
    + intros m1 _ Q. apply filter_none. intros m Hm.
      apply in_map_iff in Hm as (m2 & <- & _).
      unfold within in *. simpl. apply Nat.leb_gt in Q. apply Nat.leb_gt. lia.
    + intros m1 _ Q. unfold within in Q. apply Nat.leb_le in Q.
      rewrite filter_map_swap.
      rewrite skipn_app. replace (fst m1 - length s) with 0 by lia.
      rewrite skipn_O.
      rewrite <- (IHr2 A2 (char_before prev s (fst m1)) (skipn (fst m1) s) t).
      assert (C : char_before prev (s ++ t) (fst m1) = char_before prev s (fst m1)).
      { destruct (fst m1) as [|k]; simpl; [reflexivity|].
        apply nth_error_app1. simpl in Q. lia. }
      rewrite C. f_equal. apply filter_ext. intros m2.
      unfold within. simpl. rewrite length_skipn.
      destruct (fst m2 <=? length s - fst m1) eqn:E.
      * apply Nat.leb_le in E. apply Nat.leb_le. lia.
      * apply Nat.leb_gt in E. apply Nat.leb_gt. lia.
  - apply andb_true_iff in A as [A1 A2].
    rewrite filter_app, (IHr1 A1), (IHr2 A2). reflexivity.
  - rewrite filter_app, (IHr A). reflexivity.
  - rewrite filter_map_swap.
    change (fun a : nat * list str =>
              within (length s) (fst a, firstn (fst a) (s ++ t) :: snd a))
      with (within (length s)).
    rewrite <- (IHr A prev s t).
    apply map_ext_in. intros m Hm. apply filter_In in Hm as [_ Hm].
    unfold within in Hm. apply Nat.leb_le in Hm.
    rewrite firstn_app. replace (fst m - length s) with 0 by lia.
    simpl. rewrite app_nil_r. reflexivity.
Qed.

(** Every character class of [r] lies inside [q]. *)
Fixpoint classes_in (q : ascii -> bool) (r : regex) : Prop :=
  match r with
  | Chr p | Rep _ p _ _ => forall c, p c = true -> q c = true
  | Cat r1 r2 | Alt r1 r2 => classes_in q r1 /\ classes_in q r2
  | Opt r1 | Grp r1 => classes_in q r1
  | _ => True
  end.

Lemma firstn_plus {A : Type} (a b : nat) (l : list A) :
  firstn (a + b) l = firstn a l ++ firstn b (skipn a l).
Proof.
  revert l; induction a as [|a IH]; intros l; simpl; [reflexivity|].
  destruct l as [|x l]; simpl.
  - rewrite firstn_nil. reflexivity.
  - rewrite IH. reflexivity.
Qed.

Lemma forallb_impl (p q : ascii -> bool) (s : str) :
  (forall c, p c = true -> q c = true) ->
  forallb p s = true -> forallb q s = true.
Proof.
  intros I. rewrite !forallb_forall. auto.
Qed.

(** The text a match takes is made of characters of the pattern's classes. *)
Lemma run_chars (q : ascii -> bool) (r : regex) :
  classes_in q r ->
  forall prev s m, In m (run r prev s) -> forallb q (firstn (fst m) s) = true.
Proof.
  induction r; simpl; intros C prev s m Hm.
  - destruct Hm as [<-|[]]. reflexivity.
  - destruct s as [|c s]; [destruct Hm|]. destruct (p c) eqn:E; [|destruct Hm].
    destruct Hm as [<-|[]]. simpl. rewrite (C c E). reflexivity.
  - apply in_map_iff in Hm as (k & <- & Hk). apply counts_In in Hk. simpl.
    apply (forallb_impl p q _ C).
    apply (forallb_firstn_le p s k (span p s)).
    + pose proof (cap_hi_le hi (span p s)). lia.
    + apply span_all.
  - destruct C as [C1 C2].
    apply in_flat_map in Hm as (m1 & H1 & Hm).
    apply in_map_iff in Hm as (m2 & <- & H2). simpl.
    rewrite firstn_plus, forallb_app.
    rewrite (IHr1 C1 _ _ _ H1), (IHr2 C2 _ _ _ H2). reflexivity.
  - destruct C as [C1 C2]. apply in_app_iff in Hm as [Hm|Hm]; eauto.
  - apply in_app_iff in Hm as [Hm|[<-|[]]]; eauto.
  - apply in_map_iff in Hm as (m1 & <- & H1). simpl. eauto.
  - destruct (xorb _ _); [|destruct Hm]. destruct Hm as [<-|[]]. reflexivity.
  - destruct s as [|c [|c' s]].
    + destruct Hm as [<-|[]]. reflexivity.
    + destruct (code_of c =? 10); [|destruct Hm].
      destruct Hm as [<-|[]]. reflexivity.
    + destruct Hm.
Qed.

(** The number of capturing groups, and the least number of characters a
    match takes. *)
Fixpoint ngroups (r : regex) : nat :=
  match r with
  | Cat r1 r2 | Alt r1 r2 => ngroups r1 + ngroups r2
  | Opt r1 => ngroups r1
  | Grp r1 => S (ngroups r1)
  | _ => 0
  end.

Fixpoint min_len (r : regex) : nat :=
  match r with
  | Chr _ => 1
  | Rep _ _ lo _ => lo
  | Cat r1 r2 => min_len r1 + min_len r2
  | Alt r1 r2 => Nat.min (min_len r1) (min_len r2)
  | Grp r1 => min_len r1
  | _ => 0
  end.

(** Every group is on the path of every match and takes a character: so are
    the groups of the source's patterns. *)
Fixpoint groups_ok (r : regex) : bool :=
  match r with
  | Cat r1 r2 => groups_ok r1 && groups_ok r2
  | Alt r1 r2 => (ngroups r1 =? 0) && (ngroups r2 =? 0)
  | Opt r1 => ngroups r1 =? 0
  | Grp r1 => (1 <=? min_len r1) && groups_ok r1
  | _ => true
  end.

Lemma run_min_len (r : regex) :
  forall prev s m, In m (run r prev s) -> min_len r <= fst m.
Proof.
  induction r; simpl; intros prev s m Hm; try lia.
  - destruct s as [|c s]; [destruct Hm|]. destruct (p c); [|destruct Hm].
    destruct Hm as [<-|[]]. simpl. lia.
  - apply in_map_iff in Hm as (k & <- & Hk). apply counts_In in Hk. simpl. lia.
  - apply in_flat_map in Hm as (m1 & H1 & Hm).
    apply in_map_iff in Hm as (m2 & <- & H2).
    apply IHr1 in H1. apply IHr2 in H2. simpl. lia.
  - apply in_app_iff in Hm as [Hm|Hm]; [apply IHr1 in Hm | apply IHr2 in Hm]; lia.
  - apply in_map_iff in Hm as (m1 & <- & H1). simpl. eauto.
Qed.

Lemma run_no_groups (r : regex) :
  ngroups r = 0 -> forall prev s m, In m (run r prev s) -> snd m = [].
Proof.
  induction r; simpl; intros G prev s m Hm; try discriminate.
  - destruct Hm as [<-|[]]. reflexivity.
  - destruct s as [|c s]; [destruct Hm|]. destruct (p c); [|destruct Hm].
    destruct Hm as [<-|[]]. reflexivity.
  - apply in_map_iff in Hm as (k & <- & _). reflexivity.
  - apply in_flat_map in Hm as (m1 & H1 & Hm).
    apply in_map_iff in Hm as (m2 & <- & H2). simpl.
    rewrite (IHr1 ltac:(lia) _ _ _ H1), (IHr2 ltac:(lia) _ _ _ H2). reflexivity.
  - apply in_app_iff in Hm as [Hm|Hm];
      [apply (IHr1 ltac:(lia)) in Hm | apply (IHr2 ltac:(lia)) in Hm]; exact Hm.
  - apply in_app_iff in Hm as [Hm|[<-|[]]]; [eauto | reflexivity].
  - destruct (xorb _ _); [|destruct Hm]. destruct Hm as [<-|[]]. reflexivity.
  - destruct s as [|c [|c' s]].
    + destruct Hm as [<-|[]]. reflexivity.
    + destruct (code_of c =? 10); [|destruct Hm].
      destruct Hm as [<-|[]]. reflexivity.
    + destruct Hm.
Qed.

Definition nonempty (s : str) : Prop := s <> [].

(** A match of such a pattern has one text per group, none of them empty. *)
Lemma run_groups (r : regex) :
  groups_ok r = true ->
  forall prev s m, In m (run r prev s) ->
    length (snd m) = ngroups r /\ Forall nonempty (snd m).
Proof.
  induction r; simpl; intros G prev s m Hm.
  - destruct Hm as [<-|[]]. simpl. auto.
  - rewrite (run_no_groups (Chr p) eq_refl prev s m Hm). simpl. auto.
  - rewrite (run_no_groups (Rep greedy p lo hi) eq_refl prev s m Hm). simpl. auto.
  - apply andb_true_iff in G as [G1 G2].
    apply in_flat_map in Hm as (m1 & H1 & Hm).
    apply in_map_iff in Hm as (m2 & <- & H2). simpl.
    destruct (IHr1 G1 _ _ _ H1) as [L1 F1].
    destruct (IHr2 G2 _ _ _ H2) as [L2 F2].
    rewrite length_app, L1, L2. split; [reflexivity|].
    apply Forall_app. auto.
  - apply andb_true_iff in G as [G1 G2].
    apply Nat.eqb_eq in G1. apply Nat.eqb_eq in G2.
    rewrite G1, G2.
    apply in_app_iff in Hm as [Hm|Hm];
      [rewrite (run_no_groups r1 G1 _ _ _ Hm)
      | rewrite (run_no_groups r2 G2 _ _ _ Hm)]; simpl; auto.
  - apply Nat.eqb_eq in G. rewrite G.
    apply in_app_iff in Hm as [Hm|[<-|[]]];
      [rewrite (run_no_groups r G _ _ _ Hm)|]; simpl; auto.
  - apply andb_true_iff in G as [G1 G2].
    assert (G1' : 1 <= min_len r) by (destruct (min_len r); [discriminate | lia]).
    apply in_map_iff in Hm as (m1 & <- & H1). simpl.
    destruct (IHr G2 _ _ _ H1) as [L1 F1]. split; [congruence|].
    constructor; [|exact F1].
    pose proof (run_min_len r _ _ _ H1) as Hmin.
    pose proof (run_bound r _ _ _ H1) as Hb.
    unfold nonempty. destruct (fst m1) as [|n]; [lia|].
    destruct s as [|c s]; [simpl in Hb; lia|]. discriminate.
  - rewrite (run_no_groups Bnd eq_refl prev s m Hm). simpl. auto.
  - rewrite (run_no_groups Eol eq_refl prev s m Hm). simpl. auto.
Qed.

(** What [re.search] returns: the first match of the pattern at some
    position [k] of the text. *)
Lemma search_from_some (r : regex) :
  forall s prev i m,
    search_from r prev s i = Some m ->
    exists k n caps tl,
      k <= length s /\
      run r (char_before prev s k) (skipn k s) = (n, caps) :: tl /\
      m = mk_rmatch (i + k) (firstn n (skipn k s)) caps.
Proof.
  induction s as [|c s IH]; intros prev i m Hs; simpl in Hs.
  - destruct (run r prev []) as [|[n caps] tl] eqn:E; [discriminate|].
    injection Hs as <-. exists 0, n, caps, tl. simpl.
    rewrite Nat.add_0_r. auto.
  - destruct (run r prev (c :: s)) as [|[n caps] tl] eqn:E.
    + apply IH in Hs as (k & n & caps & tl & Hk & Hr & ->).
      exists (S k), n, caps, tl. simpl. split; [lia|]. split.
      * destruct k; simpl in *; exact Hr.
      * f_equal. lia.
    + injection Hs as <-. exists 0, n, caps, tl. simpl.
      rewrite Nat.add_0_r. split; [lia|]. auto.
Qed.

Lemma search_from_head (r : regex) (prev : option ascii) (s : str) (i n : nat)
  (caps : list str) (tl : list (nat * list str)) :
  run r prev s = (n, caps) :: tl ->
  search_from r prev s i = Some (mk_rmatch i (firstn n s) caps).
Proof.
  intros E. destruct s; simpl; rewrite E; reflexivity.
Qed.

(** A match of an anchor-free pattern, searched again in its own text, is
    found at the start and is the whole text. *)
Lemma search_match_text (r : regex) (s : str) (m : rmatch) :
  anchor_free r = true ->
  re_search r s = Some m ->
  re_search r (m_text m) = Some (mk_rmatch 0 (m_text m) (m_groups m)).
Proof.
  intros A Hs. unfold re_search in *.
  apply search_from_some in Hs as (k & n & caps & tl & Hk & Hr & ->). simpl.
  pose proof (run_bound r _ _ (n, caps) ltac:(rewrite Hr; left; reflexivity)) as Hn.
  simpl in Hn.
  set (w := firstn n (skipn k s)).
  assert (Lw : length w = n) by (apply firstn_length_le, Hn).
  pose proof (run_prefix r A None w (skipn n (skipn k s))) as P.
  unfold w in P at 2. rewrite firstn_skipn in P.
  rewrite (run_prev r A None (char_before None s k)), Hr in P.
  simpl in P. unfold within in P at 1. simpl in P. rewrite Lw, Nat.leb_refl in P.
  rewrite (search_from_head r None w 0 n caps _ (eq_sym P)).
  rewrite <- Lw at 1. rewrite firstn_all. reflexivity.
Qed.

(** ** Code normalizer *)

Lemma digit_alnum (c : ascii) : is_digit c = true -> is_alnum c = true.
Proof. unfold is_alnum. intros ->. apply orb_true_r. Qed.

Lemma alpha_alnum (c : ascii) : is_alpha c = true -> is_alnum c = true.
Proof. unfold is_alnum. intros ->. reflexivity. Qed.

Lemma normalize_classes : classes_in is_alnum re_normalize.
Proof.
  unfold re_normalize, plus. simpl.
  repeat split; auto using digit_alnum, alpha_alnum.
Qed.

Lemma search_text_chars (q : ascii -> bool) (r : regex) (s : str) (m : rmatch) :
  classes_in q r -> re_search r s = Some m -> forallb q (m_text m) = true.
Proof.
  intros C Hs. unfold re_search in Hs.
  apply search_from_some in Hs as (k & n & caps & tl & _ & Hr & ->). simpl.
  apply (run_chars q r C (char_before None s k) (skipn k s) (n, caps)).
  rewrite Hr. left. reflexivity.
Qed.

Lemma normalize_of_match (code : str) (m : rmatch) :
  re_search re_normalize (squeeze code) = Some m ->
  normalize_subject_code code = m_text m.
Proof. unfold normalize_subject_code. intros ->. reflexivity. Qed.

Lemma normalize_of_no_match (code : str) :
  re_search re_normalize (squeeze code) = None ->
  normalize_subject_code code = squeeze code.
Proof. unfold normalize_subject_code. intros ->. reflexivity. Qed.

Lemma squeeze_clean (code : str) :
  clean_edges code -> forallb not_blank code = true -> squeeze code = code.
Proof.
  intros E B. unfold squeeze.
  rewrite (strip_clean _ E), replace_space. apply filter_all, B.
Qed.

(** C6, as the code has it: [normalize_subject_code] is idempotent; when the
    pattern matches nowhere in the input once the blanks at its edges and
    all its spaces are removed, the result is that trimmed text, which is
    the input itself when the input has no such blanks. *)
Theorem normalize_idempotent (code : str) :
  normalize_subject_code (normalize_subject_code code)
    = normalize_subject_code code /\
  (re_search re_normalize (squeeze code) = None ->
   normalize_subject_code code = squeeze code) /\
  (clean_edges code -> forallb not_blank code = true ->
   re_search re_normalize code = None ->
   normalize_subject_code code = code).
Proof.
  split; [|split].
  - destruct (re_search re_normalize (squeeze code)) as [m|] eqn:Hs.
    + rewrite (normalize_of_match code _ Hs).
      pose proof (search_text_chars is_alnum _ _ _ normalize_classes Hs) as Hal.
      pose proof (search_match_text re_normalize (squeeze code) _ eq_refl Hs) as Hm.
      unfold normalize_subject_code.
      rewrite (squeeze_alnum _ Hal), Hm. reflexivity.
    + rewrite (normalize_of_no_match code Hs).
      unfold normalize_subject_code.
      rewrite squeeze_idempotent, Hs. reflexivity.
  - apply normalize_of_no_match.
  - intros E B Hs.
    rewrite <- (squeeze_clean _ E B) in Hs.
    rewrite (normalize_of_no_match code Hs). apply squeeze_clean; assumption.
Qed.

(** The pass-through case of [normalize_idempotent] on a code the pattern
    does not match. *)
Lemma normalize_idempotent_witness :
  normalize_subject_code (lit "MATHS") = lit "MATHS".
Proof.
  apply (normalize_idempotent (lit "MATHS")).
  - split; reflexivity.
  - reflexivity.
  - reflexivity.
Defined.

(** C6 as stated fails: the pattern matches nowhere in [" A"], and the
    result is ["A"], not the input. *)
Lemma normalize_not_passthrough :
  ~ (forall code : str,
       re_search re_normalize code = None -> normalize_subject_code code = code).
Proof.
  intros H. specialize (H (lit " A") eq_refl). discriminate H.
Qed.

(** *** The parts of a code *)

(** What [extract_core_code_parts] returns: four non-empty texts, or four
    [None]. *)
Definition all_or_none (p : option str * option str * option str * option str)
  : Prop :=
  (exists year dept sem type_code,
     p = (Some year, Some dept, Some sem, Some type_code) /\
     nonempty year /\ nonempty dept /\ nonempty sem /\ nonempty type_code)
  \/ p = (None, None, None, None).

Lemma search_groups (r : regex) (s : str) (m : rmatch) :
  groups_ok r = true -> re_search r s = Some m ->
  length (m_groups m) = ngroups r /\ Forall nonempty (m_groups m).
Proof.
  intros G Hs. unfold re_search in Hs.
  apply search_from_some in Hs as (k & n & caps & tl & _ & Hr & ->). simpl.
  apply (run_groups r G (char_before None s k) (skipn k s) (n, caps)).
  rewrite Hr. left. reflexivity.
Qed.

Lemma extract_all_or_none (code : str) :
  all_or_none (extract_core_code_parts code).
Proof.
  unfold extract_core_code_parts.
  destruct (re_search re_core code) as [m|] eqn:Hs; [left | right; reflexivity].
  destruct (search_groups re_core code m eq_refl Hs) as [L F].
  unfold group. destruct (m_groups m) as [|y [|d [|sm [|t [|x g]]]]];
    try discriminate L.
  inversion F as [|? ? Fy F1]; subst. inversion F1 as [|? ? Fd F2]; subst.
  inversion F2 as [|? ? Fs F3]; subst. inversion F3 as [|? ? Ft _]; subst.
  exists y, d, sm, t. simpl. auto.
Qed.

(** ** Dictionaries *)

Section DictFacts.
Context {V : Type}.
Implicit Types (d : dict V) (k : str) (v : V).

Lemma dict_get_keys d k v : dict_get d k = Some v -> In k (keys d).
Proof.
  induction d as [|[k' v'] d IH]; simpl; [discriminate|].
  destruct (str_eqb k' k) eqn:E; [|auto].
  apply str_eqb_eq in E. auto.
Qed.

Lemma keys_dict_get d k : In k (keys d) -> exists v, dict_get d k = Some v.
Proof.
  induction d as [|[k' v'] d IH]; simpl; [intros []|].
  destruct (str_eqb k' k) eqn:E; [eauto|].
  apply str_eqb_neq in E. intros [->|Hin]; [contradiction | auto].
Qed.

Lemma dict_get_In d k v : dict_get d k = Some v -> In (k, v) d.
Proof.
  induction d as [|[k' v'] d IH]; simpl; [discriminate|].
  destruct (str_eqb k' k) eqn:E; [|auto].
  apply str_eqb_eq in E. intros [= ->]. subst. auto.
Qed.

Lemma dict_mem_keys d k : dict_mem d k = true <-> In k (keys d).
Proof.
  unfold dict_mem. split.
  - destruct (dict_get d k) eqn:E; [|discriminate].
    intros _. eapply dict_get_keys, E.
  - intros Hin. destruct (keys_dict_get d k Hin) as [v ->]. reflexivity.
Qed.

Lemma dict_get_set_eq d k v : dict_get (dict_set d k v) k = Some v.
Proof.
  induction d as [|[k' v'] d IH]; simpl.
  - rewrite str_eqb_refl. reflexivity.
  - destruct (str_eqb k' k) eqn:E; simpl; rewrite E; auto.
Qed.

Lemma dict_get_set_neq d k k' v :
  k <> k' -> dict_get (dict_set d k v) k' = dict_get d k'.
Proof.
  intros N. induction d as [|[k0 v0] d IH]; simpl.
  - apply str_eqb_neq in N. rewrite N. reflexivity.
  - destruct (str_eqb k0 k) eqn:E; simpl.
    + apply str_eqb_eq in E. subst k0.
      apply str_eqb_neq in N. rewrite N. reflexivity.
    + rewrite IH. reflexivity.
Qed.

Lemma dict_set_In d k v k' v' :
  In (k', v') (dict_set d k v) -> (k' = k /\ v' = v) \/ In (k', v') d.
Proof.
  induction d as [|[k0 v0] d IH]; simpl.
  - intros [[= <- <-]|[]]. auto.
  - destruct (str_eqb k0 k) eqn:E; simpl.
    + apply str_eqb_eq in E. subst k0.
      intros [[= <- <-]|Hin]; auto.
    + intros [Heq|Hin]; [auto|]. destruct (IH Hin); auto.
Qed.

Lemma keys_dict_set d k v :
  keys (dict_set d k v) = if dict_mem d k then keys d else keys d ++ [k].
Proof.
  unfold dict_mem. induction d as [|[k0 v0] d IH]; simpl; [reflexivity|].
  destruct (str_eqb k0 k) eqn:E; simpl; [reflexivity|].
  rewrite IH. destruct (dict_get d k); reflexivity.
Qed.

Lemma keys_dict_set_incl d k v k' :
  In k' (keys d) -> In k' (keys (dict_set d k v)).
Proof.
  rewrite keys_dict_set. destruct (dict_mem d k); [auto|].
  intros Hin. apply in_or_app. auto.
Qed.

Lemma dict_item_keys d k : In k (keys d) -> exists v, dict_item d k = Ok v.
Proof.
  intros Hin. unfold dict_item.
  destruct (keys_dict_get d k Hin) as [v ->]. eauto.
Qed.

End DictFacts.

(** ** Second chance of [combine_data] *)

Lemma all_or_none_type (year dept sem type_code : option str) :
  all_or_none (year, dept, sem, type_code) ->
  sem <> None -> exists c, index0 type_code = Ok c.
Proof.
  intros [(y & d & s & t & E & _ & _ & _ & Ht)|E] Hs.
  - injection E as -> -> -> ->. destruct t as [|c t]; [contradiction Ht; reflexivity|].
    exists c. reflexivity.
  - injection E as -> -> -> ->. contradiction.
Qed.

Lemma truthy_some (o : option str) : truthy o = true -> o <> None.
Proof. destruct o; [discriminate | discriminate]. Qed.

Lemma opt_eqb_eq (a b : option str) : opt_eqb a b = true <-> a = b.
Proof.
  destruct a as [x|], b as [y|]; simpl; try easy.
  rewrite str_eqb_eq. split; [intros ->; reflexivity | intros [= ->]; reflexivity].
Qed.

(** Line 451 never fails on parts that [extract_core_code_parts] returned:
    when the semesters agree both type codes are non-empty texts. *)
Lemma same_semester_and_type_ok (code other : str) :
  let '(_, _, sem, type_code) := extract_core_code_parts code in
  let '(_, _, code_sem, code_type) := extract_core_code_parts other in
  truthy sem = true ->
  exists hit, same_semester_and_type sem type_code code_sem code_type = Ok hit.
Proof.
  pose proof (extract_all_or_none code) as A1.
  pose proof (extract_all_or_none other) as A2.
  destruct (extract_core_code_parts code) as [[[y d] sem] ty].
  destruct (extract_core_code_parts other) as [[[y2 d2] sem2] ty2].
  intros T. unfold same_semester_and_type.
  destruct (opt_eqb sem2 sem) eqn:E; [|eauto].
  destruct (opt_eqb ty ty2); [eauto|].
  apply opt_eqb_eq in E. subst sem2.
  destruct (all_or_none_type _ _ _ _ A1 (truthy_some _ T)) as [a ->].
  destruct (all_or_none_type _ _ _ _ A2 (truthy_some _ T)) as [b ->].
  simpl. eauto.
Qed.

Section CombineFacts.
Context {num : Type} `{Number num}.

Lemma semester_type_pass_ok (course_credits : dict num) (subject_names : dict str)
  (subj : unmatched) (codes : list str) (combined_data : dict (subject_data num)) :
  let '(_, _, sem, type_code) := extract_core_code_parts (u_code subj) in
  truthy sem = true ->
  (forall c, In c codes -> In c (keys course_credits)) ->
  exists cd,
    semester_type_pass course_credits subject_names subj sem type_code codes
      combined_data = Ok cd.
Proof.
  pose proof (same_semester_and_type_ok (u_code subj)) as S.
  destruct (extract_core_code_parts (u_code subj)) as [[[y d] sem] ty].
  intros T. induction codes as [|code rest IH]; intros Hin; simpl; [eauto|].
  specialize (S code).
  destruct (extract_core_code_parts code) as [[[y2 d2] sem2] ty2].
  destruct (S T) as [hit ->]. simpl.
  destruct hit.
  - destruct (dict_item_keys course_credits code (Hin code (or_introl eq_refl)))
      as [v ->]. simpl. eauto.
  - apply IH. intros c Hc. apply Hin. right. exact Hc.
Qed.

Lemma second_chance_ok (course_credits : dict num) (subject_names : dict str)
  (combined_data : dict (subject_data num)) (subj : unmatched) :
  exists cd, second_chance course_credits subject_names combined_data subj = Ok cd.
Proof.
  unfold second_chance.
  pose proof (semester_type_pass_ok course_credits subject_names subj
                (keys course_credits)
                (special_case_pass course_credits subject_names subj
                   special_cases combined_data)) as P.
  destruct (extract_core_code_parts (u_code subj)) as [[[y d] sem] ty].
  destruct (truthy sem) eqn:T; [|eauto].
  apply P; auto.
Qed.

End CombineFacts.

(** C9: [extract_core_code_parts] returns four non-empty texts or four
    [None], never a mixture; so whenever the semester it extracts is not
    [None] the type code is a non-empty text whose first character can be
    taken, and the second-chance pass of [combine_data] never raises. *)
Theorem extract_parts_all_or_none :
  (forall code, all_or_none (extract_core_code_parts code)) /\
  (forall code,
     let '(_, _, sem, type_code) := extract_core_code_parts code in
     sem <> None ->
     exists c rest, type_code = Some (c :: rest) /\ index0 type_code = Ok c) /\
  (forall (num : Type) (N : Number num) (course_credits : dict num)
          (subject_names : dict str) (combined_data : dict (subject_data num))
          (subj : unmatched),
     exists cd,
       second_chance course_credits subject_names combined_data subj = Ok cd).
Proof.
  split; [exact extract_all_or_none | split].
  - intros code. pose proof (extract_all_or_none code) as A.
    destruct (extract_core_code_parts code) as [[[y d] sem] ty].
    intros Hs.
    destruct A as [(y' & d' & s' & t' & E & _ & _ & _ & Ht)|E];
      injection E as -> -> -> ->; [|contradiction].
    destruct t' as [|c rest]; [contradiction Ht; reflexivity|].
    exists c, rest. auto.
  - intros num N. apply second_chance_ok.
Qed.

(** [extract_parts_all_or_none] on the code [23CS3CSFM]. *)
Lemma extract_parts_witness :
  exists c rest,
    snd (extract_core_code_parts (lit "23CS3CSFM")) = Some (c :: rest) /\
    index0 (snd (extract_core_code_parts (lit "23CS3CSFM"))) = Ok c.
Proof.
  pose proof (proj1 (proj2 extract_parts_all_or_none) (lit "23CS3CSFM")) as P.
  simpl in P. apply P. discriminate.
Defined.

(** ** Names with a visible character *)

Lemma split_ws_aux_nil (s cur : str) :
  split_ws_aux cur s = [] -> cur = [] /\ forallb is_space s = true.
Proof.
  revert cur; induction s as [|c s IH]; intros cur; simpl.
  - destruct cur; [auto | discriminate].
  - destruct (is_space c) eqn:E.
    + destruct cur; [|discriminate]. intros Hs.
      destruct (IH [] Hs) as [_ Hall]. auto.
    + intros Hs. destruct (IH (c :: cur) Hs) as [Hc _]. discriminate Hc.
Qed.

Lemma lower_char_space (c : ascii) : is_space (lower_char c) = is_space c.
Proof.
  destruct c as [[] [] [] [] [] [] [] []]; reflexivity.
Qed.

(** [split()[0]] exists on a non-empty name without blanks at its edges. *)
Lemma split_ws_clean (name : str) :
  clean_edges name -> name <> [] -> split_ws (lower name) <> [].
Proof.
  intros [Hh _] Hne Hs. destruct name as [|c rest]; [contradiction|].
  unfold split_ws in Hs. simpl in Hs.
  rewrite lower_char_space, Hh in Hs.
  apply split_ws_aux_nil in Hs as [Hc _]. discriminate Hc.
Qed.

(** ** Matcher *)

Lemma first_some_In {A B : Type} (f : A -> option B) (l : list A) (b : B) :
  first_some f l = Some b -> exists a, In a l /\ f a = Some b.
Proof.
  induction l as [|a l IH]; simpl; [discriminate|].
  destruct (f a) as [b'|] eqn:E.
  - intros [= <-]. exists a. auto.
  - intros Hf. destruct (IH Hf) as (a' & Hin & Ha). exists a'. auto.
Qed.

Lemma special_stage_In (subject_code name : str) (codes : list str) (c : str) :
  special_stage subject_code name codes = Some c -> In c codes.
Proof.
  unfold special_stage. intros Hf.
  apply first_some_In in Hf as (kw & _ & Hkw).
  destruct (_ || _); [|discriminate].
  apply find_some in Hkw. apply Hkw.
Qed.

Lemma name_stage_result (year sem : option str) (name : str)
  (subject_names : dict str) (codes : list str) :
  match name_stage year sem name subject_names codes with
  | Ok (Some c) => In c codes
  | Ok None => True
  | Raise e =>
      e = IndexError /\ split_ws (lower name) = [] /\ 3 < length name
  end.
Proof.
  induction codes as [|code rest IH]; simpl; [exact I|].
  destruct (extract_core_code_parts code) as [[[y2 d2] s2] t2].
  destruct (_ && (3 <? length name)) eqn:G.
  - destruct (split_ws (lower name)) as [|w ws] eqn:Ew.
    + apply andb_true_iff in G as [_ G]. apply Nat.ltb_lt in G.
      repeat split; auto.
    + destruct (contains w _); [auto|].
      destruct (name_stage year sem name subject_names rest) as [[c|]|e];
        auto.
  - destruct (name_stage year sem name subject_names rest) as [[c|]|e]; auto.
Qed.

Lemma Qlt_bool_iff (a b : Q) : Qlt_bool a b = true <-> (a < b)%Q.
Proof.
  unfold Qlt_bool. rewrite negb_true_iff. split.
  - intros E. apply Qnot_le_lt. intros L. apply Qle_bool_iff in L. congruence.
  - intros L. destruct (Qle_bool b a) eqn:E; [|reflexivity].
    apply Qle_bool_iff in E. exfalso. apply (Qlt_not_le a b); assumption.
Qed.

Lemma Qlt_bool_false (a b : Q) : Qlt_bool a b = false <-> (b <= a)%Q.
Proof.
  unfold Qlt_bool. rewrite negb_false_iff. apply Qle_bool_iff.
Qed.

Section MatcherFacts.
Context `{Similarity}.

(** The scan of the fuzzy stage looks at the codes that contain the semester
    text and at no other. *)
Lemma fuzzy_scan_candidates (n sem : str) (codes : list str)
  (best : option str) (highest : Q) :
  fuzzy_scan n sem codes best highest
    = fuzzy_scan n sem (filter (contains sem) codes) best highest.
Proof.
  revert best highest. induction codes as [|code rest IH]; intros best highest;
    simpl; [reflexivity|].
  destruct (contains sem code) eqn:E; simpl; rewrite ?E.
  - destruct (Qlt_bool highest (ratio n code)); apply IH.
  - apply IH.
Qed.

(** It ends with the largest ratio seen, never below the starting value,
    and with a candidate that has it. *)
Lemma fuzzy_scan_max (n sem : str) (codes : list str) :
  forall best highest,
    let '(best', highest') := fuzzy_scan n sem codes best highest in
    (highest <= highest')%Q /\
    (forall c, In c (filter (contains sem) codes) ->
               (ratio n c <= highest')%Q) /\
    ((best' = best /\ highest' = highest) \/
     (exists c, In c (filter (contains sem) codes) /\
                best' = Some c /\ highest' = ratio n c /\
                (highest < ratio n c)%Q)).
Proof.
  induction codes as [|code rest IH]; intros best highest; simpl.
  - split; [apply Qle_refl|]. split; [intros c []|]. auto.
  - destruct (contains sem code) eqn:E.
    + destruct (Qlt_bool highest (ratio n code)) eqn:L.
      * apply Qlt_bool_iff in L.
        specialize (IH (Some code) (ratio n code)).
        destruct (fuzzy_scan n sem rest (Some code) (ratio n code))
          as [b' h'].
        destruct IH as (I1 & I2 & I3). split; [|split].
        -- apply Qlt_le_weak. eapply Qlt_le_trans; eauto.
        -- intros c [<-|Hc]; auto.
        -- right. destruct I3 as [[-> ->]|(c & Hc & -> & -> & Hlt)].
           ++ exists code. simpl. auto.
           ++ exists c. simpl. repeat split; auto.
              eapply Qlt_trans; eauto.
      * apply Qlt_bool_false in L.
        specialize (IH best highest).
        destruct (fuzzy_scan n sem rest best highest) as [b' h'].
        destruct IH as (I1 & I2 & I3). split; [exact I1|]. split.
        -- intros c [<-|Hc]; [eapply Qle_trans; eauto | auto].
        -- destruct I3 as [?|(c & Hc & ? & ? & ?)]; [auto|].
           right. exists c. simpl. auto.
    + apply IH.
Qed.

Lemma semester_stage_In (sem : str) (codes : list str) (c : str) :
  semester_stage sem codes = Some c -> In c codes.
Proof. unfold semester_stage. intros Hf. apply find_some in Hf. apply Hf. Qed.

Lemma semester_stage_none (sem : str) (codes : list str) :
  semester_stage sem codes = None ->
  forall c, In c codes ->
    let '(_, _, sem2, _) := extract_core_code_parts c in sem2 <> Some sem.
Proof.
  unfold semester_stage. intros Hf c Hc.
  pose proof (find_none _ _ Hf c Hc) as N. simpl in N.
  destruct (extract_core_code_parts c) as [[[y d] s] t].
  intros ->. simpl in N. rewrite str_eqb_refl in N. discriminate.
Qed.

(** The fuzzy stage and the semester fallback, once the core pattern found
    nothing: the candidate of largest ratio when that ratio is above one
    half, else the fallback. *)
Lemma late_stages_spec (n year sem type_code : str) (codes : list str) :
  find (contains (year ++ sem ++ firstn 1 type_code)) codes = None ->
  (exists best,
     In best (filter (contains sem) codes) /\
     (1 # 2 < ratio n best)%Q /\
     (forall c, In c (filter (contains sem) codes) ->
                (ratio n c <= ratio n best)%Q) /\
     late_stages n year sem type_code codes = Some best)
  \/
  ((forall c, In c (filter (contains sem) codes) -> (ratio n c <= 1 # 2)%Q) /\
   late_stages n year sem type_code codes = semester_stage sem codes).
Proof.
  intros Hcore. unfold late_stages. rewrite Hcore.
  pose proof (fuzzy_scan_max n sem codes None 0%Q) as M.
  destruct (fuzzy_scan n sem codes None 0%Q) as [b h].
  destruct M as (M1 & M2 & M3).
  destruct (Qlt_bool (1 # 2) h) eqn:L.
  - apply Qlt_bool_iff in L. left.
    destruct M3 as [[-> ->]|(c & Hc & -> & -> & _)].
    + exfalso. revert L. apply Qle_not_lt. discriminate.
    + exists c. auto.
  - apply Qlt_bool_false in L. right. split; [|reflexivity].
    intros c Hc. eapply Qle_trans; [apply M2, Hc | exact L].
Qed.

Lemma late_stages_In (n year sem type_code : str) (codes : list str) (c : str) :
  late_stages n year sem type_code codes = Some c -> In c codes.
Proof.
  intros E.
  destruct (find (contains (year ++ sem ++ firstn 1 type_code)) codes)
    as [c'|] eqn:Hcore.
  - unfold late_stages in E. rewrite Hcore in E. injection E as <-.
    apply find_some in Hcore. apply Hcore.
  - destruct (late_stages_spec n year sem type_code codes Hcore)
      as [(best & Hb & _ & _ & E')|[_ E']]; rewrite E' in E.
    + injection E as <-. apply filter_In in Hb. apply Hb.
    + eapply semester_stage_In, E.
Qed.

Lemma late_stages_none (n year sem type_code : str) (codes : list str) :
  late_stages n year sem type_code codes = None ->
  semester_stage sem codes = None.
Proof.
  intros E.
  destruct (find (contains (year ++ sem ++ firstn 1 type_code)) codes)
    as [c'|] eqn:Hcore.
  - unfold late_stages in E. rewrite Hcore in E. discriminate.
  - destruct (late_stages_spec n year sem type_code codes Hcore)
      as [(best & _ & _ & _ & E')|[_ E']]; rewrite E' in E;
      [discriminate | exact E].
Qed.

End MatcherFacts.

(** *** The ratio of [difflib] lies between 0 and 1 *)

Lemma common_prefix_le (a b : str) :
  common_prefix a b <= length a /\ common_prefix a b <= length b.
Proof.
  revert b; induction a as [|x a IH]; intros [|y b]; simpl; try lia.
  destruct (Ascii.eqb x y); [|lia]. destruct (IH b). lia.
Qed.

(** A block lies inside texts of lengths [la] and [lb]. *)
Definition block_fits (la lb : nat) (m : block) : Prop :=
  let '(i, j, k) := m in i + k <= la /\ j + k <= lb.

Lemma longest_at_fits (la lb : nat) (a : str) (i : nat) :
  i + length a = la ->
  forall b j best,
    j + length b = lb -> block_fits la lb best ->
    block_fits la lb (longest_at a b i j best).
Proof.
  intros Ha. induction b as [|y b IH]; intros j best Hb Hf; simpl; [exact Hf|].
  apply IH; [simpl in Hb; lia|].
  destruct (block_size best <? common_prefix a (y :: b)); [|exact Hf].
  destruct (common_prefix_le a (y :: b)). simpl. lia.
Qed.

Lemma find_longest_match_fits (la : nat) (b : str) :
  forall a i best,
    i + length a = la -> block_fits la (length b) best ->
    block_fits la (length b) (find_longest_match a b i best).
Proof.
  induction a as [|x a IH]; intros i best Ha Hf; simpl; [exact Hf|].
  apply IH; [simpl in Ha; lia|].
  apply (longest_at_fits la (length b) (x :: a) i Ha b 0 best); auto.
Qed.

Lemma matching_size_le (fuel : nat) :
  forall a b, matching_size fuel a b <= length a /\
              matching_size fuel a b <= length b.
Proof.
  induction fuel as [|fuel IH]; intros a b; simpl; [lia|].
  pose proof (find_longest_match_fits (length a) b a 0 (0, 0, 0) eq_refl
                ltac:(simpl; lia)) as F.
  destruct (find_longest_match a b 0 (0, 0, 0)) as [[i j] k].
  simpl in F. destruct (k =? 0); [lia|].
  destruct (IH (firstn i a) (firstn j b)) as [L1 L2].
  destruct (IH (skipn (i + k) a) (skipn (j + k) b)) as [R1 R2].
  rewrite length_firstn in L1, L2. rewrite length_skipn in R1, R2. lia.
Qed.

Lemma difflib_ratio_range (a b : str) :
  (0 <= difflib_ratio a b <= 1)%Q.
Proof.
  unfold difflib_ratio.
  destruct (length a + length b) as [|t] eqn:E.
  - split; discriminate.
  - destruct (matching_size_le (S (length a)) a b) as [La Lb].
    unfold Qle. cbn [Qnum Qden]. rewrite Zpos_P_of_succ_nat. split; lia.
Qed.

(** The result code is not found by code or by name, its parts are
    [year], [dept], [sem] and [type_code], and the special-subject, the
    first-word and the core-pattern stages find nothing: the matcher is at
    its fuzzy stage. *)
Definition earlier_stages_fail {V : Type} (subject_code : str)
  (course_credits : dict V) (subject_names subject_name_map : dict str)
  (result_subject_data : result_record) (year dept sem type_code : str) : Prop :=
  dict_mem course_credits (normalize_subject_code subject_code) = false /\
  (forall c,
     dict_get subject_name_map
       (replace space [] (lower (r_name result_subject_data))) = Some c ->
     dict_mem course_credits c = false) /\
  extract_core_code_parts (normalize_subject_code subject_code)
    = (Some year, Some dept, Some sem, Some type_code) /\
  special_stage subject_code (r_name result_subject_data) (keys course_credits)
    = None /\
  name_stage (Some year) (Some sem) (r_name result_subject_data) subject_names
    (keys course_credits) = Ok None /\
  find (contains (year ++ sem ++ firstn 1 type_code)) (keys course_credits)
    = None.

Section MatcherTheorems.
Context `{Similarity} {V : Type}.
Implicit Types (course_credits : dict V) (subject_names subject_name_map : dict str).

Lemma find_matching_code_parts subject_code course_credits subject_names
  subject_name_map result_subject_data (year dept sem type_code : str) :
  dict_mem course_credits (normalize_subject_code subject_code) = false ->
  (forall c,
     dict_get subject_name_map
       (replace space [] (lower (r_name result_subject_data))) = Some c ->
     dict_mem course_credits c = false) ->
  extract_core_code_parts (normalize_subject_code subject_code)
    = (Some year, Some dept, Some sem, Some type_code) ->
  find_matching_code subject_code course_credits subject_names
    subject_name_map result_subject_data
  = match special_stage subject_code (r_name result_subject_data)
            (keys course_credits) with
    | Some code => Ok (Some code)
    | None =>
        by_first_word <-
          name_stage (Some year) (Some sem) (r_name result_subject_data)
            subject_names (keys course_credits) ;;;
        match by_first_word with
        | Some code => Ok (Some code)
        | None =>
            Ok (late_stages (normalize_subject_code subject_code) year sem
                  type_code (keys course_credits))
        end
    end.
Proof.
  intros Hn Hm He. unfold find_matching_code. rewrite Hn.
  assert (Hby :
    match dict_get subject_name_map
            (replace space [] (lower (r_name result_subject_data))) with
    | Some matching_code =>
        if dict_mem course_credits matching_code then Some matching_code
        else None
    | None => None
    end = None).
  { destruct (dict_get subject_name_map _) as [c|]; [|reflexivity].
    rewrite (Hm c eq_refl). reflexivity. }
  rewrite Hby.
  pose proof (extract_all_or_none (normalize_subject_code subject_code)) as A.
  rewrite He in *.
  destruct A as [(y & d & s & t & E & Ny & Nd & Ns & Nt)|E]; [|discriminate].
  injection E as <- <- <- <-.
  destruct year; [contradiction Ny; reflexivity|].
  destruct dept; [contradiction Nd; reflexivity|].
  destruct sem; [contradiction Ns; reflexivity|].
  destruct type_code; [contradiction Nt; reflexivity|].
  reflexivity.
Qed.

(** The three outcomes of [find_matching_code]. *)
Lemma find_matching_code_outcome subject_code course_credits subject_names
  subject_name_map result_subject_data :
  match find_matching_code subject_code course_credits subject_names
          subject_name_map result_subject_data with
  | Ok None =>
      extract_core_code_parts (normalize_subject_code subject_code)
        = (None, None, None, None)
      \/
      (exists year dept sem type_code,
         extract_core_code_parts (normalize_subject_code subject_code)
           = (Some year, Some dept, Some sem, Some type_code) /\
         forall c, In c (keys course_credits) ->
           let '(_, _, sem2, _) := extract_core_code_parts c in
           sem2 <> Some sem)
  | Ok (Some c) => In c (keys course_credits)
  | Raise e =>
      e = IndexError /\
      split_ws (lower (r_name result_subject_data)) = [] /\
      3 < length (r_name result_subject_data)
  end.
Proof.
  destruct (dict_mem course_credits (normalize_subject_code subject_code))
    eqn:Hn.
  { unfold find_matching_code. rewrite Hn. apply dict_mem_keys, Hn. }
  destruct (dict_get subject_name_map
              (replace space [] (lower (r_name result_subject_data))))
    as [mc|] eqn:Hg.
  - destruct (dict_mem course_credits mc) eqn:Hmc.
    { unfold find_matching_code. rewrite Hn, Hg, Hmc.
      apply dict_mem_keys, Hmc. }
    pose proof (extract_all_or_none (normalize_subject_code subject_code)) as A.
    destruct A as [(y & d & s & t & E & _)|E].
    + rewrite (find_matching_code_parts subject_code course_credits
                 subject_names subject_name_map result_subject_data y d s t
                 Hn ltac:(intros c Hc; rewrite Hg in Hc; injection Hc as <-; exact Hmc) E).
      destruct (special_stage _ _ _) as [c|] eqn:Hsp;
        [eapply special_stage_In, Hsp|].
      pose proof (name_stage_result (Some y) (Some s)
                    (r_name result_subject_data) subject_names
                    (keys course_credits)) as Hns.
      destruct (name_stage _ _ _ _ _) as [[c|]|e]; simpl; auto.
      destruct (late_stages _ y s t _) as [c|] eqn:Hl.
      * eapply late_stages_In, Hl.
      * right. exists y, d, s, t. split; [exact E|].
        apply semester_stage_none. eapply late_stages_none, Hl.
    + unfold find_matching_code. rewrite Hn, Hg, Hmc, E. left. reflexivity.
  - pose proof (extract_all_or_none (normalize_subject_code subject_code)) as A.
    destruct A as [(y & d & s & t & E & _)|E].
    + rewrite (find_matching_code_parts subject_code course_credits
                 subject_names subject_name_map result_subject_data y d s t
                 Hn ltac:(intros c Hc; rewrite Hg in Hc; discriminate) E).
      destruct (special_stage _ _ _) as [c|] eqn:Hsp;
        [eapply special_stage_In, Hsp|].
      pose proof (name_stage_result (Some y) (Some s)
                    (r_name result_subject_data) subject_names
                    (keys course_credits)) as Hns.
      destruct (name_stage _ _ _ _ _) as [[c|]|e]; simpl; auto.
      destruct (late_stages _ y s t _) as [c|] eqn:Hl.
      * eapply late_stages_In, Hl.
      * right. exists y, d, s, t. split; [exact E|].
        apply semester_stage_none. eapply late_stages_none, Hl.
    + unfold find_matching_code. rewrite Hn, Hg, E. left. reflexivity.
Qed.

(** C1, as the code has it: [find_matching_code] returns [None] only when
    the parts of the normalized result code cannot be extracted or no course
    code has the result code's semester, so with the parts extracted and a
    course code of that semester it does not return [None]; a code it
    returns is a key of the course index; it raises only [IndexError], on a
    name that is longer than three characters and all blank, and returns on
    every name without blanks at its edges. *)
Theorem find_matching_code_result subject_code course_credits subject_names
  subject_name_map result_subject_data :
  let outcome :=
    find_matching_code subject_code course_credits subject_names
      subject_name_map result_subject_data in
  (outcome = Ok None ->
   extract_core_code_parts (normalize_subject_code subject_code)
     = (None, None, None, None)
   \/
   exists year dept sem type_code,
     extract_core_code_parts (normalize_subject_code subject_code)
       = (Some year, Some dept, Some sem, Some type_code) /\
     forall c, In c (keys course_credits) ->
       let '(_, _, sem2, _) := extract_core_code_parts c in sem2 <> Some sem) /\
  (forall year dept sem type_code c,
     extract_core_code_parts (normalize_subject_code subject_code)
       = (Some year, Some dept, Some sem, Some type_code) ->
     In c (keys course_credits) ->
     (let '(_, _, sem2, _) := extract_core_code_parts c in sem2 = Some sem) ->
     outcome <> Ok None) /\
  (forall c, outcome = Ok (Some c) -> In c (keys course_credits)) /\
  (forall e,
     outcome = Raise e ->
     e = IndexError /\
     split_ws (lower (r_name result_subject_data)) = [] /\
     3 < length (r_name result_subject_data)) /\
  (clean_edges (r_name result_subject_data) -> exists r, outcome = Ok r).
Proof.
  intros outcome.
  pose proof (find_matching_code_outcome subject_code course_credits
                subject_names subject_name_map result_subject_data) as O.
  fold outcome in O.
  assert (Hnone : outcome = Ok None ->
            extract_core_code_parts (normalize_subject_code subject_code)
              = (None, None, None, None)
            \/
            exists year dept sem type_code,
              extract_core_code_parts (normalize_subject_code subject_code)
                = (Some year, Some dept, Some sem, Some type_code) /\
              forall c, In c (keys course_credits) ->
                let '(_, _, sem2, _) := extract_core_code_parts c in
                sem2 <> Some sem).
  { intros E. rewrite E in O. exact O. }
  split; [exact Hnone|]. split; [|split; [|split]].
  - intros year dept sem type_code c He Hc Hs E.
    destruct (Hnone E) as [E0|(y & d & s & t & E1 & Hno)].
    + rewrite He in E0. discriminate E0.
    + rewrite He in E1. injection E1 as <- <- <- <-.
      specialize (Hno c Hc).
      destruct (extract_core_code_parts c) as [[[y2 d2] s2] t2].
      contradiction.
  - intros c E. rewrite E in O. exact O.
  - intros e E. rewrite E in O. exact O.
  - intros C. destruct outcome as [r|e]; [eauto|].
    destruct O as (_ & Hs & Hl). exfalso.
    apply (split_ws_clean (r_name result_subject_data) C); [|exact Hs].
    intros E. rewrite E in Hl. simpl in Hl. lia.
Qed.

(** C7: at the fuzzy stage the candidates are the course codes that contain
    the semester text; the candidate of largest ratio is returned if and
    only if that ratio is above one half, and otherwise the result is that
    of the semester-only fallback.  The ratio of [difflib] lies in [0, 1]. *)
Theorem fuzzy_stage_threshold subject_code course_credits subject_names
  subject_name_map result_subject_data (year dept sem type_code : str) :
  earlier_stages_fail subject_code course_credits subject_names
    subject_name_map result_subject_data year dept sem type_code ->
  let normalized_code := normalize_subject_code subject_code in
  let candidates := filter (contains sem) (keys course_credits) in
  ((exists best,
      In best candidates /\
      (1 # 2 < ratio normalized_code best)%Q /\
      (forall c, In c candidates ->
                 (ratio normalized_code c <= ratio normalized_code best)%Q) /\
      find_matching_code subject_code course_credits subject_names
        subject_name_map result_subject_data = Ok (Some best))
   \/
   ((forall c, In c candidates -> (ratio normalized_code c <= 1 # 2)%Q) /\
    find_matching_code subject_code course_credits subject_names
      subject_name_map result_subject_data
    = Ok (semester_stage sem (keys course_credits)))) /\
  (forall a b, (0 <= difflib_ratio a b <= 1)%Q).
Proof.
  intros (Hn & Hm & He & Hsp & Hns & Hcore). simpl.
  split; [|exact difflib_ratio_range].
  rewrite (find_matching_code_parts subject_code course_credits subject_names
             subject_name_map result_subject_data year dept sem type_code
             Hn Hm He), Hsp, Hns.
  simpl.
  destruct (late_stages_spec (normalize_subject_code subject_code) year sem
              type_code (keys course_credits) Hcore)
    as [(best & Hb & Hhalf & Hmax & ->)|[Hle ->]].
  - left. exists best. auto.
  - right. auto.
Qed.

End MatcherTheorems.

(** ** The matcher on concrete indexes *)

Definition data_structures : result_record :=
  mk_result_record (lit "Data Structures") (lit "A") (lit "21CS3PCDS").

(** A course document of the fourth semester. *)
Definition fourth_semester_courses : str :=
  lit "Course Details
1 Operating Systems 22CS4PCOS L 4 4
Total Credits 4".

(** C1 as stated fails: the parts of [21CS3PCDS] are extracted, and against
    the index of a fourth-semester course document every stage of the
    cascade finds nothing. *)
Lemma find_matching_code_none_with_parts :
  extract_core_code_parts (normalize_subject_code (lit "21CS3PCDS"))
    = (Some (lit "21"), Some (lit "CS"), Some (lit "3"), Some (lit "PCDS")) /\
  (let '(course_credits, subject_names, subject_name_map) :=
     parse_course_data (num := Q) fourth_semester_courses in
   course_credits <> [] /\
   find_matching_code (lit "21CS3PCDS") course_credits subject_names
     subject_name_map data_structures = Ok None).
Proof.
  split; [reflexivity|]. vm_compute. split; [discriminate | reflexivity].
Qed.

(** [find_matching_code_result] where the semester-only fallback answers. *)
Lemma find_matching_code_result_witness :
  find_matching_code (lit "21CS3PCDS")
    [(lit "22CS4PCOS", 4%Z); (lit "20ME3ABXY", 3%Z)] [] [] data_structures
  <> Ok None.
Proof.
  apply (find_matching_code_result (lit "21CS3PCDS")
           [(lit "22CS4PCOS", 4%Z); (lit "20ME3ABXY", 3%Z)] [] []
           data_structures)
    with (year := lit "21") (dept := lit "CS") (sem := lit "3")
         (type_code := lit "PCDS") (c := lit "20ME3ABXY").
  - reflexivity.
  - right. left. reflexivity.
  - reflexivity.
Defined.

(** [fuzzy_stage_threshold] with [difflib]'s ratio: of the course codes only
    [22IS3XYDS] contains the semester, and its ratio to [21CS3PCDS] is
    10/18. *)
Lemma fuzzy_stage_threshold_witness :
  let course_credits := [(lit "22IS3XYDS", 4%Z); (lit "22IS4XYOS", 4%Z)] in
  let candidates := filter (contains (lit "3")) (keys course_credits) in
  ((exists best,
     In best candidates /\
     (1 # 2 < ratio (lit "21CS3PCDS") best)%Q /\
     (forall c, In c candidates ->
                (ratio (lit "21CS3PCDS") c <= ratio (lit "21CS3PCDS") best)%Q) /\
     find_matching_code (lit "21CS3PCDS") course_credits [] []
       data_structures = Ok (Some best))
  \/
  ((forall c, In c candidates -> (ratio (lit "21CS3PCDS") c <= 1 # 2)%Q) /\
   find_matching_code (lit "21CS3PCDS") course_credits [] [] data_structures
   = Ok (semester_stage (lit "3") (keys course_credits)))) /\
  (forall a b, (0 <= difflib_ratio a b <= 1)%Q).
Proof.
  apply (fuzzy_stage_threshold (lit "21CS3PCDS")
           [(lit "22IS3XYDS", 4%Z); (lit "22IS4XYOS", 4%Z)] [] []
           data_structures (lit "21") (lit "CS") (lit "3") (lit "PCDS")).
  repeat split; try reflexivity. intros c Hc. discriminate Hc.
Defined.

(** ** Grades *)

Lemma fold_left_invariant {A B : Type} (P : A -> Prop) (f : A -> B -> A)
  (l : list B) (a : A) :
  (forall a b, In b l -> P a -> P (f a b)) -> P a -> P (fold_left f l a).
Proof.
  revert a; induction l as [|b l IH]; intros a Hf Ha; simpl; [exact Ha|].
  apply IH.
  - intros a' b' Hb. apply Hf. right. exact Hb.
  - apply Hf; [left; reflexivity | exact Ha].
Qed.

Lemma fold_result_invariant {A B : Type} (P : A -> Prop)
  (f : A -> B -> result A) (l : list B) :
  (forall a b a', In b l -> P a -> f a b = Ok a' -> P a') ->
  forall a a', P a -> fold_result f l a = Ok a' -> P a'.
Proof.
  induction l as [|b l IH]; intros Hf a a' Ha; simpl.
  - intros [= <-]. exact Ha.
  - destruct (f a b) as [a1|e] eqn:E; simpl; [|discriminate].
    apply IH.
    + intros x y x' Hy. apply Hf. right. exact Hy.
    + eapply Hf; [left; reflexivity | exact Ha | exact E].
Qed.

Lemma dict_set_Forall {V : Type} (P : V -> Prop) (d : dict V) (k : str) (v : V) :
  Forall (fun e => P (snd e)) d -> P v ->
  Forall (fun e => P (snd e)) (dict_set d k v).
Proof.
  intros F Hv. apply Forall_forall. intros [k' v'] Hin.
  apply dict_set_In in Hin as [[_ ->]|Hin]; [exact Hv|].
  rewrite Forall_forall in F. apply (F (k', v') Hin).
Qed.

(** The grade of a record is a key of the grade-point table. *)
Definition graded (rec : result_record) : Prop :=
  dict_mem GRADE_POINTS (r_grade rec) = true.

(** What the result parser stores: a grade of the table, and a name that
    came out of [strip()] or is one of the fixed titles. *)
Definition parsed (rec : result_record) : Prop :=
  graded rec /\ clean_edges (r_name rec).

Definition all_parsed (subjects : dict result_record) : Prop :=
  Forall (fun e => parsed (snd e)) subjects.

Lemma store_graded_ok (subjects : dict result_record) (code name : str)
  (grade : option str) :
  clean_edges name ->
  all_parsed subjects -> all_parsed (store_graded subjects code name grade).
Proof.
  intros C F. unfold store_graded. destruct grade as [g|]; [|exact F].
  destruct (dict_mem GRADE_POINTS g) eqn:E; [|exact F].
  apply (dict_set_Forall parsed); [exact F | split; [exact E | exact C]].
Qed.

Lemma scan_subject_line_ok (lines : list str) (subject_lines : list (nat * str))
  (subjects : dict result_record) (entry : nat * str) :
  all_parsed subjects ->
  all_parsed (scan_subject_line lines subject_lines subjects entry).
Proof.
  intros F. unfold scan_subject_line. destruct entry as [line_idx line].
  destruct (re_search re_subject_code line); [|exact F].
  apply store_graded_ok; [|exact F].
  destruct (_ || _); [|apply strip_edges].
  destruct (_ && _); [|apply strip_edges].
  destruct (nth_error lines (line_idx + 1)); [|apply strip_edges].
  destruct (re_found re_subject_line _); apply strip_edges.
Qed.

Lemma scan_grades_row_ok (lines : list str) (subjects : dict result_record)
  (j : nat) :
  all_parsed subjects -> all_parsed (scan_grades_row lines subjects j).
Proof.
  intros F. unfold scan_grades_row.
  destruct (nth_error lines j); [|exact F].
  destruct (re_search re_grades_row _); [|exact F].
  apply store_graded_ok; [apply strip_edges | exact F].
Qed.

Lemma scan_grades_block_ok (lines : list str) (subjects : dict result_record)
  (entry : nat * str) :
  all_parsed subjects -> all_parsed (scan_grades_block lines subjects entry).
Proof.
  intros F. unfold scan_grades_block. destruct entry as [i line].
  destruct (_ && _); [|exact F].
  apply fold_left_invariant; [|exact F].
  intros a b _. apply scan_grades_row_ok.
Qed.

Lemma scan_special_ok (pattern : regex) (name : str)
  (subjects : dict result_record) (line : str) :
  clean_edges name ->
  all_parsed subjects -> all_parsed (scan_special pattern name subjects line).
Proof.
  intros C F. unfold scan_special.
  destruct (re_search pattern line); [|exact F].
  destruct (re_search re_grade_at_end line); [|exact F].
  apply store_graded_ok; assumption.
Qed.

Lemma scan_keyword_ok (lines : list str) (i : nat) (line : str)
  (subjects : dict result_record) (keyword : str) :
  clean_edges keyword ->
  all_parsed subjects -> all_parsed (scan_keyword lines i line subjects keyword).
Proof.
  intros C F. unfold scan_keyword.
  destruct (contains keyword line); [|exact F].
  destruct (re_search re_subject_code line); [|exact F].
  destruct (re_search re_grade_at_end line); apply store_graded_ok; assumption.
Qed.

Lemma special_titles_clean (pn : regex * str) :
  In pn special_subject_patterns -> clean_edges (snd pn).
Proof.
  intros [<-|[<-|[<-|[<-|[]]]]]; split; reflexivity.
Qed.

Lemma special_names_clean (keyword : str) :
  In keyword special_names -> clean_edges keyword.
Proof.
  intros [<-|[<-|[<-|[]]]]; split; reflexivity.
Qed.

(** Every record the result parser stores carries a grade of the table and
    a name without blanks at its edges. *)
Lemma parse_result_data_parsed (result_text : str) :
  all_parsed (parse_result_data result_text).
Proof.
  unfold parse_result_data.
  apply fold_left_invariant.
  { intros a e _ Ha. apply fold_left_invariant; [|exact Ha].
    intros a' kw Hkw. apply scan_keyword_ok, special_names_clean, Hkw. }
  apply fold_left_invariant.
  { intros a pn Hpn Ha. apply fold_left_invariant; [|exact Ha].
    intros a' line _. apply scan_special_ok, special_titles_clean, Hpn. }
  apply fold_left_invariant.
  { intros a e _. apply scan_grades_block_ok. }
  apply fold_left_invariant.
  { intros a e _. apply scan_subject_line_ok. }
  constructor.
Qed.

Lemma fold_result_ok {A B : Type} (f : A -> B -> result A) (l : list B) :
  (forall a b, In b l -> exists a', f a b = Ok a') ->
  forall a, exists a', fold_result f l a = Ok a'.
Proof.
  induction l as [|b l IH]; intros Hf a; simpl; [eauto|].
  destruct (Hf a b (or_introl eq_refl)) as [a1 ->]. simpl.
  apply IH. intros x y Hy. apply Hf. right. exact Hy.
Qed.

Section GradeFacts.
Context {num : Type} `{Number num} `{Similarity}.

(** A combined record took its grade from one of the result records and its
    grade point from the table, by [GRADE_POINTS.get(grade, 0)]. *)
Definition from_table (subjects : dict result_record) (d : subject_data num)
  : Prop :=
  d_grade_point d = dict_get_default GRADE_POINTS (d_grade d) 0%Z /\
  exists e, In e subjects /\ d_grade d = r_grade (snd e).

Definition unmatched_from (subjects : dict result_record) (u : unmatched)
  : Prop :=
  exists e, In e subjects /\ u_grade u = r_grade (snd e).

Definition combine_invariant (subjects : dict result_record)
  (acc : dict (subject_data num) * list unmatched) : Prop :=
  Forall (fun e => from_table subjects (snd e)) (fst acc) /\
  Forall (unmatched_from subjects) (snd acc).

Lemma combined_entry_from_table (subjects : dict result_record)
  (name : str) (credit : num) (e : str * result_record) :
  In e subjects ->
  from_table subjects (combined_entry name credit (r_grade (snd e))).
Proof.
  intros Hin. split; [reflexivity|]. exists e. auto.
Qed.

Lemma combine_one_invariant (subjects : dict result_record)
  (course_credits : dict num) (subject_names subject_name_map : dict str)
  (acc acc' : dict (subject_data num) * list unmatched)
  (entry : str * result_record) :
  In entry subjects ->
  combine_invariant subjects acc ->
  combine_one course_credits subject_names subject_name_map acc entry = Ok acc' ->
  combine_invariant subjects acc'.
Proof.
  intros Hin [Fc Fu]. unfold combine_one.
  destruct acc as [cd um]. destruct entry as [code rec].
  match goal with |- bind ?X _ = _ -> _ => destruct X as [[[credit|] name]|e] end;
    simpl; try discriminate.
  - intros [= <-]. split; simpl; [|exact Fu].
    apply (dict_set_Forall (from_table subjects)); [exact Fc|].
    apply (combined_entry_from_table subjects _ credit (code, rec) Hin).
  - intros [= <-]. split; simpl; [exact Fc|].
    apply Forall_app. split; [exact Fu|]. constructor; [|constructor].
    exists (code, rec). auto.
Qed.

Lemma special_case_pass_invariant (subjects : dict result_record)
  (course_credits : dict num) (subject_names : dict str) (subj : unmatched)
  (cases : list (str * regex)) (cd : dict (subject_data num)) :
  unmatched_from subjects subj ->
  Forall (fun e => from_table subjects (snd e)) cd ->
  Forall (fun e => from_table subjects (snd e))
    (special_case_pass course_credits subject_names subj cases cd).
Proof.
  intros (e & Hin & Hg) Fc.
  induction cases as [|[keyword pattern] rest IH]; simpl; [exact Fc|].
  destruct (contains keyword (u_name subj)); [|exact IH].
  destruct (filter (re_found pattern) (keys course_credits)) as [|code l];
    [exact IH|].
  destruct (dict_get course_credits code) as [credit|]; [|exact Fc].
  apply (dict_set_Forall (from_table subjects)); [exact Fc|].
  rewrite Hg. apply combined_entry_from_table, Hin.
Qed.

Lemma semester_type_pass_invariant (subjects : dict result_record)
  (course_credits : dict num) (subject_names : dict str) (subj : unmatched)
  (sem type_code : option str) (codes : list str)
  (cd cd' : dict (subject_data num)) :
  unmatched_from subjects subj ->
  Forall (fun e => from_table subjects (snd e)) cd ->
  semester_type_pass course_credits subject_names subj sem type_code codes cd
    = Ok cd' ->
  Forall (fun e => from_table subjects (snd e)) cd'.
Proof.
  intros (e & Hin & Hg) Fc.
  induction codes as [|code rest IH]; simpl.
  - intros [= <-]. exact Fc.
  - destruct (extract_core_code_parts code) as [[[y d] s] t].
    destruct (same_semester_and_type sem type_code s t) as [[|]|x]; simpl;
      try discriminate; [|exact IH].
    destruct (dict_item course_credits code) as [credit|x]; simpl;
      [|discriminate].
    intros [= <-].
    apply (dict_set_Forall (from_table subjects)); [exact Fc|].
    rewrite Hg. apply combined_entry_from_table, Hin.
Qed.

Lemma second_chance_invariant (subjects : dict result_record)
  (course_credits : dict num) (subject_names : dict str)
  (cd cd' : dict (subject_data num)) (subj : unmatched) :
  unmatched_from subjects subj ->
  Forall (fun e => from_table subjects (snd e)) cd ->
  second_chance course_credits subject_names cd subj = Ok cd' ->
  Forall (fun e => from_table subjects (snd e)) cd'.
Proof.
  intros Hu Fc. unfold second_chance.
  destruct (extract_core_code_parts (u_code subj)) as [[[y d] s] t].
  pose proof (special_case_pass_invariant subjects course_credits subject_names
                subj special_cases cd Hu Fc) as F1.
  destruct (truthy s).
  - apply semester_type_pass_invariant; assumption.
  - intros [= <-]. exact F1.
Qed.

Lemma combine_data_from_table (subjects : dict result_record)
  (course_credits : dict num) (subject_names subject_name_map : dict str)
  (cd : dict (subject_data num)) :
  combine_data subjects course_credits subject_names subject_name_map = Ok cd ->
  Forall (fun e => from_table subjects (snd e)) cd.
Proof.
  unfold combine_data.
  match goal with
  | |- bind ?X _ = _ -> _ => destruct X as [[cd1 um]|x] eqn:E1
  end; simpl; [|discriminate].
  assert (I1 : combine_invariant subjects (cd1, um)).
  { revert E1. apply fold_result_invariant.
    - intros a b a' Hb. apply combine_one_invariant, Hb.
    - split; constructor. }
  destruct I1 as [Fc Fu]. simpl in Fc, Fu.
  intros E2.
  assert (G : forall l, incl l um -> forall a a',
             Forall (fun e => from_table subjects (snd e)) a ->
             fold_result (second_chance course_credits subject_names) l a
               = Ok a' ->
             Forall (fun e => from_table subjects (snd e)) a').
  { intros l Hl. apply fold_result_invariant.
    intros a b a' Hb Ha. apply second_chance_invariant; [|exact Ha].
    rewrite Forall_forall in Fu. apply Fu, Hl, Hb. }
  exact (G um (incl_refl um) cd1 cd Fc E2).
Qed.

(** *** [combine_data] returns on what the result parser stores *)

Lemma find_matching_code_ok (subject_code : str) (course_credits : dict num)
  (subject_names subject_name_map : dict str) (rec : result_record) :
  clean_edges (r_name rec) ->
  exists r,
    find_matching_code subject_code course_credits subject_names
      subject_name_map rec = Ok r /\
    forall c, r = Some c -> In c (keys course_credits).
Proof.
  intros C.
  pose proof (find_matching_code_outcome subject_code course_credits
                subject_names subject_name_map rec) as O.
  destruct (find_matching_code _ _ _ _ _) as [[c|]|e].
  - exists (Some c). split; [reflexivity|]. intros c' [= <-]. exact O.
  - exists None. split; [reflexivity | discriminate].
  - destruct O as (_ & Hs & Hl). exfalso.
    apply (split_ws_clean (r_name rec) C); [|exact Hs].
    intros E. rewrite E in Hl. simpl in Hl. lia.
Qed.

Lemma combine_one_ok (course_credits : dict num)
  (subject_names subject_name_map : dict str)
  (acc : dict (subject_data num) * list unmatched)
  (entry : str * result_record) :
  clean_edges (r_name (snd entry)) ->
  exists acc',
    combine_one course_credits subject_names subject_name_map acc entry
      = Ok acc'.
Proof.
  intros C. unfold combine_one. destruct acc as [cd um].
  destruct entry as [code rec]. simpl in C.
  destruct (dict_get course_credits code) as [credit|]; simpl.
  { destruct (_ && _); [eauto|]. destruct (_ && _); eauto. }
  destruct (dict_get course_credits (r_normalized_code rec)) as [credit|]; simpl.
  { destruct (_ && _); [eauto|]. destruct (_ && _); eauto. }
  destruct (find_matching_code_ok code course_credits subject_names
              subject_name_map rec C) as (r & -> & Hr).
  simpl. destruct r as [[|c0 c]|]; simpl; eauto.
  destruct (dict_item_keys course_credits (c0 :: c) (Hr _ eq_refl)) as [v ->].
  simpl. destruct (_ && _); [eauto|]. destruct (_ && _); eauto.
Qed.

Lemma combine_data_ok (subjects : dict result_record)
  (course_credits : dict num) (subject_names subject_name_map : dict str) :
  all_parsed subjects ->
  exists cd,
    combine_data subjects course_credits subject_names subject_name_map = Ok cd.
Proof.
  intros P. unfold combine_data.
  destruct (fold_result_ok
              (combine_one course_credits subject_names subject_name_map)
              subjects) with (a := (@nil (str * subject_data num), @nil unmatched))
    as [[cd um] ->].
  { intros a b Hb. apply combine_one_ok.
    unfold all_parsed in P. rewrite Forall_forall in P. apply (P b Hb). }
  simpl.
  apply fold_result_ok. intros a b _. apply second_chance_ok.
Qed.

End GradeFacts.


(** ** Department aliases *)

(** The keys the alias loop stores for [code]: for every other department
    the code with the department letters replaced, and its normal form. *)
Definition alias_keys (code dept : str) : list str :=
  flat_map
    (fun alt_dept =>
       if negb (str_eqb alt_dept dept)
       then [replace dept alt_dept code;
             normalize_subject_code (replace dept alt_dept code)]
       else [])
    (keys DEPARTMENT_CODES).

(** No other code of the snapshot stores an alias on [code] or on one of the
    aliases of [code]. *)
Definition unclobbered (codes : list str) (code dept : str) : Prop :=
  forall other other_dept,
    In other codes -> other <> code -> department_of other = Some other_dept ->
    forall k, In k (alias_keys other other_dept) ->
      k <> code /\ ~ In k (alias_keys code dept).

Lemma str_eq_dec (a b : str) : {a = b} + {a <> b}.
Proof. apply list_eq_dec, ascii_dec. Qed.

Section AliasFacts.
Context {num : Type} `{Number num}.
Implicit Types (idx : course_index (num := num)).

(** Both mappings hold [k] at the values [credit] and [name]. *)
Definition holds idx (k : str) (credit : num) (name : str) : Prop :=
  dict_get (fst idx) k = Some credit /\ dict_get (snd idx) k = Some name.

(** Both mappings are at [k] what they were. *)
Definition same_at idx idx' (k : str) : Prop :=
  dict_get (fst idx') k = dict_get (fst idx) k /\
  dict_get (snd idx') k = dict_get (snd idx) k.

Definition step_keys (code dept alt_dept : str) : list str :=
  if negb (str_eqb alt_dept dept)
  then [replace dept alt_dept code;
        normalize_subject_code (replace dept alt_dept code)]
  else [].

Lemma alias_step_spec (code dept : str) (credit : num) (name : str) idx
  (alt_dept k : str) :
  (In k (step_keys code dept alt_dept) ->
   holds (alias_step code dept credit name idx alt_dept) k credit name) /\
  (~ In k (step_keys code dept alt_dept) ->
   same_at idx (alias_step code dept credit name idx alt_dept) k).
Proof.
  unfold alias_step, step_keys, holds, same_at.
  destruct (negb (str_eqb alt_dept dept)); simpl.
  - set (a := replace dept alt_dept code).
    set (n := normalize_subject_code a).
    split.
    + intros [<-|[<-|[]]].
      * destruct (str_eq_dec n a) as [E|N].
        -- rewrite E, !dict_get_set_eq. auto.
        -- rewrite !(dict_get_set_neq _ n a _ N), !dict_get_set_eq. auto.
      * rewrite !dict_get_set_eq. auto.
    + intros N.
      assert (Na : a <> k) by (intros E; apply N; auto).
      assert (Nn : n <> k) by (intros E; apply N; auto).
      rewrite !(dict_get_set_neq _ n k _ Nn), !(dict_get_set_neq _ a k _ Na).
      auto.
  - split; [intros [] | auto].
Qed.

Lemma alias_fold_spec (code dept : str) (credit : num) (name : str)
  (alts : list str) :
  forall idx k,
    let idx' := fold_left (alias_step code dept credit name) alts idx in
    (In k (flat_map (step_keys code dept) alts) -> holds idx' k credit name) /\
    (~ In k (flat_map (step_keys code dept) alts) -> same_at idx idx' k).
Proof.
  induction alts as [|a rest IH]; intros idx k; simpl.
  - split; [intros [] | intros _; split; reflexivity].
  - destruct (IH (alias_step code dept credit name idx a) k) as [I1 I2].
    destruct (alias_step_spec code dept credit name idx a k) as [S1 S2].
    destruct (in_dec str_eq_dec k (flat_map (step_keys code dept) rest))
      as [Hr|Hr].
    + split; [intros _; apply I1, Hr|].
      intros N. exfalso. apply N. apply in_or_app. auto.
    + destruct (I2 Hr) as [E1 E2]. split.
      * intros Hin. apply in_app_or in Hin as [Ha|Hin]; [|contradiction].
        destruct (S1 Ha) as [F1 F2]. unfold holds. rewrite E1, E2. auto.
      * intros N.
        assert (Na : ~ In k (step_keys code dept a)).
        { intros Ha. apply N. apply in_or_app. auto. }
        destruct (S2 Na) as [F1 F2]. unfold same_at.
        rewrite E1, E2. auto.
Qed.

Lemma alias_keys_steps (code dept : str) :
  alias_keys code dept = flat_map (step_keys code dept) (keys DEPARTMENT_CODES).
Proof. reflexivity. Qed.

(** One round of the alias loop: the aliases of [code] get its credit and
    its name, every other key is left alone. *)
Lemma alias_code_spec idx (code dept : str) (credit : num) (k : str) :
  department_of code = Some dept ->
  dict_get (fst idx) code = Some credit ->
  (In k (alias_keys code dept) ->
   holds (alias_code idx code) k credit (dict_get_default (snd idx) code [])) /\
  (~ In k (alias_keys code dept) -> same_at idx (alias_code idx code) k).
Proof.
  intros Hd Hc. unfold alias_code. rewrite Hd, Hc. rewrite alias_keys_steps.
  apply alias_fold_spec.
Qed.

Lemma alias_code_other idx (code k : str) :
  (forall dept, department_of code = Some dept -> ~ In k (alias_keys code dept)) ->
  same_at idx (alias_code idx code) k.
Proof.
  intros N. unfold alias_code.
  destruct (department_of code) as [dept|] eqn:Hd; [|split; reflexivity].
  destruct (dict_get (fst idx) code) as [credit|] eqn:Hc; [|split; reflexivity].
  apply (alias_fold_spec code dept credit _ (keys DEPARTMENT_CODES) idx k).
  exact (N dept eq_refl).
Qed.

Lemma alias_step_keys (code dept : str) (credit : num) (name : str) idx
  (alt_dept k : str) :
  In k (keys (fst idx)) /\ In k (keys (snd idx)) ->
  In k (keys (fst (alias_step code dept credit name idx alt_dept))) /\
  In k (keys (snd (alias_step code dept credit name idx alt_dept))).
Proof.
  intros [K1 K2]. unfold alias_step.
  destruct (negb (str_eqb alt_dept dept)); simpl; [|auto].
  split; apply keys_dict_set_incl, keys_dict_set_incl; assumption.
Qed.

(** The alias loop only adds keys. *)
Lemma alias_code_keys idx (code k : str) :
  In k (keys (fst idx)) /\ In k (keys (snd idx)) ->
  In k (keys (fst (alias_code idx code))) /\
  In k (keys (snd (alias_code idx code))).
Proof.
  intros K. unfold alias_code.
  destruct (department_of code) as [dept|]; [|exact K].
  destruct (dict_get (fst idx) code) as [credit|]; [|exact K].
  apply fold_left_invariant; [|exact K].
  intros a b _. apply alias_step_keys.
Qed.

Lemma holds_keys idx (k : str) (credit : num) (name : str) :
  holds idx k credit name -> In k (keys (fst idx)) /\ In k (keys (snd idx)).
Proof.
  intros [H1 H2]. split; eapply dict_get_keys; eassumption.
Qed.

Lemma alias_loop_keys (codes : list str) (k : str) :
  forall idx,
    In k (keys (fst idx)) /\ In k (keys (snd idx)) ->
    In k (keys (fst (fold_left alias_code codes idx))) /\
    In k (keys (snd (fold_left alias_code codes idx))).
Proof.
  induction codes as [|c rest IH]; intros idx K; simpl; [exact K|].
  apply IH, alias_code_keys, K.
Qed.

(** Every alias of a code of the snapshot is a key of both mappings after
    the alias loop. *)
Lemma alias_loop_present (code dept : str) (codes : list str) :
  department_of code = Some dept ->
  forall idx,
    In code codes ->
    In code (keys (fst idx)) /\ In code (keys (snd idx)) ->
    forall k, In k (alias_keys code dept) ->
      In k (keys (fst (fold_left alias_code codes idx))) /\
      In k (keys (snd (fold_left alias_code codes idx))).
Proof.
  intros Hd. induction codes as [|c rest IH]; intros idx Hin K k Hk;
    [destruct Hin|].
  simpl. destruct (str_eq_dec c code) as [->|Nc].
  - apply alias_loop_keys.
    destruct (keys_dict_get (fst idx) code (proj1 K)) as [credit Hc].
    eapply holds_keys.
    apply (alias_code_spec idx code dept credit k Hd Hc), Hk.
  - destruct Hin as [->|Hin]; [contradiction Nc; reflexivity|].
    apply IH; [exact Hin | apply alias_code_keys, K | exact Hk].
Qed.

(** Where no other code clobbers them, [code] keeps its credit and its name
    through the alias loop, and so do its aliases from the round of [code]
    on. *)
Lemma alias_loop_values (code dept : str) (credit : num) (name : str)
  (codes : list str) :
  department_of code = Some dept ->
  forall idx,
    unclobbered codes code dept ->
    dict_get (fst idx) code = Some credit ->
    dict_get_default (snd idx) code [] = name ->
    let idx' := fold_left alias_code codes idx in
    dict_get (fst idx') code = Some credit /\
    dict_get_default (snd idx') code [] = name /\
    (In code codes \/
     (forall k, In k (alias_keys code dept) -> holds idx k credit name) ->
     forall k, In k (alias_keys code dept) -> holds idx' k credit name).
Proof.
  intros Hd. induction codes as [|c rest IH]; intros idx U Hc Hn; simpl.
  - split; [exact Hc|]. split; [exact Hn|]. intros [[]|Hh]. exact Hh.
  - assert (U' : unclobbered rest code dept).
    { intros o od Ho. apply U. right. exact Ho. }
    destruct (str_eq_dec c code) as [->|Nc].
    + assert (Hh : forall k, In k (alias_keys code dept) ->
                holds (alias_code idx code) k credit name).
      { intros k Hk. rewrite <- Hn.
        apply (alias_code_spec idx code dept credit k Hd Hc), Hk. }
      assert (Hself : dict_get (fst (alias_code idx code)) code = Some credit /\
                      dict_get_default (snd (alias_code idx code)) code [] = name).
      { destruct (in_dec str_eq_dec code (alias_keys code dept)) as [Hs|Hs].
        - destruct (Hh code Hs) as [E1 E2]. split; [exact E1|].
          unfold dict_get_default. rewrite E2. reflexivity.
        - destruct (proj2 (alias_code_spec idx code dept credit code Hd Hc) Hs)
            as [E1 E2].
          split; [rewrite E1; exact Hc|].
          unfold dict_get_default. rewrite E2. exact Hn. }
      destruct Hself as [S1 S2].
      destruct (IH (alias_code idx code) U' S1 S2) as (I1 & I2 & I3).
      split; [exact I1|]. split; [exact I2|]. intros _. apply I3. right. exact Hh.
    + assert (Hother : forall k, k = code \/ In k (alias_keys code dept) ->
                same_at idx (alias_code idx c) k).
      { intros k Hk. apply alias_code_other. intros od Hod Hin.
        destruct (U c od (or_introl eq_refl) Nc Hod k Hin) as [N1 N2].
        destruct Hk as [->|Hk]; contradiction. }
      destruct (Hother code (or_introl eq_refl)) as [E1 E2].
      assert (S1 : dict_get (fst (alias_code idx c)) code = Some credit)
        by (rewrite E1; exact Hc).
      assert (S2 : dict_get_default (snd (alias_code idx c)) code [] = name)
        by (unfold dict_get_default; rewrite E2; exact Hn).
      destruct (IH (alias_code idx c) U' S1 S2) as (I1 & I2 & I3).
      split; [exact I1|]. split; [exact I2|].
      intros [[->|Hin]|Hh]; [contradiction Nc; reflexivity | apply I3; auto |].
      apply I3. right. intros k Hk.
      destruct (Hother k (or_intror Hk)) as [F1 F2].
      destruct (Hh k Hk) as [G1 G2]. split; congruence.
Qed.

End AliasFacts.

Section CourseFacts.
Context {num : Type} `{Number num}.
Implicit Types (idx : course_index (num := num)).

(** The two mappings of the course parser have the same keys. *)
Definition same_keys idx : Prop :=
  forall k, dict_mem (fst idx) k = dict_mem (snd idx) k.

Lemma dict_mem_set {V : Type} (d : dict V) (k k' : str) (v : V) :
  dict_mem (dict_set d k v) k' = str_eqb k k' || dict_mem d k'.
Proof.
  unfold dict_mem. destruct (str_eqb k k') eqn:E; simpl.
  - apply str_eqb_eq in E. subst k'. rewrite dict_get_set_eq. reflexivity.
  - apply str_eqb_neq in E. rewrite (dict_get_set_neq d k k' v E). reflexivity.
Qed.

Lemma store_course_same_keys idx (code name : str) (credit : num) :
  same_keys idx -> same_keys (store_course idx code name credit).
Proof.
  intros S k. unfold store_course. simpl. rewrite !dict_mem_set, (S k).
  reflexivity.
Qed.

Lemma scan_course_row_same_keys (patterns : list regex) (line : str) idx :
  same_keys idx -> same_keys (scan_course_row patterns line idx).
Proof.
  intros S. induction patterns as [|p rest IH]; simpl; [exact S|].
  destruct (re_search p line); [apply store_course_same_keys, S | exact IH].
Qed.

Lemma parse_course_rows_same_keys (course_text : str) :
  same_keys (parse_course_rows course_text).
Proof.
  unfold parse_course_rows.
  apply fold_left_invariant.
  { intros a p _ Ha. apply fold_left_invariant; [|exact Ha].
    intros a' line _ Ha'. unfold scan_special_course.
    destruct (re_search p line); [|exact Ha'].
    destruct (re_search re_credit_at_end line); [|exact Ha'].
    apply store_course_same_keys, Ha'. }
  apply (fold_left_invariant (fun st => same_keys (snd st))).
  - intros [flag idx] line _ S. unfold scan_course_line. simpl in S.
    destruct (_ || _); [exact S|].
    destruct (flag && _); [exact S|].
    destruct flag; [|exact S].
    exact (scan_course_row_same_keys course_patterns line idx S).
  - intros k. reflexivity.
Qed.

Lemma alias_key_In (code dept alt_dept : str) :
  In alt_dept (keys DEPARTMENT_CODES) -> alt_dept <> dept ->
  In (replace dept alt_dept code) (alias_keys code dept).
Proof.
  intros Hin Hne. unfold alias_keys. apply in_flat_map. exists alt_dept.
  split; [exact Hin|]. apply str_eqb_neq in Hne. rewrite Hne. simpl. auto.
Qed.

End CourseFacts.

(** C4, as the code has it: after [parse_course_data], for every accepted
    course code whose year, department and semester are extracted and for
    every other known department, the code with the department letters
    replaced is a key of the credits and of the names; it carries the credit
    and the name of the accepted code, and the accepted code keeps them,
    provided no other accepted code stores an alias on this code or on one
    of its aliases (a later store wins). *)
Theorem aliases_of_accepted_code (num : Type) (N : Number num)
  (course_text code dept : str) (credit : num) :
  dict_get (fst (parse_course_rows course_text)) code = Some credit ->
  department_of code = Some dept ->
  let accepted := parse_course_rows course_text in
  let course_credits := fst (fst (parse_course_data course_text)) in
  let subject_names := snd (fst (parse_course_data course_text)) in
  exists name,
    dict_get (snd accepted) code = Some name /\
    forall alt_dept,
      In alt_dept (keys DEPARTMENT_CODES) -> alt_dept <> dept ->
      let alias := replace dept alt_dept code in
      In alias (keys course_credits) /\
      In alias (keys subject_names) /\
      (unclobbered (keys (fst accepted)) code dept ->
       dict_get course_credits alias = Some credit /\
       dict_get subject_names alias = Some name /\
       dict_get course_credits code = Some credit /\
       dict_get subject_names code = Some name).
Proof.
  intros Hc Hd. simpl.
  set (idx0 := parse_course_rows course_text) in *.
  pose proof (parse_course_rows_same_keys course_text) as S.
  fold idx0 in S.
  assert (Hk1 : In code (keys (fst idx0))) by (eapply dict_get_keys, Hc).
  assert (Hk2 : In code (keys (snd idx0))).
  { apply dict_mem_keys. rewrite <- (S code). apply dict_mem_keys, Hk1. }
  destruct (keys_dict_get (snd idx0) code Hk2) as [name Hn].
  exists name. split; [exact Hn|].
  intros alt_dept Hin Hne.
  pose proof (alias_key_In code dept alt_dept Hin Hne) as Ha.
  unfold parse_course_data, generate_aliases. simpl. fold idx0.
  destruct (alias_loop_present code dept (keys (fst idx0)) Hd idx0 Hk1
              (conj Hk1 Hk2) _ Ha) as [P1 P2].
  split; [exact P1|]. split; [exact P2|].
  intros U.
  assert (Hdef : dict_get_default (snd idx0) code [] = name)
    by (unfold dict_get_default; rewrite Hn; reflexivity).
  destruct (alias_loop_values code dept credit name (keys (fst idx0)) Hd idx0 U
              Hc Hdef) as (V1 & V2 & V3).
  destruct (V3 (or_introl Hk1) _ Ha) as [A1 A2].
  split; [exact A1|]. split; [exact A2|]. split; [exact V1|].
  destruct (alias_loop_keys (keys (fst idx0)) code idx0 (conj Hk1 Hk2))
    as [_ K2].
  destruct (keys_dict_get _ code K2) as [n' Hn'].
  rewrite Hn'. unfold dict_get_default in V2. rewrite Hn' in V2.
  rewrite V2. reflexivity.
Qed.

(** A course document with one course of four credits. *)
Definition management_courses : str :=
  lit "Course Details
1 Fundamentals of Management 23CS3CSFM L 4 4
Total Credits 4".

(** [aliases_of_accepted_code] on that document: its one course is aliased
    to every other department with credit 4 and its name. *)
Lemma aliases_of_accepted_code_witness :
  exists name,
    dict_get (snd (parse_course_rows (num := Q) management_courses))
      (lit "23CS3CSFM") = Some name /\
    forall alt_dept,
      In alt_dept (keys DEPARTMENT_CODES) -> alt_dept <> lit "CS" ->
      dict_get (fst (fst (parse_course_data (num := Q) management_courses)))
        (replace (lit "CS") alt_dept (lit "23CS3CSFM")) = Some 4%Q /\
      dict_get (snd (fst (parse_course_data (num := Q) management_courses)))
        (replace (lit "CS") alt_dept (lit "23CS3CSFM")) = Some name.
Proof.
  destruct (aliases_of_accepted_code Q Q_number management_courses
              (lit "23CS3CSFM") (lit "CS") 4%Q)
    as [name [Hn Ha]]; [vm_compute; reflexivity | vm_compute; reflexivity |].
  exists name. split; [exact Hn|].
  intros alt_dept Hin Hne.
  destruct (Ha alt_dept Hin Hne) as (_ & _ & V).
  destruct V as (V1 & V2 & _); [|auto].
  intros other other_dept Ho Hneq. exfalso.
  vm_compute in Ho. destruct Ho as [E|[]]. apply Hneq. symmetry. exact E.
Defined.

(** A course document in which two courses of one department differ in
    their type letters, one of them being [ES], itself a department code. *)
Definition clashing_courses : str :=
  lit "Course Details
1 Programming 23CS3ESPOP L 3 3
2 Paradigms 23CS3CSPOP L 4 4
Total Credits 7".

(** C4 as stated fails: [23CS3ESPOP] is accepted with credit 3 and name
    Programming and keeps them, but its alias for department [ES] carries
    credit 4 and the name Paradigms, stored by the round of [23CS3CSPOP]. *)
Lemma alias_with_other_credit :
  let accepted := parse_course_rows (num := Q) clashing_courses in
  let course_credits := fst (fst (parse_course_data (num := Q) clashing_courses)) in
  let subject_names := snd (fst (parse_course_data (num := Q) clashing_courses)) in
  dict_get (fst accepted) (lit "23CS3ESPOP") = Some 3%Q /\
  dict_get (snd accepted) (lit "23CS3ESPOP") = Some (lit "Programming") /\
  department_of (lit "23CS3ESPOP") = Some (lit "CS") /\
  In (lit "ES") (keys DEPARTMENT_CODES) /\
  replace (lit "CS") (lit "ES") (lit "23CS3ESPOP") = lit "23ES3ESPOP" /\
  dict_get course_credits (lit "23CS3ESPOP") = Some 3%Q /\
  dict_get subject_names (lit "23CS3ESPOP") = Some (lit "Programming") /\
  dict_get course_credits (lit "23ES3ESPOP") = Some 4%Q /\
  dict_get subject_names (lit "23ES3ESPOP") = Some (lit "Paradigms").
Proof.
  vm_compute. repeat split; auto 10.
Qed.

(* ===================================================================== *)
(** ** Aggregator *)
(* ===================================================================== *)

(** What the aggregator's guards rely on in the order of numbers: how the
    comparisons with 0 relate, and that adding a number that is not negative
    does not lower a sum.  [Q_laws] shows them of exact rationals. *)
Class NumberLaws (num : Type) `{Number num} : Prop := {
  zero_eq_zero : num_eqb (of_int 0) (of_int 0) = true;
  zero_le_zero : num_leb (of_int 0) (of_int 0) = true;
  above_zero_nonzero :
    forall x, num_leb x (of_int 0) = false -> num_eqb x (of_int 0) = false;
  zero_lt_nonzero :
    forall x, num_ltb (of_int 0) x = true -> num_eqb x (of_int 0) = false;
  zero_not_lt :
    forall x, num_eqb x (of_int 0) = true -> num_ltb (of_int 0) x = false;
  add_nonneg :
    forall x y,
      num_leb (of_int 0) x = true -> num_leb (of_int 0) y = true ->
      num_leb (of_int 0) (add x y) = true /\ num_leb x (add x y) = true;
  add_positive :
    forall x y,
      num_leb (of_int 0) x = true -> num_leb (of_int 0) y = true ->
      num_eqb y (of_int 0) = false ->
      num_leb (add x y) (of_int 0) = false;
  times_ten_nonzero :
    forall x,
      num_ltb (of_int 0) x = true ->
      num_eqb (mul x (of_int 10)) (of_int 0) = false
}.

Lemma Qeq_bool_false (x y : Q) : Qeq_bool x y = false <-> ~ (x == y)%Q.
Proof.
  split.
  - intros E Hq. apply Qeq_bool_iff in Hq. congruence.
  - intros N. destruct (Qeq_bool x y) eqn:E; [|reflexivity].
    apply Qeq_bool_iff in E. contradiction.
Qed.

Lemma Qle_bool_false (x y : Q) : Qle_bool x y = false <-> (y < x)%Q.
Proof.
  split.
  - intros E. apply Qnot_le_lt. intros L. apply Qle_bool_iff in L. congruence.
  - intros L. destruct (Qle_bool x y) eqn:E; [|reflexivity].
    apply Qle_bool_iff in E. lra.
Qed.

#[export] Instance Q_laws : NumberLaws Q.
Proof.
  constructor; cbv [of_int add mul num_eqb num_ltb num_leb Q_number].
  - reflexivity.
  - reflexivity.
  - intros x E. apply Qle_bool_false in E. apply Qeq_bool_false.
    change (inject_Z 0) with 0%Q in *. lra.
  - intros x E. apply Qlt_bool_iff in E. apply Qeq_bool_false.
    change (inject_Z 0) with 0%Q in *. lra.
  - intros x E. apply Qeq_bool_iff in E. apply Qlt_bool_false.
    change (inject_Z 0) with 0%Q in *. lra.
  - intros x y Hx Hy. apply Qle_bool_iff in Hx, Hy.
    change (inject_Z 0) with 0%Q in *.
    split; apply Qle_bool_iff; rewrite Qred_correct; lra.
  - intros x y Hx Hy Ny. apply Qle_bool_iff in Hx, Hy.
    apply Qeq_bool_false in Ny. apply Qle_bool_false.
    change (inject_Z 0) with 0%Q in *. rewrite Qred_correct. lra.
  - intros x E. apply Qlt_bool_iff in E. apply Qeq_bool_false.
    change (inject_Z 0) with 0%Q in *. change (inject_Z 10) with 10%Q.
    rewrite Qred_correct. lra.
Qed.

(** Sums of exact rationals do not depend on the order of the terms. *)
Lemma Q_add_swap (x a b : Q) :
  add (add x a) b = add (add x b) a.
Proof.
  cbv [add Q_number]. apply Qred_complete. rewrite !Qred_correct. ring.
Qed.

Section SgpaFacts.
Context {num : Type} `{Number num}.
Implicit Types (subjects : dict (subject_data num)) (st : sgpa_state (num := num)).

(** A subject enters the totals: it has a credit, and the credit is not 0. *)
Definition counted (entry : str * subject_data num) : bool :=
  match d_credit (snd entry) with
  | Some credit => negb (num_eqb credit (of_int 0))
  | None => false
  end.

(** The credits that are present are not negative. *)
Definition nonneg_credits subjects : Prop :=
  forall entry credit,
    In entry subjects -> d_credit (snd entry) = Some credit ->
    num_leb (of_int 0) credit = true.

Lemma sgpa_step_skipped st entry : counted entry = false -> sgpa_step st entry = st.
Proof.
  unfold counted, sgpa_step. destruct entry as [code data]. simpl.
  destruct (d_credit data) as [credit|]; [|reflexivity].
  destruct (num_eqb credit (of_int 0)); [reflexivity | discriminate].
Qed.

Lemma sgpa_fold_filter subjects :
  forall st,
    fold_left sgpa_step subjects st
      = fold_left sgpa_step (filter counted subjects) st.
Proof.
  induction subjects as [|e rest IH]; intros st; simpl; [reflexivity|].
  destruct (counted e) eqn:E; simpl; [apply IH|].
  rewrite (sgpa_step_skipped st e E). apply IH.
Qed.

Lemma sgpa_step_code st entry :
  counted entry = true ->
  map (@p_code num) (subject_points (sgpa_step st entry))
    = map (@p_code num) (subject_points st) ++ [fst entry].
Proof.
  unfold counted, sgpa_step. destruct entry as [code data]. simpl.
  destruct (d_credit data) as [credit|]; [|discriminate].
  destruct (num_eqb credit (of_int 0)); [discriminate|].
  intros _. simpl. rewrite map_app. reflexivity.
Qed.

Lemma sgpa_fold_codes subjects :
  forall st,
    map (@p_code num) (subject_points (fold_left sgpa_step subjects st))
      = map (@p_code num) (subject_points st) ++ keys (filter counted subjects).
Proof.
  induction subjects as [|e rest IH]; intros st; simpl.
  - rewrite app_nil_r. reflexivity.
  - rewrite IH. destruct (counted e) eqn:E.
    + rewrite (sgpa_step_code st e E), <- app_assoc. reflexivity.
    + rewrite (sgpa_step_skipped st e E). reflexivity.
Qed.

Context `{!NumberLaws num}.

(** With a counted subject behind it, the running total is above 0. *)
Lemma sgpa_fold_positive subjects :
  nonneg_credits subjects ->
  forall st,
    num_leb (of_int 0) (total_credits st) = true ->
    let st' := fold_left sgpa_step subjects st in
    num_leb (of_int 0) (total_credits st') = true /\
    (num_leb (total_credits st) (of_int 0) = false \/
     filter counted subjects <> [] ->
     num_leb (total_credits st') (of_int 0) = false).
Proof.
  induction subjects as [|e rest IH]; intros NN st Hst; simpl.
  - split; [exact Hst|]. intros [E|E]; [exact E | contradiction E; reflexivity].
  - assert (NN' : nonneg_credits rest).
    { intros x c Hx. apply NN. right. exact Hx. }
    destruct (counted e) eqn:E.
    + unfold counted in E. destruct e as [code data]. simpl in E.
      destruct (d_credit data) as [credit|] eqn:Ec; [|discriminate].
      apply negb_true_iff in E.
      pose proof (NN (code, data) credit (or_introl eq_refl) Ec) as Hc.
      destruct (add_nonneg (total_credits st) credit Hst Hc) as [A1 _].
      pose proof (add_positive (total_credits st) credit Hst Hc E) as A2.
      assert (Es : total_credits (sgpa_step st (code, data))
                   = add (total_credits st) credit).
      { unfold sgpa_step. rewrite Ec, E. reflexivity. }
      destruct (IH NN' (sgpa_step st (code, data))) as [I1 I2].
      { rewrite Es. exact A1. }
      split; [exact I1|]. intros _. apply I2. left. rewrite Es. exact A2.
    + rewrite (sgpa_step_skipped st e E).
      destruct (IH NN' st Hst) as [I1 I2]. split; [exact I1 | exact I2].
Qed.

Lemma calculate_sgpa_total subjects :
  exists r, calculate_sgpa subjects = Ok r.
Proof.
  unfold calculate_sgpa.
  destruct (num_leb (total_credits (sgpa_loop subjects)) (of_int 0)) eqn:E;
    [eauto|].
  unfold py_div. rewrite (above_zero_nonzero _ E). simpl. eauto.
Qed.

End SgpaFacts.

(** C2: [calculate_sgpa] skips the subjects without a credit or with credit
    0: they enter neither the totals nor the list.  With credits that are
    not negative, it returns [(0, [], 0, 0)] when the total of the counted
    credits is 0, as on the empty mapping, and otherwise the quotient of
    weighted sum and total credits rounded to 2 decimals; the division is
    never reached with a zero divisor. *)
Theorem calculate_sgpa_spec (num : Type) (N : Number num) (L : NumberLaws num)
  (subjects : dict (subject_data num)) :
  nonneg_credits subjects ->
  let st := sgpa_loop subjects in
  sgpa_loop subjects = sgpa_loop (filter counted subjects) /\
  map (@p_code num) (subject_points st) = keys (filter counted subjects) /\
  calculate_sgpa (@nil (str * subject_data num))
    = Ok (of_int 0, [], of_int 0, of_int 0) /\
  (num_eqb (total_credits st) (of_int 0) = true ->
   calculate_sgpa subjects = Ok (of_int 0, [], of_int 0, of_int 0)) /\
  (num_eqb (total_credits st) (of_int 0) = false ->
   calculate_sgpa subjects
   = Ok (round_nd 2 (div (weighted_sum st) (total_credits st)),
         subject_points st, total_credits st, weighted_sum st)) /\
  (exists r, calculate_sgpa subjects = Ok r).
Proof.
  intros NN st.
  assert (Hfilter : sgpa_loop subjects = sgpa_loop (filter counted subjects))
    by apply sgpa_fold_filter.
  assert (Hempty : calculate_sgpa (@nil (str * subject_data num))
                   = Ok (of_int 0, [], of_int 0, of_int 0)).
  { unfold calculate_sgpa, sgpa_loop. simpl. rewrite zero_le_zero. reflexivity. }
  destruct (sgpa_fold_positive subjects NN
              (mk_sgpa_state (of_int 0) (of_int 0) []) zero_le_zero)
    as [Pos1 Pos2].
  fold (sgpa_loop subjects) in Pos1, Pos2. fold st in Pos1, Pos2.
  split; [exact Hfilter|]. split.
  { unfold st, sgpa_loop. rewrite sgpa_fold_codes. reflexivity. }
  split; [exact Hempty|]. split; [|split].
  - intros Ez.
    destruct (filter counted subjects) as [|e l] eqn:Ef.
    + unfold calculate_sgpa. rewrite Hfilter. exact Hempty.
    + exfalso.
      assert (Hpos : num_leb (total_credits st) (of_int 0) = false)
        by (apply Pos2; right; discriminate).
      rewrite (above_zero_nonzero _ Hpos) in Ez. discriminate.
  - intros Ez.
    assert (Hne : filter counted subjects <> []).
    { intros Ef. unfold st in Ez. rewrite Hfilter, Ef in Ez.
      unfold sgpa_loop in Ez. simpl in Ez. rewrite zero_eq_zero in Ez.
      discriminate. }
    assert (Hpos : num_leb (total_credits st) (of_int 0) = false)
      by (apply Pos2; right; exact Hne).
    unfold calculate_sgpa. fold st. rewrite Hpos.
    unfold py_div. rewrite Ez. reflexivity.
  - apply calculate_sgpa_total.
Qed.

(** Two counted subjects, credits 4 and 3 with grades A and O, and an audit
    course of credit 0. *)
Definition three_subjects : dict (subject_data Q) :=
  [ (lit "23CS3PCDST",
     mk_subject_data (lit "Data Structures") (Some 4%Q) (lit "A") 8%Z 32%Q);
    (lit "23CS3AEPHY",
     mk_subject_data (lit "Physical Activity") (Some 0%Q) (lit "P") 4%Z 0%Q);
    (lit "23CS3PCOOJ",
     mk_subject_data (lit "Object Oriented Java") (Some 3%Q) (lit "O") 10%Z 30%Q) ].

(** [calculate_sgpa_spec] on them: 62 / 7 rounds to 8.86. *)
Lemma calculate_sgpa_spec_witness :
  map (@p_code Q) (subject_points (sgpa_loop three_subjects))
    = [lit "23CS3PCDST"; lit "23CS3PCOOJ"] /\
  calculate_sgpa three_subjects
  = Ok (443 # 50, subject_points (sgpa_loop three_subjects), 7%Q, 62%Q).
Proof.
  assert (NN : nonneg_credits three_subjects).
  { intros entry credit [<-|[<-|[<-|[]]]] [= <-]; reflexivity. }
  destruct (calculate_sgpa_spec Q Q_number Q_laws three_subjects NN)
    as (_ & Hcodes & _ & _ & Hsgpa & _).
  split; [exact Hcodes|]. apply Hsgpa. reflexivity.
Defined.

(** *** The order of the subjects in exact arithmetic *)

Section SgpaOrder.
Context {num : Type} `{Number num}.
Implicit Types (st : sgpa_state (num := num)).

(** Sums do not depend on the order of their terms: so it is with exact
    rationals ([Q_add_swap]), and not with binary64, whose sums round. *)
Hypothesis add_swap : forall x a b : num, add (add x a) b = add (add x b) a.

(** Two loop states with the same totals and the same subjects listed. *)
Definition same_totals st st' : Prop :=
  total_credits st = total_credits st' /\
  weighted_sum st = weighted_sum st' /\
  Permutation (subject_points st) (subject_points st').

Lemma same_totals_trans st1 st2 st3 :
  same_totals st1 st2 -> same_totals st2 st3 -> same_totals st1 st3.
Proof.
  intros (A1 & A2 & A3) (B1 & B2 & B3). repeat split; try congruence.
  eapply Permutation_trans; eassumption.
Qed.

Lemma sgpa_step_same st st' entry :
  same_totals st st' ->
  same_totals (sgpa_step st entry) (sgpa_step st' entry).
Proof.
  intros (A1 & A2 & A3). unfold sgpa_step. destruct entry as [code data].
  destruct (d_credit data) as [credit|]; [|repeat split; assumption].
  destruct (num_eqb credit (of_int 0)); [repeat split; assumption|].
  repeat split; simpl; try congruence.
  apply Permutation_app_tail, A3.
Qed.

Lemma sgpa_step_swap st x y :
  same_totals (sgpa_step (sgpa_step st x) y) (sgpa_step (sgpa_step st y) x).
Proof.
  unfold sgpa_step. destruct x as [cx dx], y as [cy dy].
  destruct (d_credit dx) as [a|], (d_credit dy) as [b|];
    try (repeat split; reflexivity).
  destruct (num_eqb a (of_int 0)), (num_eqb b (of_int 0));
    try (repeat split; reflexivity).
  repeat split; simpl; try apply add_swap.
  rewrite <- !app_assoc. apply Permutation_app_head.
  apply (Permutation_app_comm [_] [_]).
Qed.

Lemma sgpa_fold_same (l : dict (subject_data num)) :
  forall st st',
    same_totals st st' ->
    same_totals (fold_left sgpa_step l st) (fold_left sgpa_step l st').
Proof.
  induction l as [|e l IH]; intros st st' S; simpl; [exact S|].
  apply IH, sgpa_step_same, S.
Qed.

Lemma sgpa_fold_permutation (l l' : dict (subject_data num)) :
  Permutation l l' ->
  forall st,
    same_totals (fold_left sgpa_step l st) (fold_left sgpa_step l' st).
Proof.
  induction 1 as [|e l l' P IH|x y l|l1 l2 l3 P1 IH1 P2 IH2]; intros st; simpl.
  - repeat split; reflexivity.
  - apply IH.
  - apply sgpa_fold_same, sgpa_step_swap.
  - eapply same_totals_trans; [apply IH1 | apply IH2].
Qed.

End SgpaOrder.

(** *** The order of the subjects on binary64

    Python adds the credits as binary64 numbers, in the order of the
    mapping.  A sum that does not round is the exact sum, and exact sums do
    not depend on the order. *)

Lemma digits2_size (m : positive) : digits2_pos m = Pos.size m.
Proof. induction m; simpl; congruence. Qed.

Lemma digits2_log2 (m : positive) :
  Z.pos (digits2_pos m) = (Z.log2 (Z.pos m) + 1)%Z.
Proof.
  rewrite digits2_size. destruct m; simpl; try reflexivity; lia.
Qed.

(** What [valid_binary] says of a finite number. *)
Lemma bounded_exponent (m : positive) (e : Z) :
  bounded prec emax m e = true ->
  e = Z.max (Z.log2 (Z.pos m) + 1 + e - 53) (-1074).
Proof.
  unfold bounded, canonical_mantissa, fexp, SpecFloat.emin, prec, emax.
  intros B. apply andb_true_iff in B as [B _]. apply Z.eqb_eq in B.
  rewrite digits2_log2 in B. lia.
Qed.

(** Two finite numbers of the same value are the same number. *)
Lemma canonical_unique (m1 m2 : positive) (e1 e2 : Z) :
  bounded prec emax m1 e1 = true -> bounded prec emax m2 e2 = true ->
  (Z.pos m1 * 2 ^ (e1 + 1074) = Z.pos m2 * 2 ^ (e2 + 1074))%Z ->
  m1 = m2 /\ e1 = e2.
Proof.
  intros B1 B2 E.
  apply bounded_exponent in B1, B2.
  assert (H1 : (0 <= e1 + 1074)%Z) by lia.
  assert (H2 : (0 <= e2 + 1074)%Z) by lia.
  assert (L : (Z.log2 (Z.pos m1) + (e1 + 1074)
               = Z.log2 (Z.pos m2) + (e2 + 1074))%Z).
  { rewrite <- !(Z.add_comm (_ + 1074)%Z).
    rewrite <- !Z.log2_mul_pow2 by lia. rewrite E. reflexivity. }
  assert (Ee : e1 = e2) by lia. subst e2. split; [|reflexivity].
  apply Z.mul_cancel_r in E; [congruence|].
  apply Z.pow_nonzero; lia.
Qed.

Lemma units_positive (m : positive) (e : Z) :
  bounded prec emax m e = true -> (0 < Z.pos m * 2 ^ (e + 1074))%Z.
Proof.
  intros B. apply bounded_exponent in B.
  apply Z.mul_pos_pos; [lia | apply Z.pow_pos_nonneg; lia].
Qed.

Lemma float_units_inj (x y : float) (u : Z) :
  ~ negative_zero x -> ~ negative_zero y ->
  float_units x = Some u -> float_units y = Some u -> x = y.
Proof.
  unfold negative_zero, float_units. intros Nx Ny Ux Uy.
  apply Prim2SF_inj.
  pose proof (Prim2SF_valid x) as Vx. pose proof (Prim2SF_valid y) as Vy.
  destruct (Prim2SF x) as [sx|sx| |sx mx ex], (Prim2SF y) as [sy|sy| |sy my ey];
    try discriminate.
  - destruct sx, sy; try reflexivity; contradiction.
  - exfalso. pose proof (units_positive my ey Vy) as P.
    assert (E : cond_Zopp sy (Z.pos my * 2 ^ (ey + 1074)) = 0%Z) by congruence.
    destruct sy; unfold cond_Zopp in E; lia.
  - exfalso. pose proof (units_positive mx ex Vx) as P.
    assert (E : cond_Zopp sx (Z.pos mx * 2 ^ (ex + 1074)) = 0%Z) by congruence.
    destruct sx; unfold cond_Zopp in E; lia.
  - pose proof (units_positive mx ex Vx) as Px.
    pose proof (units_positive my ey Vy) as Py.
    assert (E : cond_Zopp sx (Z.pos mx * 2 ^ (ex + 1074))
                = cond_Zopp sy (Z.pos my * 2 ^ (ey + 1074))) by congruence.
    assert (Es : sx = sy).
    { destruct sx, sy; unfold cond_Zopp in E; try reflexivity; lia. }
    subst sy.
    assert (Em : (Z.pos mx * 2 ^ (ex + 1074) = Z.pos my * 2 ^ (ey + 1074))%Z).
    { destruct sx; unfold cond_Zopp in E; lia. }
    destruct (canonical_unique mx my ex ey Vx Vy Em) as [-> ->]. reflexivity.
Qed.

Lemma iter_xO_value (m d : positive) :
  Z.pos (Pos.iter xO m d) = (Z.pos m * 2 ^ Z.pos d)%Z.
Proof.
  induction d as [|d IH] using Pos.peano_ind.
  - change (Z.pos m~0 = Z.pos m * 2)%Z. lia.
  - rewrite Pos.iter_succ, Pos2Z.inj_succ, Z.pow_succ_r by lia.
    rewrite Pos2Z.inj_xO, IH. lia.
Qed.

(** Aligning a mantissa to a smaller exponent keeps the value. *)
Lemma shl_align_value (mx : positive) (ex ez : Z) :
  (ez <= ex)%Z -> (0 <= ez + 1074)%Z ->
  (Z.pos (fst (shl_align mx ex ez)) * 2 ^ (ez + 1074)
   = Z.pos mx * 2 ^ (ex + 1074))%Z.
Proof.
  intros L N. unfold shl_align. destruct (ez - ex)%Z as [|d|d] eqn:E.
  - replace ex with ez by lia. reflexivity.
  - lia.
  - cbn [fst]. rewrite iter_xO_value.
    replace (ex + 1074)%Z with (Z.pos d + (ez + 1074))%Z by lia.
    rewrite (Z.pow_add_r 2 (Z.pos d) (ez + 1074)) by lia. ring.
Qed.

Lemma cond_Zopp_mul (s : bool) (a b : Z) :
  (cond_Zopp s a * b = cond_Zopp s (a * b))%Z.
Proof. destruct s; unfold cond_Zopp; lia. Qed.

(** An exact sum with a left operand that is not the negative zero is not
    the negative zero either. *)
Lemma exact_add_sign (x y : float) :
  ~ negative_zero x -> exact_add x y = true -> ~ negative_zero (x + y).
Proof.
  unfold negative_zero, exact_add, float_units. rewrite FloatAxioms.add_spec.
  pose proof (Prim2SF_valid x) as Vx. pose proof (Prim2SF_valid y) as Vy.
  intros Nx.
  destruct (Prim2SF x) as [sx|sx| |sx mx ex]; try discriminate.
  - destruct sx; [contradiction Nx; reflexivity|].
    destruct (Prim2SF y) as [sy|sy| |sy my ey]; try discriminate.
    destruct sy; discriminate.
  - destruct (Prim2SF y) as [sy|sy| |sy my ey]; try discriminate.
    intros E Hz. unfold SF64add, SFadd in E, Hz. rewrite Hz in E.
    apply Z.eqb_eq in E. symmetry in E.
    simpl in Vx, Vy.
    pose proof (bounded_exponent _ _ Vx) as Bx.
    pose proof (bounded_exponent _ _ Vy) as By.
    set (ez := Z.min ex ey) in *.
    pose proof (shl_align_value mx ex ez ltac:(lia) ltac:(lia)) as Ax.
    pose proof (shl_align_value my ey ez ltac:(lia) ltac:(lia)) as Ay.
    set (A := Z.pos (fst (shl_align mx ex ez))) in *.
    set (B := Z.pos (fst (shl_align my ey ez))) in *.
    assert (M : (cond_Zopp sx A + cond_Zopp sy B = 0)%Z).
    { rewrite <- Ax, <- Ay, <- !cond_Zopp_mul, <- Z.mul_add_distr_r in E.
      apply Z.mul_eq_0 in E as [E|E]; [exact E|].
      exfalso. revert E. apply Z.pow_nonzero; lia. }
    rewrite M in Hz. discriminate Hz.
Qed.

(** An exact sum adds the values. *)
Lemma exact_add_units (x y : float) :
  exact_add x y = true ->
  exists a b,
    float_units x = Some a /\ float_units y = Some b /\
    float_units (x + y) = Some (a + b)%Z.
Proof.
  unfold exact_add.
  destruct (float_units x) as [a|]; [|discriminate].
  destruct (float_units y) as [b|]; [|discriminate].
  destruct (float_units (x + y)) as [c|]; [|discriminate].
  intros E. apply Z.eqb_eq in E. subst c. exists a, b. auto.
Qed.

Definition sgpa_start : sgpa_state (num := float) :=
  mk_sgpa_state (of_int 0) (of_int 0) [].

(** What a subject adds to the two totals. *)
Definition added (entry : str * subject_data float) : option (float * float) :=
  match d_credit (snd entry) with
  | Some credit =>
      if num_eqb credit (of_int 0) then None
      else
        Some (credit,
              mul credit
                (of_int (dict_get_default GRADE_POINTS (d_grade (snd entry)) 0%Z)))
  | None => None
  end.

(** No addition of the loop rounds, from the state [st] on. *)
Fixpoint exact_sums (st : sgpa_state (num := float))
  (subjects : dict (subject_data float)) : bool :=
  match subjects with
  | [] => true
  | entry :: rest =>
      match added entry with
      | Some (credit, weighted_point) =>
          exact_add (total_credits st) credit
          && exact_add (weighted_sum st) weighted_point
      | None => true
      end
      && exact_sums (sgpa_step st entry) rest
  end.

Definition exact_run (subjects : dict (subject_data float)) : bool :=
  exact_sums sgpa_start subjects.

Definition units_or_zero (x : float) : Z :=
  match float_units x with
  | Some u => u
  | None => 0
  end.

Definition added_units (entry : str * subject_data float) : Z * Z :=
  match added entry with
  | Some (credit, weighted_point) =>
      (units_or_zero credit, units_or_zero weighted_point)
  | None => (0, 0)%Z
  end.

Definition sum_units (l : list Z) : Z := fold_right Z.add 0%Z l.

Lemma sum_units_permutation (l l' : list Z) :
  Permutation l l' -> sum_units l = sum_units l'.
Proof.
  induction 1; simpl; lia.
Qed.

(** A state whose totals are finite, not the negative zero, and of the
    values [a] and [b]. *)
Definition totals_are (st : sgpa_state (num := float)) (a b : Z) : Prop :=
  float_units (total_credits st) = Some a /\
  float_units (weighted_sum st) = Some b /\
  ~ negative_zero (total_credits st) /\ ~ negative_zero (weighted_sum st).

Lemma sgpa_step_added (st : sgpa_state (num := float))
  (entry : str * subject_data float) :
  match added entry with
  | Some (credit, weighted_point) =>
      total_credits (sgpa_step st entry) = add (total_credits st) credit /\
      weighted_sum (sgpa_step st entry) = add (weighted_sum st) weighted_point
  | None => sgpa_step st entry = st
  end.
Proof.
  unfold added, sgpa_step. destruct entry as [code data]. cbn [snd].
  destruct (d_credit data) as [credit|]; [|reflexivity].
  destruct (num_eqb credit (of_int 0)); [reflexivity|]. split; reflexivity.
Qed.

Lemma exact_sums_totals (subjects : dict (subject_data float)) :
  forall st a b,
    totals_are st a b ->
    exact_sums st subjects = true ->
    totals_are (fold_left sgpa_step subjects st)
      (a + sum_units (map (fun e => fst (added_units e)) subjects))
      (b + sum_units (map (fun e => snd (added_units e)) subjects)).
Proof.
  induction subjects as [|entry rest IH]; intros st a b T E.
  - simpl. rewrite !Z.add_0_r. exact T.
  - cbn [exact_sums] in E. apply andb_true_iff in E as [E1 E2].
    cbn [fold_left map sum_units fold_right].
    fold (sum_units (map (fun e => fst (added_units e)) rest)).
    fold (sum_units (map (fun e => snd (added_units e)) rest)).
    rewrite !Z.add_assoc. apply IH; [|exact E2].
    pose proof (sgpa_step_added st entry) as S.
    unfold added_units. destruct (added entry) as [[credit weighted_point]|].
    + destruct S as [S1 S2]. destruct T as (Ta & Tb & Na & Nb).
      apply andb_true_iff in E1 as [Ec Ew].
      destruct (exact_add_units _ _ Ec) as (a' & c & Ua & Uc & Usum).
      destruct (exact_add_units _ _ Ew) as (b' & w & Ub & Uw & Uwsum).
      assert (a' = a) by congruence. assert (b' = b) by congruence.
      subst a' b'. unfold units_or_zero. rewrite Uc, Uw. cbn [fst snd].
      repeat split.
      * rewrite S1. exact Usum.
      * rewrite S2. exact Uwsum.
      * rewrite S1. apply exact_add_sign; assumption.
      * rewrite S2. apply exact_add_sign; assumption.
    + rewrite S. cbn [fst snd]. rewrite !Z.add_0_r. exact T.
Qed.

Lemma sgpa_start_totals : totals_are sgpa_start 0 0.
Proof.
  repeat split; try discriminate.
Qed.

(** The list of the subjects that count, whatever the arithmetic. *)
Lemma sgpa_fold_points {num : Type} `{Number num}
  (subjects : dict (subject_data num)) :
  forall st,
    Permutation
      (subject_points (fold_left sgpa_step subjects st))
      (subject_points st
         ++ flat_map (fun e => subject_points
                                 (sgpa_step (mk_sgpa_state (of_int 0) (of_int 0) []) e))
              subjects).
Proof.
  induction subjects as [|[code data] rest IH]; intros st; simpl.
  - rewrite app_nil_r. reflexivity.
  - rewrite IH. rewrite app_assoc. apply Permutation_app_tail.
    unfold sgpa_step. destruct (d_credit data) as [credit|]; simpl.
    + destruct (num_eqb credit (of_int 0)); simpl;
        [rewrite app_nil_r|]; reflexivity.
    + rewrite app_nil_r. reflexivity.
Qed.

Lemma flat_map_permutation {A B : Type} (f : A -> list B) (l l' : list A) :
  Permutation l l' -> Permutation (flat_map f l) (flat_map f l').
Proof.
  induction 1; simpl.
  - reflexivity.
  - apply Permutation_app_head. assumption.
  - rewrite !app_assoc. apply Permutation_app_tail, Permutation_app_comm.
  - eapply Permutation_trans; eassumption.
Qed.

(** On binary64 a total above 0 is not 0: the division is reached with a
    divisor that is not 0. *)
Lemma float_above_zero (x : float) :
  num_leb x (of_int 0) = false -> num_eqb x (of_int 0) = false.
Proof.
  cbn [num_leb num_eqb float_number].
  rewrite FloatAxioms.leb_spec, FloatAxioms.eqb_spec. unfold SFleb, SFeqb.
  destruct (SFcompare _ _) as [[| |]|]; congruence.
Qed.

(** C8, as the code has it: where no addition of the two running totals
    rounds, in the order given and in the new one, reordering the subjects
    gives the same sgpa, total credits and weighted sum on binary64, and the
    same subjects in the list; [calculate_sgpa] returns in both orders. *)
Theorem calculate_sgpa_permutation (subjects subjects' : dict (subject_data float)) :
  Permutation subjects subjects' ->
  exact_run subjects = true -> exact_run subjects' = true ->
  exists sgpa points points' credits weighted,
    calculate_sgpa subjects = Ok (sgpa, points, credits, weighted) /\
    calculate_sgpa subjects' = Ok (sgpa, points', credits, weighted) /\
    Permutation points points'.
Proof.
  intros P E E'.
  pose proof (exact_sums_totals subjects sgpa_start 0 0 sgpa_start_totals E)
    as (Tc & Tw & Nc & Nw).
  pose proof (exact_sums_totals subjects' sgpa_start 0 0 sgpa_start_totals E')
    as (Tc' & Tw' & Nc' & Nw').
  rewrite <- (sum_units_permutation _ _
                (Permutation_map (fun e => fst (added_units e)) P)) in Tc'.
  rewrite <- (sum_units_permutation _ _
                (Permutation_map (fun e => snd (added_units e)) P)) in Tw'.
  pose proof (float_units_inj _ _ _ Nc Nc' Tc Tc') as Ec.
  pose proof (float_units_inj _ _ _ Nw Nw' Tw Tw') as Ew.
  assert (Pp : Permutation (subject_points (fold_left sgpa_step subjects sgpa_start))
                 (subject_points (fold_left sgpa_step subjects' sgpa_start))).
  { rewrite (sgpa_fold_points subjects), (sgpa_fold_points subjects').
    apply Permutation_app_head, flat_map_permutation, P. }
  unfold calculate_sgpa, sgpa_loop. fold sgpa_start. cbv zeta.
  rewrite <- Ec, <- Ew.
  destruct (num_leb (total_credits (fold_left sgpa_step subjects sgpa_start))
              (of_int 0)) eqn:L.
  - do 5 eexists. split; [reflexivity|]. split; [reflexivity|]. exact Pp.
  - unfold py_div. rewrite (float_above_zero _ L). cbn [bind].
    do 5 eexists. split; [reflexivity|]. split; [reflexivity|]. exact Pp.
Qed.

Definition whole_and_half_credits : dict (subject_data float) :=
  [ (lit "23CS3PCDST",
     mk_subject_data (lit "Data Structures") (Some (float_of (lit "4")))
       (lit "A") 8%Z (of_int 0));
    (lit "23CS3PCOOJ",
     mk_subject_data (lit "Object Oriented Java") (Some (float_of (lit "3")))
       (lit "O") 10%Z (of_int 0));
    (lit "23CS3PCLAB",
     mk_subject_data (lit "Laboratory") (Some (float_of (lit "1.5")))
       (lit "B+") 7%Z (of_int 0)) ].

(** [calculate_sgpa_permutation] on credits 4, 3 and 1.5 and their reverse
    order: no sum rounds. *)
Lemma calculate_sgpa_permutation_witness :
  exists sgpa points points' credits weighted,
    calculate_sgpa whole_and_half_credits
      = Ok (sgpa, points, credits, weighted) /\
    calculate_sgpa (rev whole_and_half_credits)
      = Ok (sgpa, points', credits, weighted) /\
    Permutation points points'.
Proof.
  apply (calculate_sgpa_permutation whole_and_half_credits
           (rev whole_and_half_credits)).
  - apply Permutation_rev.
  - vm_compute. reflexivity.
  - vm_compute. reflexivity.
Defined.

(** Three subjects with the credits 0.1, 0.2 and 0.3 a course document can
    state, as the course parser reads them into binary64. *)
Definition tenth_credits : dict (subject_data float) :=
  [ (lit "23CS3AEONE",
     mk_subject_data (lit "One") (Some (float_of (lit "0.1"))) (lit "A") 8%Z
       (of_int 0));
    (lit "23CS3AETWO",
     mk_subject_data (lit "Two") (Some (float_of (lit "0.2"))) (lit "O") 10%Z
       (of_int 0));
    (lit "23CS3AETRI",
     mk_subject_data (lit "Three") (Some (float_of (lit "0.3"))) (lit "O") 10%Z
       (of_int 0)) ].

(** [total_credits] of what [calculate_sgpa] returns. *)
Definition returned_credits {num : Type}
  (r : result (num * list (subject_point num) * num * num)) : option num :=
  match r with
  | Ok (_, _, credits, _) => Some credits
  | Raise _ => None
  end.

(** C8 as stated fails on Python's floats: binary64 addition is not
    associative, and the three subjects in reverse order give another
    [total_credits] ((0.1 + 0.2) + 0.3 against (0.3 + 0.2) + 0.1). *)
Lemma float_total_depends_on_order :
  Permutation tenth_credits (rev tenth_credits) /\
  exists credits credits',
    returned_credits (calculate_sgpa tenth_credits) = Some credits /\
    returned_credits (calculate_sgpa (rev tenth_credits)) = Some credits' /\
    PrimFloat.eqb credits credits' = false /\
    Prim2SF credits = S754_finite false 5404319552844596 (-53) /\
    Prim2SF credits' = S754_finite false 5404319552844595 (-53).
Proof.
  split; [apply Permutation_rev|].
  eexists. eexists.
  split; [vm_compute; reflexivity|].
  split; [vm_compute; reflexivity|].
  repeat split; vm_compute; reflexivity.
Qed.

(** There the sums round, which is what [exact_run] tells. *)
Lemma tenth_credits_round : exact_run tenth_credits = false.
Proof. vm_compute. reflexivity. Qed.

(** *** The frame of [calculate_cgpa] *)

Definition cgpa_key : str := lit "cgpa".

Lemma dict_set_twice {V : Type} (d : dict V) (k : str) (v v' : V) :
  dict_set (dict_set d k v) k v' = dict_set d k v'.
Proof.
  induction d as [|[k0 v0] d IH]; simpl.
  - rewrite str_eqb_refl. reflexivity.
  - destruct (str_eqb k0 k) eqn:E; simpl; rewrite E; [reflexivity|].
    rewrite IH. reflexivity.
Qed.

Section CgpaFrame.
Context {num : Type} `{Number num}.
Implicit Types (h : heap num) (d : list (Z * loc)).

(** A report is what it was, up to the key ["cgpa"]. *)
Definition cgpa_written (rep rep' : dict (value num)) : Prop :=
  rep' = rep \/ exists v, rep' = dict_set rep cgpa_key (VNum v).

(** Between two stores: no object appears or disappears, a mapping of
    semesters is untouched, and a report changes at most under ["cgpa"]. *)
Definition only_cgpa_written h h' : Prop :=
  forall l,
    match h l with
    | Some (Report rep) =>
        exists rep', h' l = Some (Report rep') /\ cgpa_written rep rep'
    | other => h' l = other
    end.

Lemma only_cgpa_refl h : only_cgpa_written h h.
Proof.
  intros l. destruct (h l) as [[rep|d]|]; try reflexivity.
  exists rep. split; [reflexivity | left; reflexivity].
Qed.

Lemma only_cgpa_trans h1 h2 h3 :
  only_cgpa_written h1 h2 -> only_cgpa_written h2 h3 ->
  only_cgpa_written h1 h3.
Proof.
  intros A B l. specialize (A l). specialize (B l).
  destruct (h1 l) as [[rep|d]|].
  - destruct A as (rep2 & E2 & W2). rewrite E2 in B.
    destruct B as (rep3 & E3 & W3). exists rep3. split; [exact E3|].
    destruct W2 as [->|(v & ->)]; [exact W3|].
    destruct W3 as [->|(v' & ->)].
    + right. exists v. reflexivity.
    + right. exists v'. apply dict_set_twice.
  - rewrite A in B. exact B.
  - rewrite A in B. exact B.
Qed.

Lemma heap_set_same h l (o : object num) : heap_set h l o l = Some o.
Proof. unfold heap_set. rewrite Nat.eqb_refl. reflexivity. Qed.

Lemma heap_set_other h l l' (o : object num) :
  l' <> l -> heap_set h l o l' = h l'.
Proof.
  intros N. unfold heap_set. apply Nat.eqb_neq in N. rewrite N. reflexivity.
Qed.

Lemma store_cgpa_frame h d (sem_id : Z) (cgpa : num) :
  only_cgpa_written h (fst (store_cgpa h d sem_id cgpa)).
Proof.
  unfold store_cgpa.
  destruct (sem_get d sem_id) as [l|]; [|apply only_cgpa_refl].
  destruct (h l) as [[rep|d']|] eqn:E; try apply only_cgpa_refl.
  simpl. intros x. destruct (Nat.eq_dec x l) as [->|N].
  - rewrite E, heap_set_same. exists (dict_set rep (lit "cgpa") (VNum cgpa)).
    split; [reflexivity|]. right. exists cgpa. reflexivity.
  - rewrite (heap_set_other h l x _ N).
    destruct (h x) as [[rep'|d']|]; try reflexivity.
    exists rep'. split; [reflexivity | left; reflexivity].
Qed.

Lemma cgpa_loop_frame d (sorted_semesters : list (Z * loc)) :
  forall h acc,
    only_cgpa_written h (fst (cgpa_loop d sorted_semesters h acc)).
Proof.
  induction sorted_semesters as [|[sem_id data] rest IH]; intros h acc; simpl.
  - apply only_cgpa_refl.
  - destruct (report_number h data _) as [c|e]; [|apply only_cgpa_refl].
    destruct (report_number h data _) as [p|e]; [|apply only_cgpa_refl].
    destruct (average _ _) as [cgpa|e]; [|apply only_cgpa_refl].
    pose proof (store_cgpa_frame h d sem_id cgpa) as F.
    destruct (store_cgpa h d sem_id cgpa) as [h' [u|e]]; simpl in F.
    + eapply only_cgpa_trans; [exact F | apply IH].
    + exact F.
Qed.

Lemma calculate_cgpa_frame h (semester_data : loc) :
  only_cgpa_written h (fst (calculate_cgpa h semester_data)).
Proof.
  unfold calculate_cgpa.
  destruct (h semester_data) as [[rep|d]|]; try apply only_cgpa_refl.
  pose proof (cgpa_loop_frame d (sorted_by_id d) h (of_int 0, of_int 0)) as F.
  destruct (cgpa_loop d (sorted_by_id d) h (of_int 0, of_int 0)) as [h' [acc|e]];
    exact F.
Qed.

Lemma calculate_cgpa_returns_argument h (semester_data : loc)
  (overall_cgpa : num) (returned : loc) (summary : cgpa_summary num) :
  snd (calculate_cgpa h semester_data) = Ok (overall_cgpa, returned, summary) ->
  returned = semester_data /\ exists d, h semester_data = Some (Semesters d).
Proof.
  unfold calculate_cgpa.
  destruct (h semester_data) as [[rep|d]|]; try discriminate.
  destruct (cgpa_loop d (sorted_by_id d) h (of_int 0, of_int 0)) as [h' [acc|e]];
    simpl; [|discriminate].
  destruct (average (snd acc) (fst acc)) as [cg|e]; simpl; [|discriminate].
  destruct (summary_of acc) as [s|e]; simpl; [|discriminate].
  intros [= _ <- _]. split; [reflexivity | eauto].
Qed.

Lemma cgpa_written_other_keys (rep rep' : dict (value num)) (k : str) :
  cgpa_written rep rep' -> k <> cgpa_key -> dict_get rep' k = dict_get rep k.
Proof.
  intros [->|(v & ->)] N; [reflexivity|].
  apply dict_get_set_neq. intros E. apply N. symmetry. exact E.
Qed.

Lemma cgpa_written_keys (rep rep' : dict (value num)) :
  cgpa_written rep rep' ->
  keys rep' = keys rep \/ keys rep' = keys rep ++ [cgpa_key].
Proof.
  intros [->|(v & ->)]; [left; reflexivity|].
  rewrite keys_dict_set. destruct (dict_mem rep cgpa_key); auto.
Qed.

End CgpaFrame.

(** C10: whatever its outcome, [calculate_cgpa] changes a report only under
    the key ["cgpa"] (every other key keeps its value, [total_credits] and
    [total_points] among them), leaves the mapping of semesters with its ids
    and its reports as it was, creates and removes no object, and what it
    returns as the semester mapping is the reference it was given. *)
Theorem calculate_cgpa_frame_effect (num : Type) (N : Number num)
  (h : heap num) (semester_data : loc) :
  let h' := fst (calculate_cgpa h semester_data) in
  (forall l rep,
     h l = Some (Report rep) ->
     exists rep',
       h' l = Some (Report rep') /\
       cgpa_written rep rep' /\
       (forall k, k <> cgpa_key -> dict_get rep' k = dict_get rep k) /\
       (forall k, In k (keys rep) -> In k (keys rep'))) /\
  (forall l d, h l = Some (Semesters d) -> h' l = Some (Semesters d)) /\
  (forall l, h l = None -> h' l = None) /\
  (forall overall_cgpa returned summary,
     snd (calculate_cgpa h semester_data)
       = Ok (overall_cgpa, returned, summary) ->
     returned = semester_data /\
     exists d,
       h semester_data = Some (Semesters d) /\
       h' semester_data = Some (Semesters d)).
Proof.
  intros h'. pose proof (calculate_cgpa_frame h semester_data) as F.
  fold h' in F.
  split; [|split; [|split]].
  - intros l rep E. specialize (F l). rewrite E in F.
    destruct F as (rep' & E' & W). exists rep'.
    split; [exact E'|]. split; [exact W|]. split.
    + intros k. apply cgpa_written_other_keys, W.
    + intros k Hk. destruct (cgpa_written_keys rep rep' W) as [->| ->];
        [exact Hk | apply in_or_app; auto].
  - intros l d E. specialize (F l). rewrite E in F. exact F.
  - intros l E. specialize (F l). rewrite E in F. exact F.
  - intros cg returned s E.
    destruct (calculate_cgpa_returns_argument h semester_data cg returned s E)
      as [-> [d Hd]].
    split; [reflexivity|]. exists d. split; [exact Hd|].
    specialize (F semester_data). rewrite Hd in F. exact F.
Qed.

(** *** The running totals of [calculate_cgpa] *)


Lemma insert_by_id_permutation (e : Z * loc) (l : list (Z * loc)) :
  Permutation (e :: l) (insert_by_id e l).
Proof.
  induction l as [|x l IH]; simpl; [reflexivity|].
  destruct (fst e <=? fst x)%Z; [reflexivity|].
  eapply Permutation_trans; [apply perm_swap|]. apply perm_skip, IH.
Qed.

Lemma sorted_by_id_permutation (d : list (Z * loc)) :
  Permutation d (sorted_by_id d).
Proof.
  induction d as [|e d IH]; simpl; [reflexivity|].
  eapply Permutation_trans; [apply perm_skip, IH|].
  apply insert_by_id_permutation.
Qed.

Definition id_le (a b : Z * loc) : Prop := (fst a <= fst b)%Z.

Lemma insert_by_id_sorted (e : Z * loc) (l : list (Z * loc)) :
  StronglySorted id_le l -> StronglySorted id_le (insert_by_id e l).
Proof.
  induction 1 as [|x l Sl IH Fx]; simpl.
  - constructor; constructor.
  - destruct (fst e <=? fst x)%Z eqn:E.
    + apply Z.leb_le in E. constructor; [constructor; assumption|].
      constructor; [exact E|].
      rewrite Forall_forall in *. intros y Hy. specialize (Fx y Hy).
      unfold id_le in *. lia.
    + apply Z.leb_gt in E. constructor; [exact IH|].
      rewrite Forall_forall in *. intros y Hy.
      apply (Permutation_in y (Permutation_sym (insert_by_id_permutation e l)))
        in Hy.
      destruct Hy as [<-|Hy]; [unfold id_le; lia | apply Fx, Hy].
Qed.

(** The loop of [calculate_cgpa] goes through the semesters by ascending
    id. *)
Lemma sorted_by_id_sorted (d : list (Z * loc)) :
  StronglySorted id_le (sorted_by_id d).
Proof.
  induction d as [|e d IH]; simpl; [constructor|].
  apply insert_by_id_sorted, IH.
Qed.

Lemma sem_get_In (d : list (Z * loc)) (sem_id : Z) (l : loc) :
  NoDup (map fst d) -> In (sem_id, l) d -> sem_get d sem_id = Some l.
Proof.
  induction d as [|[k x] d IH]; simpl; intros ND Hin; [destruct Hin|].
  inversion ND as [|? ? Hk ND']; subst.
  destruct Hin as [[= -> ->]|Hin].
  - rewrite Z.eqb_refl. reflexivity.
  - destruct (k =? sem_id)%Z eqn:E; [|apply IH; assumption].
    apply Z.eqb_eq in E. subst k. exfalso. apply Hk.
    apply (in_map fst) in Hin. exact Hin.
Qed.

Lemma firstn_In {A : Type} (n : nat) (l : list A) (x : A) :
  In x (firstn n l) -> In x l.
Proof.
  revert l; induction n as [|n IH]; intros [|y l]; simpl; try tauto.
  intros [->|Hin]; auto.
Qed.

Lemma NoDup_firstn {A : Type} (n : nat) (l : list A) :
  NoDup l -> NoDup (firstn n l).
Proof.
  revert l; induction n as [|n IH]; intros [|y l] ND; simpl; try constructor.
  - inversion ND as [|? ? Hy ND']; subst. intros Hin. apply Hy.
    eapply firstn_In, Hin.
  - inversion ND; subst. apply IH. assumption.
Qed.

Section CgpaFacts.
Context {num : Type} `{Number num}.
Implicit Types (h : heap num) (d todo : list (Z * loc)) (acc : running (num := num)).

Definition credits_key : str := lit "total_credits".
Definition points_key : str := lit "total_points".

(** The number a report holds under [k]. *)
Definition report_field h (l : loc) (k : str) : num :=
  match report_number h l k with
  | Ok x => x
  | Raise _ => of_int 0
  end.

(** [cumulative_credits] and [cumulative_points] after the semesters
    [todo], from [acc]: the sums of their totals, in that order. *)
Definition running_from h todo acc : running :=
  fold_left
    (fun a e =>
       (add (fst a) (report_field h (snd e) credits_key),
        add (snd a) (report_field h (snd e) points_key)))
    todo acc.

Definition running_totals h todo : running :=
  running_from h todo (of_int 0, of_int 0).

(** [round(points / credits, 2) if credits > 0 else 0] *)
Definition average_of acc : num :=
  if num_ltb (of_int 0) (fst acc)
  then round_nd 2 (div (snd acc) (fst acc))
  else of_int 0.

(** Every semester's report is in the store with its two totals. *)
Definition reports_ready h todo : Prop :=
  forall sem_id l,
    In (sem_id, l) todo ->
    exists rep c p,
      h l = Some (Report rep) /\
      dict_get rep credits_key = Some (VNum c) /\
      dict_get rep points_key = Some (VNum p).

(** The semester mapping is a dictionary (no id twice) of distinct
    reports. *)
Definition well_formed h d : Prop :=
  NoDup (map fst d) /\ NoDup (map snd d) /\ reports_ready h d.

Lemma running_from_ext h h' todo :
  (forall e, In e todo ->
     report_field h' (snd e) credits_key = report_field h (snd e) credits_key /\
     report_field h' (snd e) points_key = report_field h (snd e) points_key) ->
  forall acc, running_from h' todo acc = running_from h todo acc.
Proof.
  unfold running_from.
  induction todo as [|e rest IH]; intros E acc; simpl; [reflexivity|].
  destruct (E e (or_introl eq_refl)) as [-> ->].
  apply IH. intros x Hx. apply E. right. exact Hx.
Qed.

Lemma running_from_app h (pre post : list (Z * loc)) acc :
  running_from h (pre ++ post) acc
    = running_from h post (running_from h pre acc).
Proof. unfold running_from. apply fold_left_app. Qed.

Lemma report_field_cgpa h (l x : loc) (rep : dict (value num)) (v : num)
  (k : str) :
  h l = Some (Report rep) -> k <> cgpa_key ->
  report_field (heap_set h l (Report (dict_set rep cgpa_key (VNum v)))) x k
    = report_field h x k.
Proof.
  intros E N. unfold report_field, report_number.
  destruct (Nat.eq_dec x l) as [->|Nx].
  - rewrite heap_set_same, E.
    rewrite (dict_get_set_neq rep cgpa_key k (VNum v)
               (fun F => N (eq_sym F))).
    reflexivity.
  - rewrite (heap_set_other h l x _ Nx). reflexivity.
Qed.

Context `{!NumberLaws num}.

Lemma average_ok (points credits : num) :
  average points credits = Ok (average_of (credits, points)).
Proof.
  unfold average, average_of. simpl.
  destruct (num_ltb (of_int 0) credits) eqn:E; [|reflexivity].
  unfold py_div. rewrite (zero_lt_nonzero _ E). reflexivity.
Qed.

Lemma summary_of_ok acc : exists s, summary_of acc = Ok s.
Proof.
  unfold summary_of. destruct acc as [cc cp].
  destruct (num_ltb (of_int 0) cc) eqn:E; simpl; [|eauto].
  unfold py_div. rewrite (times_ten_nonzero _ E). simpl. eauto.
Qed.

(** The loop over [todo]: it succeeds, ends with the running totals, leaves
    the other objects alone, and the report of the [n]-th semester holds
    under ["cgpa"] the average of the totals up to that semester. *)
Lemma cgpa_loop_spec d todo :
  forall h acc,
    (forall sem_id l, In (sem_id, l) todo -> sem_get d sem_id = Some l) ->
    reports_ready h todo ->
    NoDup (map snd todo) ->
    exists h',
      cgpa_loop d todo h acc = (h', Ok (running_from h todo acc)) /\
      (forall x, ~ In x (map snd todo) -> h' x = h x) /\
      (forall n sem_id l,
         nth_error todo n = Some (sem_id, l) ->
         exists rep,
           h l = Some (Report rep) /\
           h' l = Some (Report
                          (dict_set rep cgpa_key
                             (VNum (average_of
                                      (running_from h (firstn (S n) todo) acc)))))).
Proof.
  induction todo as [|[sem_id data] rest IH]; intros h acc Hget Hready ND.
  - exists h. split; [reflexivity|]. split; [auto|].
    intros [|n] ? ? E; discriminate E.
  - destruct (Hready sem_id data (or_introl eq_refl)) as (rep & c & p & Eh & Ec & Ep).
    inversion ND as [|? ? Hnot ND']; subst.
    assert (Fc : report_field h data credits_key = c).
    { unfold report_field, report_number. rewrite Eh, Ec. reflexivity. }
    assert (Fp : report_field h data points_key = p).
    { unfold report_field, report_number. rewrite Eh, Ep. reflexivity. }
    set (acc1 := (add (fst acc) c, add (snd acc) p)).
    set (v := average_of acc1).
    set (h1 := heap_set h data (Report (dict_set rep cgpa_key (VNum v)))).
    assert (Hfield : forall x k, k <> cgpa_key ->
              report_field h1 x k = report_field h x k).
    { intros x k Nk. apply report_field_cgpa; assumption. }
    assert (Hready1 : reports_ready h1 rest).
    { intros id l Hin.
      destruct (Hready id l (or_intror Hin)) as (r & c' & p' & E1 & E2 & E3).
      assert (Nl : l <> data).
      { intros ->. apply Hnot. apply (in_map snd) in Hin. exact Hin. }
      exists r, c', p'. unfold h1. rewrite (heap_set_other h data l _ Nl).
      auto. }
    destruct (IH h1 acc1) as (h' & Eloop & Hother & Hnth).
    { intros id l Hin. apply Hget. right. exact Hin. }
    { exact Hready1. }
    { exact ND'. }
    assert (Erun : forall l' a, running_from h1 l' a = running_from h l' a).
    { intros l' a. apply running_from_ext. intros e _.
      split; apply Hfield; discriminate. }
    exists h'. split; [|split].
    + cbn [cgpa_loop].
      unfold report_number at 1. rewrite Eh. fold credits_key. rewrite Ec.
      unfold report_number at 1. rewrite Eh. fold points_key. rewrite Ep.
      rewrite average_ok. fold acc1. fold v.
      unfold store_cgpa.
      rewrite (Hget sem_id data (or_introl eq_refl)), Eh.
      fold cgpa_key. fold h1. rewrite Eloop, Erun.
      unfold running_from at 2. simpl. rewrite Fc, Fp. reflexivity.
    + intros x Hx. simpl in Hx.
      rewrite (Hother x (fun F => Hx (or_intror F))).
      unfold h1. apply heap_set_other. intros ->. apply Hx. left. reflexivity.
    + intros [|n] id l E.
      * injection E as <- <-. exists rep. split; [exact Eh|].
        rewrite (Hother data Hnot). unfold h1. rewrite heap_set_same.
        unfold running_from. simpl. rewrite Fc, Fp. reflexivity.
      * simpl in E. destruct (Hnth n id l E) as (r & E1 & E2).
        assert (Hin : In (id, l) rest) by (eapply nth_error_In, E).
        assert (Nl : l <> data).
        { intros ->. apply Hnot. apply (in_map snd) in Hin. exact Hin. }
        unfold h1 in E1. rewrite (heap_set_other h data l _ Nl) in E1.
        exists r. split; [exact E1|]. rewrite E2, Erun.
        unfold running_from. simpl. rewrite Fc, Fp. reflexivity.
Qed.

(** Adding a semester does not lower the cumulative credits. *)
Lemma running_credits_monotone h todo (e : Z * loc) :
  (forall x, In x (todo ++ [e]) ->
     num_leb (of_int 0) (report_field h (snd x) credits_key) = true) ->
  num_leb (fst (running_totals h todo)) (fst (running_totals h (todo ++ [e])))
    = true.
Proof.
  intros NN. unfold running_totals. rewrite running_from_app.
  assert (Hpos : forall l acc,
            (forall x, In x l ->
               num_leb (of_int 0) (report_field h (snd x) credits_key) = true) ->
            num_leb (of_int 0) (fst acc) = true ->
            num_leb (of_int 0) (fst (running_from h l acc)) = true).
  { unfold running_from.
    induction l as [|x l IH]; intros acc Hl Ha; simpl; [exact Ha|].
    apply IH; [intros y Hy; apply Hl; right; exact Hy|].
    simpl. apply add_nonneg; [exact Ha | apply Hl; left; reflexivity]. }
  unfold running_from at 2. simpl.
  apply add_nonneg.
  - apply Hpos; [|apply zero_le_zero].
    intros x Hx. apply NN. apply in_or_app. auto.
  - apply NN. apply in_or_app. right. left. reflexivity.
Qed.

End CgpaFacts.

(** C3: on a well-formed semester mapping [calculate_cgpa] succeeds; it
    takes the semesters by ascending id; after each prefix of that order the
    cumulative credits and points are the sums of the semesters' totals, and
    the cumulative credits never decrease when the semesters' credits are
    not negative; each report ends with, under ["cgpa"], the cumulative
    points over the cumulative credits up to its semester, rounded to 2
    decimals, and 0 when those credits are 0. *)
Theorem calculate_cgpa_running (num : Type) (N : Number num) (L : NumberLaws num)
  (h : heap num) (semester_data : loc) (d : list (Z * loc)) :
  h semester_data = Some (Semesters d) ->
  well_formed h d ->
  let sorted_semesters := sorted_by_id d in
  StronglySorted id_le sorted_semesters /\
  Permutation d sorted_semesters /\
  (forall n,
     exists hn,
       cgpa_loop d (firstn n sorted_semesters) h (of_int 0, of_int 0)
       = (hn, Ok (running_totals h (firstn n sorted_semesters)))) /\
  (forall n,
     n < length sorted_semesters ->
     (forall x, In x sorted_semesters ->
        num_leb (of_int 0) (report_field h (snd x) credits_key) = true) ->
     num_leb (fst (running_totals h (firstn n sorted_semesters)))
       (fst (running_totals h (firstn (S n) sorted_semesters))) = true) /\
  (exists h' summary,
     calculate_cgpa h semester_data
     = (h', Ok (average_of (running_totals h sorted_semesters),
                semester_data, summary)) /\
     forall n sem_id l,
       nth_error sorted_semesters n = Some (sem_id, l) ->
       exists rep,
         h l = Some (Report rep) /\
         h' l = Some (Report
                        (dict_set rep cgpa_key
                           (VNum (average_of
                                    (running_totals h
                                       (firstn (S n) sorted_semesters))))))) /\
  (forall acc : running,
     (num_ltb (of_int 0) (fst acc) = true ->
      average_of acc = round_nd 2 (div (snd acc) (fst acc))) /\
     (num_eqb (fst acc) (of_int 0) = true -> average_of acc = of_int 0)).
Proof.
  intros Hd (ND1 & ND2 & Hready) sorted_semesters.
  pose proof (sorted_by_id_permutation d) as P. fold sorted_semesters in P.
  assert (Hin : forall e, In e sorted_semesters -> In e d).
  { intros e He. eapply Permutation_in; [apply Permutation_sym, P | exact He]. }
  assert (ND2' : NoDup (map snd sorted_semesters)).
  { eapply Permutation_NoDup; [apply Permutation_map, P | exact ND2]. }
  assert (Hget : forall sem_id l, In (sem_id, l) sorted_semesters ->
                   sem_get d sem_id = Some l).
  { intros id l He. apply sem_get_In; [exact ND1 | apply Hin, He]. }
  assert (Hready' : reports_ready h sorted_semesters).
  { intros id l He. apply (Hready id l), Hin, He. }
  split; [apply sorted_by_id_sorted|]. split; [exact P|]. split; [|split; [|split]].
  - intros n.
    destruct (cgpa_loop_spec d (firstn n sorted_semesters) h (of_int 0, of_int 0))
      as (hn & E & _).
    + intros id l He. apply Hget. eapply firstn_In, He.
    + intros id l He. apply (Hready' id l). eapply firstn_In, He.
    + rewrite <- firstn_map. apply NoDup_firstn, ND2'.
    + exists hn. exact E.
  - intros n Hn NN.
    destruct (nth_error sorted_semesters n) as [e|] eqn:En.
    2:{ apply nth_error_None in En. lia. }
    assert (Es : firstn (S n) sorted_semesters
                 = firstn n sorted_semesters ++ [e]).
    { clear - En. revert n En.
      induction sorted_semesters as [|x l IH]; intros [|n] En;
        try discriminate En.
      - injection En as ->. reflexivity.
      - simpl in En. simpl. f_equal. apply IH, En. }
    rewrite Es. apply running_credits_monotone.
    intros x Hx. apply NN. rewrite <- Es in Hx. eapply firstn_In, Hx.
  - destruct (cgpa_loop_spec d sorted_semesters h (of_int 0, of_int 0)
                Hget Hready' ND2') as (h' & E & _ & Hnth).
    destruct (summary_of_ok (running_totals h sorted_semesters)) as [s Es].
    exists h', s. split; [|exact Hnth].
    unfold calculate_cgpa. rewrite Hd. fold sorted_semesters. rewrite E.
    fold (running_totals h sorted_semesters).
    rewrite average_ok, Es.
    destruct (running_totals h sorted_semesters) as [cc cp]. reflexivity.
  - intros acc. unfold average_of. split.
    + intros ->. reflexivity.
    + intros E. rewrite (zero_not_lt _ E). reflexivity.
Qed.

(** Two semesters: semester 1 with 20 credits and 160 points, semester 2
    with 22 credits and 198 points (stored first). *)
Definition first_report : dict (value Q) :=
  [ (lit "sgpa", VNum 8%Q); (lit "total_credits", VNum 20%Q);
    (lit "total_points", VNum 160%Q); (lit "semester", VNone) ].

Definition second_report : dict (value Q) :=
  [ (lit "sgpa", VNum 9%Q); (lit "total_credits", VNum 22%Q);
    (lit "total_points", VNum 198%Q); (lit "semester", VNone) ].

Definition two_semesters : heap Q :=
  fun l =>
    match l with
    | 0 => Some (Semesters [(2%Z, 2); (1%Z, 1)])
    | 1 => Some (Report first_report)
    | 2 => Some (Report second_report)
    | _ => None
    end.

(** [calculate_cgpa_running] on it: the running cgpa is 8 after semester 1
    and 358 / 42, rounded to 8.52, after semester 2, which is the overall
    cgpa. *)
Lemma calculate_cgpa_running_witness :
  exists h' summary,
    calculate_cgpa two_semesters 0 = (h', Ok (213 # 25, 0, summary)) /\
    h' 1 = Some (Report (dict_set first_report cgpa_key (VNum 8%Q))) /\
    h' 2 = Some (Report (dict_set second_report cgpa_key (VNum (213 # 25)))).
Proof.
  assert (WF : well_formed two_semesters [(2%Z, 2); (1%Z, 1)]).
  { split; [|split].
    - repeat constructor; simpl; intuition discriminate.
    - repeat constructor; simpl; intuition discriminate.
    - intros id l [E|[E|[]]]; injection E as <- <-;
        eexists; eexists; eexists; repeat split; reflexivity. }
  destruct (calculate_cgpa_running Q Q_number Q_laws two_semesters 0
              [(2%Z, 2); (1%Z, 1)] eq_refl WF)
    as (_ & _ & _ & _ & (h' & s & E & Hn) & _).
  exists h', s. split; [exact E|]. split.
  - destruct (Hn 0 1%Z 1 eq_refl) as (rep & E1 & E2).
    injection E1 as <-. exact E2.
  - destruct (Hn 1 2%Z 2 eq_refl) as (rep & E1 & E2).
    injection E1 as <-. exact E2.
Defined.

(* ===================================================================== *)
(** ** The groups of the source's patterns *)
(* ===================================================================== *)

(** Every group of the pattern is on the path of every match: no group is
    optional or inside an alternative. *)
Fixpoint groups_on_path (r : regex) : bool :=
  match r with
  | Cat r1 r2 => groups_on_path r1 && groups_on_path r2
  | Alt r1 r2 => (ngroups r1 =? 0) && (ngroups r2 =? 0)
  | Opt r1 => ngroups r1 =? 0
  | Grp r1 => groups_on_path r1
  | _ => true
  end.

Lemma run_ngroups (r : regex) :
  groups_on_path r = true ->
  forall prev s m, In m (run r prev s) -> length (snd m) = ngroups r.
Proof.
  induction r; simpl; intros G prev s m Hm.
  - destruct Hm as [<-|[]]. reflexivity.
  - rewrite (run_no_groups (Chr p) eq_refl prev s m Hm). reflexivity.
  - rewrite (run_no_groups (Rep greedy p lo hi) eq_refl prev s m Hm).
    reflexivity.
  - apply andb_true_iff in G as [G1 G2].
    apply in_flat_map in Hm as (m1 & H1 & Hm).
    apply in_map_iff in Hm as (m2 & <- & H2). simpl.
    rewrite length_app, (IHr1 G1 _ _ _ H1), (IHr2 G2 _ _ _ H2). reflexivity.
  - apply andb_true_iff in G as [G1 G2].
    apply Nat.eqb_eq in G1. apply Nat.eqb_eq in G2. rewrite G1, G2.
    apply in_app_iff in Hm as [Hm|Hm];
      [rewrite (run_no_groups r1 G1 _ _ _ Hm)
      | rewrite (run_no_groups r2 G2 _ _ _ Hm)]; reflexivity.
  - apply Nat.eqb_eq in G. rewrite G.
    apply in_app_iff in Hm as [Hm|[<-|[]]];
      [rewrite (run_no_groups r G _ _ _ Hm)|]; reflexivity.
  - apply in_map_iff in Hm as (m1 & <- & H1). simpl.
    rewrite (IHr G _ _ _ H1). reflexivity.
  - rewrite (run_no_groups Bnd eq_refl prev s m Hm). reflexivity.
  - rewrite (run_no_groups Eol eq_refl prev s m Hm). reflexivity.
Qed.

(** In a match of such a pattern [group(k)] is a text for every group [k] of
    the pattern: [group_text] never meets a missing group. *)
Lemma group_text_some (r : regex) (s : str) (m : rmatch) (k : nat) :
  groups_on_path r = true -> re_search r s = Some m ->
  1 <= k <= ngroups r ->
  group m k = Some (group_text m k).
Proof.
  intros G Hs Hk. unfold re_search in Hs.
  apply search_from_some in Hs as (i & n & caps & tl & _ & Hr & ->).
  pose proof (run_ngroups r G (char_before None s i) (skipn i s) (n, caps)
                ltac:(rewrite Hr; left; reflexivity)) as L.
  unfold group_text, group. simpl in *.
  destruct (nth_error caps (k - 1)) as [g|] eqn:E; [reflexivity|].
  apply nth_error_None in E. lia.
Qed.

(** So are the groups of all the patterns of the source. *)
Lemma source_patterns_groups :
  forallb groups_on_path
    ([ re_normalize; re_core; re_subject_code; re_grade_after_marks;
       re_grade_at_end; re_grades_row; re_credit_at_end ]
     ++ course_patterns ++ map fst special_subject_patterns
     ++ special_course_patterns) = true.
Proof. vm_compute. reflexivity. Qed.

(* ===================================================================== *)
(** ** The model at work *)
(* ===================================================================== *)

Definition management_result : str :=
  lit "23CS3CSFM Fundamentals of Management 60 55 50 A".

(** One result line and one course line give one combined subject with
    credit 4, grade A, grade point 8 and weighted point 32. *)
Example combine_management :
  let '(course_credits, subject_names, subject_name_map) :=
    parse_course_data (num := Q) management_courses in
  combine_data (parse_result_data management_result) course_credits
    subject_names subject_name_map
  = Ok [ (lit "23CS3CSFM",
          mk_subject_data (lit "Fundamentals of Management") (Some 4%Q)
            (lit "A") 8%Z 32%Q) ].
Proof. vm_compute. reflexivity. Qed.

(** The same on binary64. *)
Example combine_management_float :
  let '(course_credits, subject_names, subject_name_map) :=
    parse_course_data (num := float) management_courses in
  combine_data (parse_result_data management_result) course_credits
    subject_names subject_name_map
  = Ok [ (lit "23CS3CSFM",
          mk_subject_data (lit "Fundamentals of Management") (Some 4%float)
            (lit "A") 8%Z 32%float) ].
Proof. vm_compute. reflexivity. Qed.

(** A result document without subject lines gives the empty mapping. *)
Example parse_empty_result : parse_result_data [] = [].
Proof. reflexivity. Qed.

(** A name on two lines, a grade on a line of its own, and a row after the
    [GRADES] marker. *)
Definition wrapped_result : str :=
  lit "Result Sheet
23CS3PCDST Data Structures 45 40 85 A+
23CS3PCOOJ Object Oriented
Java 50 45 95 O
23MA3BSMCS
Mathematics for CS
O
GRADES
23CS3ESBFE Biology for Engineers 40 30 70 B+".

Example parse_wrapped_result :
  map (fun e => (fst e, r_name (snd e), r_grade (snd e)))
    (parse_result_data wrapped_result)
  = [ (lit "23CS3PCDST", lit "Data Structures", lit "A+");
      (lit "23CS3PCOOJ", lit "Object Oriented", lit "O");
      (lit "23MA3BSMCS", lit "Mathematics for CS", lit "O");
      (lit "23CS3ESBFE", lit "Biology for Engineers", lit "B+") ].
Proof. vm_compute. reflexivity. Qed.

(** Credits 4 and 3 with grades A and O: 62 / 7 is 8.86 on binary64 too
    (the float nearest to 886 / 100). *)
Example sgpa_float :
  calculate_sgpa (num := float)
    [ (lit "23CS3PCDST",
       mk_subject_data (lit "Data Structures") (Some 4%float) (lit "A") 8%Z
         32%float);
      (lit "23CS3PCOOJ",
       mk_subject_data (lit "Object Oriented Java") (Some 3%float) (lit "O")
         10%Z 30%float) ]
  = Ok (PrimFloat.div 886 100,
        [ mk_subject_point (lit "23CS3PCDST") (lit "Data Structures") 4%float
            (lit "A") 8%Z 32%float;
          mk_subject_point (lit "23CS3PCOOJ") (lit "Object Oriented Java")
            3%float (lit "O") 10%Z 30%float ],
        7%float, 62%float).
Proof. vm_compute. reflexivity. Qed.

(** [round(x, 2)] goes by the exact binary value: 0.125 is a tie and goes to
    the even 0.12; the float written 2.675 lies below the tie and goes to
    2.67. *)
Example round_ties :
  float_round_nd 2 (PrimFloat.div 1 8) = PrimFloat.div 12 100 /\
  float_round_nd 2 (PrimFloat.div 2675 1000) = PrimFloat.div 267 100 /\
  Q_round_nd 2 (1 # 8) = (3 # 25)%Q /\
  Q_round_nd 2 (2675 # 1000) = (67 # 25)%Q.
Proof. vm_compute. repeat split; reflexivity. Qed.

(* ===================================================================== *)
(** ** Upload check *)
(* ===================================================================== *)

Lemma contains_char (c : ascii) (s : str) : contains [c] s = true <-> In c s.
Proof.
  induction s as [|x s IH]; simpl.
  - split; [discriminate | intros []].
  - rewrite orb_true_iff, IH, andb_true_r, Ascii.eqb_eq. split.
    + intros [E|E]; [left; symmetry; exact E | right; exact E].
    + intros [E|E]; [left; symmetry; exact E | right; exact E].
Qed.

Lemma span_app_stop (p : ascii -> bool) (a b : str) (c : ascii) :
  forallb p a = true -> p c = false -> span p (a ++ c :: b) = length a.
Proof.
  intros Ha Hc. induction a as [|x a IH]; simpl.
  - rewrite Hc. reflexivity.
  - simpl in Ha. apply andb_true_iff in Ha as [-> Ha]. rewrite (IH Ha). reflexivity.
Qed.

(** The last occurrence of a character that occurs. *)
Lemma last_occurrence (c : ascii) (s : str) :
  In c s -> exists a b, s = a ++ c :: b /\ ~ In c b.
Proof.
  induction s as [|x s IH]; intros Hin; [destruct Hin|].
  destruct (in_dec ascii_dec c s) as [Hs|Hs].
  - destruct (IH Hs) as (a & b & -> & Hb). exists (x :: a), b. auto.
  - destruct Hin as [->|Hin]; [|contradiction]. exists [], s. auto.
Qed.

Lemma skipn_past {A : Type} (a b : list A) (c : A) :
  skipn (S (length a)) (a ++ c :: b) = b.
Proof. induction a as [|x a IH]; simpl; [reflexivity | exact IH]. Qed.

Lemma rsplit1_last (sep : ascii) (a b : str) :
  ~ In sep b -> rsplit1 sep (a ++ sep :: b) = [a; b].
Proof.
  intros Hb. unfold rsplit1.
  assert (Er : rev (a ++ sep :: b) = rev b ++ sep :: rev a).
  { rewrite rev_app_distr. simpl. rewrite <- app_assoc. reflexivity. }
  rewrite Er.
  assert (En : span (fun c => negb (Ascii.eqb c sep)) (rev b ++ sep :: rev a)
               = length (rev b)).
  { apply span_app_stop.
    - apply forallb_forall. intros x Hx. apply negb_true_iff, Ascii.eqb_neq.
      intros ->. apply Hb, in_rev, Hx.
    - rewrite Ascii.eqb_refl. reflexivity. }
  rewrite En, length_app. cbn [length].
  replace (length (rev b) <? length (rev b) + S (length (rev a))) with true
    by (symmetry; apply Nat.ltb_lt; lia).
  rewrite firstn_app, firstn_all, Nat.sub_diag, app_nil_r.
  rewrite skipn_past, !rev_involutive. reflexivity.
Qed.

Lemma lower_no_dot (s : str) : ~ In dot (lower s) -> ~ In dot s.
Proof.
  intros N Hin. apply N. unfold lower. apply in_map_iff. exists dot. auto.
Qed.

(** X1: [allowed_file] never raises, and accepts a name exactly when what
    follows its last dot is [pdf] in any mix of cases. *)
Theorem allowed_file_pdf (filename : str) :
  exists b,
    allowed_file filename = Ok b /\
    (b = true <->
     exists stem extension,
       filename = stem ++ dot :: extension /\ lower extension = lit "pdf").
Proof.
  unfold allowed_file. destruct (contains [dot] filename) eqn:E.
  - apply contains_char, last_occurrence in E as (a & b & -> & Hb).
    rewrite (rsplit1_last dot a b Hb). simpl. rewrite orb_false_r.
    eexists. split; [reflexivity|]. rewrite str_eqb_eq. split.
    + intros El. exists a, b. auto.
    + intros (stem & ext & Es & El).
      assert (Hext : ~ In dot ext).
      { apply lower_no_dot. rewrite El. simpl. intuition discriminate. }
      pose proof (rsplit1_last dot stem ext Hext) as R1.
      rewrite <- Es, (rsplit1_last dot a b Hb) in R1.
      injection R1 as _ ->. exact El.
  - exists false. split; [reflexivity|]. split; [discriminate|].
    intros (stem & ext & -> & _). exfalso.
    assert (Hc : contains [dot] (stem ++ dot :: ext) = true).
    { apply contains_char, in_elt. }
    congruence.
Qed.

(* ===================================================================== *)
(** ** Department and semester *)
(* ===================================================================== *)

(** *** Counting matches *)

Lemma search_from_end (r : regex) (prev : option ascii) (s : str) (m : rmatch) :
  search_from r prev s 0 = Some m ->
  min_len r <= length (m_text m) /\ m_end m <= length s.
Proof.
  intros Hs. apply search_from_some in Hs as (k & n & caps & tl & Hk & Hr & ->).
  assert (Hin : In (n, caps) (run r (char_before prev s k) (skipn k s)))
    by (rewrite Hr; left; reflexivity).
  pose proof (run_bound r _ _ _ Hin) as Hb.
  pose proof (run_min_len r _ _ _ Hin) as Hm.
  simpl in Hb, Hm. rewrite length_skipn in Hb.
  unfold m_end. simpl. rewrite length_firstn, length_skipn. lia.
Qed.

(** The fuel of [findall_count] is enough: with more of it the count is the
    same. *)
Lemma count_matches_fuel (r : regex) :
  1 <= min_len r ->
  forall fuel fuel' prev s,
    length s < fuel -> length s < fuel' ->
    count_matches fuel r prev s = count_matches fuel' r prev s.
Proof.
  intros Hmin. induction fuel as [|fuel IH]; intros fuel' prev s H1 H2; [lia|].
  destruct fuel' as [|fuel']; [lia|]. simpl.
  destruct (search_from r prev s 0) as [m|] eqn:Hs; [|reflexivity].
  destruct (search_from_end r prev s m Hs) as [Ha Hb].
  f_equal. apply IH; rewrite length_skipn; unfold m_end in *; lia.
Qed.

Lemma findall_count_zero (r : regex) (s : str) :
  findall_count r s = 0 <-> re_search r s = None.
Proof.
  unfold findall_count, re_search. simpl.
  destruct (search_from r None s 0); split; intros E; congruence.
Qed.

(** *** The largest count *)

Lemma max_by_count_spec {A : Type} (l : list (A * nat)) :
  forall best,
    let m := max_by_count best l in
    (forall x, In x (best :: l) -> snd x <= snd m) /\
    exists pre post,
      best :: l = pre ++ m :: post /\
      forall x, In x pre -> snd x < snd m.
Proof.
  induction l as [|x l IH]; intros best; simpl.
  - split.
    + intros y [<-|[]]. lia.
    + exists [], []. split; [reflexivity | intros y []].
  - destruct (IH (if snd best <? snd x then x else best))
      as (Hmax & pre & post & Hsplit & Hpre).
    set (m := max_by_count (if snd best <? snd x then x else best) l) in *.
    destruct (snd best <? snd x) eqn:E.
    + apply Nat.ltb_lt in E.
      pose proof (Hmax x (or_introl eq_refl)) as Hx.
      split.
      * intros y [<-|Hy]; [lia | apply Hmax, Hy].
      * exists (best :: pre), post. split; [simpl; f_equal; exact Hsplit|].
        intros y [<-|Hy]; [lia | apply Hpre, Hy].
    + apply Nat.ltb_ge in E.
      pose proof (Hmax best (or_introl eq_refl)) as Hb.
      split.
      * intros y [<-|[<-|Hy]]; [lia | lia | apply Hmax; right; exact Hy].
      * destruct pre as [|p pre]; simpl in Hsplit.
        -- injection Hsplit as Hm Hl. exists [], (x :: l).
           split; [rewrite <- Hm; reflexivity | intros y []].
        -- injection Hsplit as <- Hl.
           pose proof (Hpre best (or_introl eq_refl)) as Hlt.
           exists (best :: x :: pre), post. split.
           ++ simpl. rewrite Hl. reflexivity.
           ++ intros y [<-|[<-|Hy]]; [lia | lia | apply Hpre; right; exact Hy].
Qed.

Lemma dict_get_first {V : Type} (pre post : dict V) (k : str) (v : V) :
  ~ In k (keys pre) -> dict_get (pre ++ (k, v) :: post) k = Some v.
Proof.
  induction pre as [|[k' v'] pre IH]; simpl; intros N.
  - rewrite str_eqb_refl. reflexivity.
  - destruct (str_eqb k' k) eqn:E.
    + apply str_eqb_eq in E. exfalso. apply N. left. exact E.
    + apply IH. intros Hin. apply N. right. exact Hin.
Qed.

Lemma department_codes_distinct : NoDup (keys DEPARTMENT_CODES).
Proof.
  assert (D : forall l : list str,
            (fix nodup (l : list str) : bool :=
               match l with
               | [] => true
               | x :: l' => negb (existsb (str_eqb x) l') && nodup l'
               end) l = true -> NoDup l).
  { induction l as [|x l IH]; intros E; constructor.
    - apply andb_true_iff in E as [E _]. apply negb_true_iff in E.
      intros Hin. assert (T : existsb (str_eqb x) l = true).
      { apply existsb_exists. exists x. split; [exact Hin | apply str_eqb_refl]. }
      congruence.
    - apply IH. apply andb_true_iff in E as [_ E]. exact E. }
  apply D. reflexivity.
Qed.

(** The count of a department's codes in the two texts put together. *)
Definition dept_count (result_text course_text code : str) : nat :=
  findall_count (re_department code) (result_text ++ course_text).

(** X2: [detect_department] returns two [None] exactly when no department's
    pattern occurs in the two texts; otherwise a code of the table with its
    name, whose count is positive, is the largest, and is larger than the
    count of every code that comes before it in the table. *)
Theorem detect_department_spec (result_text course_text : str) :
  match detect_department result_text course_text with
  | (None, None) =>
      forall code, In code (keys DEPARTMENT_CODES) ->
        re_search (re_department code) (result_text ++ course_text) = None
  | (Some dept_code, Some dept_name) =>
      exists before after,
        DEPARTMENT_CODES = before ++ (dept_code, dept_name) :: after /\
        0 < dept_count result_text course_text dept_code /\
        (forall code, In code (keys DEPARTMENT_CODES) ->
           dept_count result_text course_text code
             <= dept_count result_text course_text dept_code) /\
        (forall code, In code (keys before) ->
           dept_count result_text course_text code
             < dept_count result_text course_text dept_code)
  | _ => False
  end.
Proof.
  unfold detect_department.
  set (all_text := result_text ++ course_text).
  set (f := fun e : str * str =>
              (fst e, findall_count (re_department (fst e)) all_text)).
  assert (Ec : dept_counts all_text = map f DEPARTMENT_CODES) by reflexivity.
  destruct (dept_counts all_text) as [|first rest] eqn:Ed.
  { discriminate Ec. }
  destruct (max_by_count_spec rest first) as (Hmax & pre & post & Hsplit & Hpre).
  set (m := max_by_count first rest) in *.
  rewrite Ec in Hsplit.
  apply map_eq_app in Hsplit as (before & l2 & Hd & Hb & Hl2).
  apply map_eq_cons in Hl2 as (e & after & -> & He & Ha).
  assert (Hcount : forall code, In code (keys DEPARTMENT_CODES) ->
            In (code, dept_count result_text course_text code)
              (first :: rest)).
  { intros code Hc. rewrite Ec. unfold keys in Hc.
    apply in_map_iff in Hc as (x & <- & Hx). apply in_map_iff.
    exists x. split; [reflexivity | exact Hx]. }
  assert (Hm : snd m = dept_count result_text course_text (fst e))
    by (rewrite <- He; reflexivity).
  assert (Hfm : fst m = fst e) by (rewrite <- He; reflexivity).
  destruct (0 <? snd m) eqn:Epos.
  - apply Nat.ltb_lt in Epos. rewrite Hfm.
    assert (Hget : dict_get DEPARTMENT_CODES (fst e) = Some (snd e)).
    { rewrite Hd. destruct e as [k v]. apply dict_get_first.
      pose proof department_codes_distinct as ND. rewrite Hd in ND.
      unfold keys in ND. rewrite map_app in ND. simpl in ND.
      apply NoDup_remove_2 in ND. intros Hin. apply ND.
      apply in_or_app. left. exact Hin. }
    rewrite Hget. exists before, after. destruct e as [k v]. simpl in *.
    split; [exact Hd|]. split; [lia|]. split.
    + intros code Hc. rewrite <- Hm. apply (Hmax _ (Hcount code Hc)).
    + intros code Hc. rewrite <- Hm.
      apply (Hpre (code, dept_count result_text course_text code)).
      rewrite <- Hb. unfold keys in Hc.
      apply in_map_iff in Hc as (x & <- & Hx). apply in_map_iff.
      exists x. split; [reflexivity | exact Hx].
  - apply Nat.ltb_ge in Epos. intros code Hc.
    apply findall_count_zero.
    pose proof (Hmax _ (Hcount code Hc)) as Hle. cbn [snd] in Hle.
    unfold dept_count in Hle. fold all_text in Hle. lia.
Qed.

(** *** The semester *)

Definition sem_count (result_text course_text : str) (i : Z) : nat :=
  findall_count (re_semester i) (result_text ++ course_text).

Lemma semester_ids : map Z.of_nat (seq 1 8) = [1; 2; 3; 4; 5; 6; 7; 8]%Z.
Proof. reflexivity. Qed.

Lemma semester_ids_In (i : Z) :
  In i (map Z.of_nat (seq 1 8)) <-> (1 <= i <= 8)%Z.
Proof.
  rewrite semester_ids. simpl. split.
  { intros H. intuition lia. }
  intros R.
  assert (E : (i = 1 \/ i = 2 \/ i = 3 \/ i = 4 \/ i = 5 \/ i = 6 \/ i = 7
               \/ i = 8)%Z) by lia.
  intuition auto.
Qed.

Lemma semester_ids_sorted : StronglySorted Z.lt (map Z.of_nat (seq 1 8)).
Proof.
  rewrite semester_ids. repeat constructor; lia.
Qed.

Lemma sorted_before {A : Type} (R : A -> A -> Prop) (pre post : list A) (x y : A) :
  StronglySorted R (pre ++ x :: post) -> In y post -> R x y.
Proof.
  induction pre as [|p pre IH]; simpl; intros S Hy.
  - apply StronglySorted_inv in S as [_ F]. rewrite Forall_forall in F. auto.
  - apply StronglySorted_inv in S as [S _]. auto.
Qed.

(** The outcomes of [detect_semester]. *)
Lemma detect_semester_outcome (result_text course_text : str) :
  match detect_semester result_text course_text with
  | None =>
      forall i, (1 <= i <= 8)%Z ->
        re_search (re_semester i) (result_text ++ course_text) = None
  | Some semester =>
      (1 <= semester <= 8)%Z /\
      0 < sem_count result_text course_text semester /\
      (forall i, (1 <= i <= 8)%Z ->
         sem_count result_text course_text i
           <= sem_count result_text course_text semester) /\
      (forall i, (1 <= i < semester)%Z ->
         sem_count result_text course_text i
           < sem_count result_text course_text semester)
  end.
Proof.
  unfold detect_semester.
  set (all_text := result_text ++ course_text).
  set (f := fun i : Z => (i, findall_count (re_semester i) all_text)).
  assert (Ec : sem_counts all_text = map f (map Z.of_nat (seq 1 8)))
    by reflexivity.
  destruct (sem_counts all_text) as [|first rest] eqn:Ed.
  { discriminate Ec. }
  destruct (max_by_count_spec rest first) as (Hmax & pre & post & Hsplit & Hpre).
  set (m := max_by_count first rest) in *.
  rewrite Ec in Hsplit.
  apply map_eq_app in Hsplit as (before & l2 & Hd & Hb & Hl2).
  apply map_eq_cons in Hl2 as (e & after & -> & He & Ha).
  assert (Hcount : forall i, (1 <= i <= 8)%Z ->
            In (i, sem_count result_text course_text i) (first :: rest)).
  { intros i Hi. rewrite Ec. apply semester_ids_In in Hi.
    apply in_map_iff. exists i. split; [reflexivity | exact Hi]. }
  assert (Hm : snd m = sem_count result_text course_text e)
    by (rewrite <- He; reflexivity).
  assert (Hfm : fst m = e) by (rewrite <- He; reflexivity).
  assert (Hin : (1 <= e <= 8)%Z).
  { apply semester_ids_In. rewrite Hd. apply in_elt. }
  destruct (0 <? snd m) eqn:Epos.
  - apply Nat.ltb_lt in Epos. rewrite Hfm.
    split; [exact Hin|]. split; [lia|]. split.
    + intros i Hi. rewrite <- Hm. apply (Hmax _ (Hcount i Hi)).
    + intros i Hi. rewrite <- Hm.
      apply (Hpre (i, sem_count result_text course_text i)).
      rewrite <- Hb. apply in_map_iff. exists i. split; [reflexivity|].
      assert (Hi' : In i (before ++ e :: after)).
      { rewrite <- Hd. apply semester_ids_In. lia. }
      apply in_app_or in Hi' as [Hi'|[Hi'|Hi']]; [exact Hi' | lia |].
      pose proof semester_ids_sorted as S. rewrite Hd in S.
      pose proof (sorted_before Z.lt before after e i S Hi'). lia.
  - apply Nat.ltb_ge in Epos. intros i Hi.
    apply findall_count_zero.
    pose proof (Hmax _ (Hcount i Hi)) as Hle. cbn [snd] in Hle.
    unfold sem_count in Hle. fold all_text in Hle. lia.
Qed.

(** X3: [detect_semester] returns [None] exactly when none of the eight patterns
    occurs in the two texts; otherwise a number from 1 to 8 whose count is
    positive, is the largest, and is larger than the count of every smaller
    number. *)
Theorem detect_semester_spec (result_text course_text : str) :
  match detect_semester result_text course_text with
  | None =>
      forall i, (1 <= i <= 8)%Z ->
        re_search (re_semester i) (result_text ++ course_text) = None
  | Some semester =>
      (1 <= semester <= 8)%Z /\
      0 < sem_count result_text course_text semester /\
      (forall i, (1 <= i <= 8)%Z ->
         sem_count result_text course_text i
           <= sem_count result_text course_text semester) /\
      (forall i, (1 <= i < semester)%Z ->
         sem_count result_text course_text i
           < sem_count result_text course_text semester)
  end.
Proof. exact (detect_semester_outcome result_text course_text). Qed.

(** What a pattern that starts with a word boundary or a character asks of
    the text. *)
Lemma run_bnd_cat (r : regex) (prev : option ascii) (s : str) (m : nat * list str) :
  In m (run (Bnd ;; r) prev s) -> In m (run r prev s).
Proof.
  simpl. destruct (xorb _ _); simpl; [|intros []].
  rewrite app_nil_r. intros Hm. apply in_map_iff in Hm as ([n caps] & <- & H1).
  exact H1.
Qed.

Lemma run_chr_cat (p : ascii -> bool) (r : regex) (prev : option ascii)
  (s : str) (m : nat * list str) :
  In m (run (Chr p ;; r) prev s) ->
  exists c s' m', s = c :: s' /\ p c = true /\ In m' (run r (Some c) s').
Proof.
  simpl. destruct s as [|c s]; [intros []|].
  destruct (p c) eqn:E; simpl; [|intros []].
  rewrite app_nil_r. intros Hm. apply in_map_iff in Hm as (m' & _ & H1).
  exists c, s, m'. auto.
Qed.

Lemma run_chr (p : ascii -> bool) (prev : option ascii) (s : str)
  (m : nat * list str) :
  In m (run (Chr p) prev s) -> exists c s', s = c :: s' /\ p c = true.
Proof.
  simpl. destruct s as [|c s]; [intros []|].
  destruct (p c) eqn:E; [|intros []]. intros _. exists c, s. auto.
Qed.

Lemma is_char_eq (x c : ascii) : is_char x c = true -> c = x.
Proof. unfold is_char. intros E. apply Ascii.eqb_eq in E. auto. Qed.

(** The seven characters a match of [re_semester] starts with. *)
Definition semester_window (i : Z) (w : str) : Prop :=
  exists year_digit letter letter' rest,
    w = "2"%char :: year_digit :: letter :: "2"%char :: digit_char i
          :: letter' :: "2"%char :: rest /\
    is_digit year_digit = true /\ is_alpha letter = true /\
    is_alpha letter' = true.

Lemma re_semester_window (i : Z) (text : str) :
  re_search (re_semester i) text <> None ->
  exists k, semester_window i (skipn k text).
Proof.
  intros Hs. destruct (re_search (re_semester i) text) as [m|] eqn:E;
    [clear Hs | contradiction Hs; reflexivity].
  apply search_from_some in E as (k & n & caps & tl & _ & Hr & _).
  exists k.
  assert (Hin : In (n, caps)
                  (run (re_semester i) (char_before None text k) (skipn k text)))
    by (rewrite Hr; left; reflexivity).
  unfold re_semester in Hin. apply run_bnd_cat in Hin.
  apply run_chr_cat in Hin as (c0 & s0 & m0 & -> & P0 & Hin).
  apply run_chr_cat in Hin as (c1 & s1 & m1 & -> & P1 & Hin).
  apply run_chr_cat in Hin as (c2 & s2 & m2 & -> & P2 & Hin).
  apply run_chr_cat in Hin as (c3 & s3 & m3 & -> & P3 & Hin).
  apply run_chr_cat in Hin as (c4 & s4 & m4 & -> & P4 & Hin).
  apply run_chr_cat in Hin as (c5 & s5 & m5 & -> & P5 & Hin).
  apply run_chr in Hin as (c6 & s6 & -> & P6).
  unfold digit_2 in P0, P3, P6.
  apply is_char_eq in P0, P3, P4, P6. subst c0 c3 c4 c6.
  exists c1, c2, c5, s6. auto.
Qed.

(** Whether somewhere a letter stands right before the digit 2. *)
Fixpoint letter_before_2 (s : str) : bool :=
  match s with
  | a :: s' =>
      match s' with
      | b :: _ => (is_alpha a && is_char "2"%char b) || letter_before_2 s'
      | [] => false
      end
  | [] => false
  end.

Lemma letter_before_2_skipn (k : nat) (s : str) :
  letter_before_2 s = false -> letter_before_2 (skipn k s) = false.
Proof.
  revert s; induction k as [|k IH]; intros s E; [exact E|].
  destruct s as [|a s]; [reflexivity|]. simpl. apply IH.
  simpl in E. destruct s as [|b s]; [reflexivity|].
  apply orb_false_iff in E as [_ E]. exact E.
Qed.

(** X4: a semester that [detect_semester] returns was read off a place of the
    text where, at a word boundary, stand the digit 2, a digit, one letter,
    the digit 2, the digit of the semester, one letter and the digit 2. *)
Theorem detect_semester_window (result_text course_text : str) (semester : Z) :
  detect_semester result_text course_text = Some semester ->
  (1 <= semester <= 8)%Z /\
  exists k, semester_window semester (skipn k (result_text ++ course_text)).
Proof.
  intros E. pose proof (detect_semester_outcome result_text course_text) as S.
  rewrite E in S. destruct S as (Hi & Hpos & _). split; [exact Hi|].
  apply re_semester_window. intros Hn.
  apply findall_count_zero in Hn. unfold sem_count in Hpos. lia.
Qed.

(** X5: no semester is detected in texts where no letter stands right before
    a digit 2, as in subject codes with two letters for the department:
    [23CS3PCDSA]. *)
Theorem detect_semester_standard_codes (result_text course_text : str) :
  letter_before_2 (result_text ++ course_text) = false ->
  detect_semester result_text course_text = None.
Proof.
  intros L. destruct (detect_semester result_text course_text) as [i|] eqn:E;
    [exfalso | reflexivity].
  pose proof (detect_semester_outcome result_text course_text) as S.
  rewrite E in S. destruct S as (_ & Hpos & _).
  destruct (re_semester_window i (result_text ++ course_text))
    as (k & c1 & c2 & c5 & rest & Hw & _ & P2 & _).
  { intros Hn. apply findall_count_zero in Hn. unfold sem_count in Hpos. lia. }
  pose proof (letter_before_2_skipn k _ L) as Lk. rewrite Hw in Lk.
  cbn [letter_before_2] in Lk. rewrite P2 in Lk.
  rewrite !orb_false_iff in Lk. destruct Lk as (_ & _ & Lk & _).
  discriminate Lk.
Qed.

(** Codes with one letter for the department and the digit 2 around the
    semester. *)
Definition odd_codes : str := lit "a 23C23P2 23C24P2 23C24P2".

(** [detect_semester_window] on them: semester 4, counted twice. *)
Lemma detect_semester_window_witness :
  (1 <= 4 <= 8)%Z /\ exists k, semester_window 4 (skipn k (odd_codes ++ [])).
Proof.
  apply (detect_semester_window odd_codes [] 4). vm_compute. reflexivity.
Defined.

Definition third_semester_courses : str :=
  lit "Course Details
1 Data Structures 23CS3PCDSA L 4 4
Total Credits 4".

Definition third_semester_result : str :=
  lit "23CS3PCDSA Data Structures 60 55 50 A
23CS3PCOOJ Object Oriented Java 50 45 40 B+".

(** [detect_semester_standard_codes] on a result and a course document of
    the third semester. *)
Lemma detect_semester_standard_codes_witness :
  detect_semester third_semester_result third_semester_courses = None.
Proof.
  apply (detect_semester_standard_codes third_semester_result third_semester_courses).
  vm_compute. reflexivity.
Defined.

(* ===================================================================== *)
(** ** Report of one semester *)
(* ===================================================================== *)

(** A mapping filled by stores: a key holds what the last store to it
    wrote. *)
Lemma stores_last_wins {B V : Type} (key : B -> str) (val : B -> V)
  (l : list B) (k : str) :
  forall d,
    dict_get (fold_left (fun d b => dict_set d (key b) (val b)) l d) k
    = match find (fun b => str_eqb (key b) k) (rev l) with
      | Some b => Some (val b)
      | None => dict_get d k
      end.
Proof.
  induction l as [|b l IH] using rev_ind; intros d; [reflexivity|].
  rewrite fold_left_app, rev_app_distr. simpl.
  destruct (str_eqb (key b) k) eqn:E.
  - apply str_eqb_eq in E. subst k. apply dict_get_set_eq.
  - apply str_eqb_neq in E. rewrite (dict_get_set_neq _ _ _ _ E). apply IH.
Qed.

Lemma dict_set_nodup {V : Type} (d : dict V) (k : str) (v : V) :
  NoDup (keys d) -> NoDup (keys (dict_set d k v)).
Proof.
  intros ND. rewrite keys_dict_set. destruct (dict_mem d k) eqn:E; [exact ND|].
  apply NoDup_app_remove_l with (l := []). simpl.
  apply Permutation_NoDup with (l := k :: keys d).
  - apply Permutation_cons_append.
  - constructor; [|exact ND]. intros Hin. apply dict_mem_keys in Hin. congruence.
Qed.

Lemma stores_keys {B V : Type} (key : B -> str) (val : B -> V) (l : list B) :
  forall d k,
    In k (keys (fold_left (fun d b => dict_set d (key b) (val b)) l d)) <->
    In k (keys d) \/ In k (map key l).
Proof.
  induction l as [|b l IH]; intros d k; simpl; [tauto|].
  rewrite IH, keys_dict_set.
  destruct (dict_mem d (key b)) eqn:E.
  - apply dict_mem_keys in E. split; [tauto|].
    intros [H|[<-|H]]; auto.
  - rewrite in_app_iff. simpl. tauto.
Qed.

Lemma stores_nodup {B V : Type} (key : B -> str) (val : B -> V) (l : list B) :
  forall d,
    NoDup (keys d) ->
    NoDup (keys (fold_left (fun d b => dict_set d (key b) (val b)) l d)).
Proof.
  induction l as [|b l IH]; intros d ND; simpl; [exact ND|].
  apply IH, dict_set_nodup, ND.
Qed.

Section ReportFacts.
Context {num : Type} `{Number num}.

Definition report_entry (point : subject_point num) : report_subject num :=
  mk_report_subject (p_code point) (p_credit point) (p_grade point)
    (p_grade_point point) (round_nd 2 (p_weighted_point point)).

Lemma display_name_shown (point : subject_point num) :
  display_name point <> [] /\ isdigit (display_name point) = false.
Proof.
  assert (S : forall code : str,
            lit "Subject " ++ code = "S"%char :: (lit "ubject " ++ code))
    by reflexivity.
  unfold display_name.
  destruct (isdigit (p_name point)) eqn:D; cbn [orb].
  - rewrite S. split; [discriminate | reflexivity].
  - destruct (p_name point) as [|c n] eqn:E; cbn [truthy negb].
    + rewrite S. split; [discriminate | reflexivity].
    + split; [discriminate | exact D].
Qed.


(** The last entry of [subject_points] that is shown under [key]. *)
Definition last_shown (subject_points : list (subject_point num)) (key : str)
  : option (subject_point num) :=
  find (fun point => str_eqb (display_name point) key) (rev subject_points).

Lemma report_steps_keys (subject_points : list (subject_point num)) (key : str) :
  In key (keys (fold_left report_step subject_points [])) <->
  In key (map display_name subject_points).
Proof.
  unfold report_step.
  rewrite (stores_keys display_name report_entry subject_points [] key).
  simpl. tauto.
Qed.

(** X6: in the report of [generate_report] a subject stands under its name,
    or under [Subject] and its code when the name is empty or all digits, so
    no key is empty or all digits; a key holds the last subject of that
    name, with its weighted point rounded to 2 decimals: subjects of one
    name fall into one entry, and the report has at most as many subjects
    as were counted.  The only exception that can come out is a division
    by zero. *)
Theorem generate_report_subjects (subject_points : list (subject_point num))
  (sgpa total_credits total_points : num) (dept_code dept_name : option str)
  (semester : option Z) :
  match generate_report subject_points sgpa total_credits total_points
          dept_code dept_name semester with
  | Ok report =>
      (forall key,
         dict_get (rep_subjects report) key
         = option_map report_entry (last_shown subject_points key)) /\
      (forall key,
         In key (keys (rep_subjects report)) <->
         In key (map display_name subject_points)) /\
      (forall key,
         In key (keys (rep_subjects report)) ->
         key <> [] /\ isdigit key = false) /\
      NoDup (keys (rep_subjects report)) /\
      length (rep_subjects report) <= length subject_points
  | Raise e => e = ZeroDivisionError
  end.
Proof.
  unfold generate_report, percentage_of.
  assert (R : let subjects := fold_left report_step subject_points [] in
            (forall key,
               dict_get subjects key
               = option_map report_entry (last_shown subject_points key)) /\
            (forall key,
               In key (keys subjects) <->
               In key (map display_name subject_points)) /\
            (forall key,
               In key (keys subjects) -> key <> [] /\ isdigit key = false) /\
            NoDup (keys subjects) /\
            length subjects <= length subject_points).
  { intros subjects. unfold subjects.
    assert (K : forall key,
              In key (keys (fold_left report_step subject_points [])) <->
              In key (map display_name subject_points))
      by apply report_steps_keys.
    assert (ND : NoDup (keys (fold_left report_step subject_points []))).
    { unfold report_step.
      apply (stores_nodup display_name report_entry). constructor. }
    split; [|split; [exact K|split; [|split; [exact ND|]]]].
    - intros key. unfold report_step, last_shown.
      rewrite (stores_last_wins display_name report_entry). simpl.
      destruct (find _ _); reflexivity.
    - intros key Hk. apply K in Hk. apply in_map_iff in Hk as (p & <- & _).
      apply display_name_shown.
    - rewrite <- (length_map fst (fold_left report_step subject_points [])).
      rewrite <- (length_map display_name subject_points).
      apply NoDup_incl_length; [exact ND|]. intros key. apply K. }
  destruct (num_ltb (of_int 0) total_credits); cbn [bind rep_subjects];
    [|exact R].
  unfold py_div.
  destruct (num_eqb (mul total_credits (of_int 10)) (of_int 0));
    cbn [bind rep_subjects]; [reflexivity | exact R].
Qed.

Context `{!NumberLaws num}.

Lemma percentage_of_ok (total_points total_credits : num) :
  percentage_of total_points total_credits
  = Ok (if num_ltb (of_int 0) total_credits
        then round_nd 2 (mul (div total_points
                                (mul total_credits (of_int 10))) (of_int 100))
        else of_int 0).
Proof.
  unfold percentage_of.
  destruct (num_ltb (of_int 0) total_credits) eqn:E; [|reflexivity].
  unfold py_div. rewrite (times_ten_nonzero _ E). reflexivity.
Qed.

Lemma generate_report_ok (subject_points : list (subject_point num))
  (sgpa total_credits total_points : num) (dept_code dept_name : option str)
  (semester : option Z) :
  exists report,
    generate_report subject_points sgpa total_credits total_points
      dept_code dept_name semester = Ok report /\
    rep_subjects report = fold_left report_step subject_points [].
Proof.
  unfold generate_report. rewrite percentage_of_ok. simpl. eauto.
Qed.

End ReportFacts.


(** Two counted subjects of one name and one without a name. *)
Definition electives : list (subject_point Q) :=
  [ mk_subject_point (lit "23CS3OE001") (lit "Open Elective") 3%Q (lit "A")
      8%Z 24%Q;
    mk_subject_point (lit "23CS3OE002") (lit "Open Elective") 3%Q (lit "O")
      10%Z 30%Q;
    mk_subject_point (lit "23CS3PCLAB") [] (3 # 2)%Q (lit "B+") 7%Z (21 # 2)%Q ].


(** The two electives share one entry of the report, the later one. *)
Example electives_report :
  match generate_report electives (43 # 5)%Q (15 # 2)%Q (129 # 2)%Q None None None with
  | Ok report =>
      keys (rep_subjects report) = [lit "Open Elective"; lit "Subject 23CS3PCLAB"] /\
      option_map (@rs_code Q) (dict_get (rep_subjects report) (lit "Open Elective"))
      = Some (lit "23CS3OE002")
  | Raise _ => False
  end.
Proof. vm_compute. split; reflexivity. Qed.

(** *** The two files of a semester *)

Section SemesterFacts.
Context {num : Type} `{Number num} `{!NumberLaws num} `{Similarity}.
Variable file : Type.
Variable pdf_pages : file -> result (list (option str)).

Lemma extract_text_outcome (pdf_file : file) :
  match extract_text_from_pdf pdf_pages pdf_file with
  | Returns text =>
      exists pages,
        pdf_pages pdf_file = Ok pages /\ join_pages [] pages = Ok text
  | Raises f => f = ValueErrorOf no_text
  end.
Proof.
  unfold extract_text_from_pdf.
  destruct (pdf_pages pdf_file) as [pages|e]; simpl; [|reflexivity].
  destruct (join_pages [] pages) as [text|e] eqn:E; [|reflexivity].
  exists pages. auto.
Qed.

(** What [process_semester_files] returns, from the two texts. *)
Definition semester_of (course_text result_text : str)
  (res : semester_result num) : Prop :=
  let '(course_credits, subject_names, subject_name_map) :=
    parse_course_data course_text in
  parse_result_data result_text <> [] /\
  course_credits <> [] /\
  exists combined_data subject_points,
    combine_data (parse_result_data result_text) course_credits subject_names
      subject_name_map = Ok combined_data /\
    combined_data <> [] /\
    calculate_sgpa combined_data
    = Ok (sem_sgpa res, subject_points, sem_total_credits res,
          sem_total_points res) /\
    sem_subjects res = fold_left report_step subject_points [] /\
    sem_max_possible_points res = mul (sem_total_credits res) (of_int 10) /\
    percentage_of (sem_total_points res) (sem_total_credits res)
    = Ok (sem_percentage res) /\
    sem_department res = detect_department result_text course_text /\
    sem_semester res = detect_semester result_text course_text.

Lemma process_semester_files_outcome (course_file result_file : file) :
  match process_semester_files pdf_pages course_file result_file with
  | Returns res =>
      exists course_text result_text,
        extract_text_from_pdf pdf_pages course_file = Returns course_text /\
        extract_text_from_pdf pdf_pages result_file = Returns result_text /\
        semester_of course_text result_text res
  | Raises (ValueErrorOf message) =>
      In message [no_text; no_subjects; no_credits; no_match]
  | Raises (Uncaught e) => False
  end.
Proof.
  unfold process_semester_files.
  pose proof (extract_text_outcome course_file) as Xc.
  destruct (extract_text_from_pdf pdf_pages course_file) as [course_text|f].
  2:{ subst f. left. reflexivity. }
  pose proof (extract_text_outcome result_file) as Xr.
  destruct (extract_text_from_pdf pdf_pages result_file) as [result_text|f].
  2:{ subst f. left. reflexivity. }
  destruct (detect_department result_text course_text) as [dept_code dept_name]
    eqn:Ed.
  pose proof (parse_result_data_parsed result_text) as P.
  destruct (parse_result_data result_text) as [|s0 subjects] eqn:Er.
  { right. left. reflexivity. }
  destruct (parse_course_data course_text)
    as [[course_credits subject_names] subject_name_map] eqn:Ec.
  destruct course_credits as [|c0 course_credits].
  { right. right. left. reflexivity. }
  destruct (combine_data_ok (s0 :: subjects) (c0 :: course_credits)
              subject_names subject_name_map P) as [combined_data Ecd].
  rewrite Ecd. cbn [uncaught].
  destruct combined_data as [|d0 combined_data].
  { right. right. right. left. reflexivity. }
  destruct (calculate_sgpa_total (d0 :: combined_data))
    as [[[[sgpa subject_points] total_credits] total_points] Es].
  rewrite Es. cbn [bind].
  destruct (generate_report_ok subject_points sgpa total_credits total_points
              dept_code dept_name (detect_semester result_text course_text))
    as (report & Eg & Esub).
  rewrite Eg. cbn [bind]. rewrite percentage_of_ok. cbn [bind uncaught].
  exists course_text, result_text. split; [reflexivity|]. split; [reflexivity|].
  unfold semester_of. rewrite Ec, Er.
  split; [discriminate|]. split; [discriminate|].
  exists (d0 :: combined_data), subject_points.
  cbn [sem_sgpa sem_subjects sem_total_credits sem_total_points
       sem_max_possible_points sem_percentage sem_department sem_semester].
  split; [exact Ecd|]. split; [discriminate|]. split; [exact Es|].
  split; [exact Esub|]. split; [reflexivity|].
  split; [apply percentage_of_ok|]. split; [symmetry; exact Ed | reflexivity].
Qed.

End SemesterFacts.

(** X8: with the order laws of the arithmetic, whatever the two files hold
    [process_semester_files] either returns or raises a [ValueError] with
    one of four messages (no text, no subjects, no credits, no match): no
    [KeyError], [IndexError] or division by zero comes out of the parsers,
    the matcher and the aggregator.  What it returns is made of the two
    texts: the subjects combined are not empty and the totals are those of
    [calculate_sgpa] on them. *)
Theorem process_semester_files_raises (num : Type) (N : Number num)
  (L : NumberLaws num) (S : Similarity) (file : Type)
  (pdf_pages : file -> result (list (option str)))
  (course_file result_file : file) :
  match process_semester_files pdf_pages course_file result_file with
  | Returns res =>
      exists course_text result_text,
        extract_text_from_pdf pdf_pages course_file = Returns course_text /\
        extract_text_from_pdf pdf_pages result_file = Returns result_text /\
        semester_of course_text result_text res
  | Raises (ValueErrorOf message) =>
      In message [no_text; no_subjects; no_credits; no_match]
  | Raises (Uncaught e) => False
  end.
Proof.
  apply process_semester_files_outcome.
Qed.

(** Two files of one page each: [true] the course document, [false] the
    result. *)
Definition management_files (pdf_file : bool) : result (list (option str)) :=
  if pdf_file
  then Ok [Some (lit "Course Details
1 Fundamentals of Management 23CS3CSFM L 4 4
Total Credits 4")]
  else Ok [Some (lit "23CS3CSFM Fundamentals of Management 60 55 50 A")].

(** [process_semester_files_raises] on them. *)
Lemma process_semester_files_witness :
  match process_semester_files (num := Q) management_files true false with
  | Returns res =>
      exists course_text result_text,
        extract_text_from_pdf management_files true = Returns course_text /\
        extract_text_from_pdf management_files false = Returns result_text /\
        semester_of course_text result_text res
  | Raises (ValueErrorOf message) =>
      In message [no_text; no_subjects; no_credits; no_match]
  | Raises (Uncaught e) => False
  end.
Proof.
  exact (process_semester_files_raises Q Q_number Q_laws difflib bool
           management_files true false).
Defined.

(** They give one subject of credit 4 and grade A: sgpa 8, 32 points of 40,
    80 percent, department CS and no semester. *)
Example management_semester :
  process_semester_files (num := Q) management_files true false
  = Returns
      (mk_semester_result 8%Q
         [(lit "Fundamentals of Management",
           mk_report_subject (lit "23CS3CSFM") 4%Q (lit "A") 8%Z 32%Q)]
         4%Q 32%Q 40%Q 80%Q
         (Some (lit "CS"), Some (lit "Computer Science and Engineering"))
         None).
Proof. vm_compute. reflexivity. Qed.

(** A page without text, and a result without a subject line. *)
Example unreadable_file :
  process_semester_files (num := Q)
    (fun pdf_file : bool => if pdf_file then Ok [None] else Ok []) true false
  = Raises (ValueErrorOf no_text).
Proof. reflexivity. Qed.

Example empty_result_file :
  process_semester_files (num := Q)
    (fun pdf_file : bool => Ok [Some (lit "Course Title")]) true false
  = Raises (ValueErrorOf no_subjects).
Proof. vm_compute. reflexivity. Qed.

(* ===================================================================== *)
(** ** The three mappings of the course parser *)

Section IndexFacts.
Context {num : Type} `{Number num}.
Implicit Types (idx : course_index (num := num)).

(** Both mappings are proper dictionaries with the same keys. *)
Definition well_keyed idx : Prop :=
  same_keys idx /\ NoDup (keys (fst idx)) /\ NoDup (keys (snd idx)).

Lemma store_course_well_keyed idx (code name : str) (credit : num) :
  well_keyed idx -> well_keyed (store_course idx code name credit).
Proof.
  intros (S & N1 & N2). split; [apply store_course_same_keys, S|].
  unfold store_course. simpl. split; apply dict_set_nodup, dict_set_nodup;
    assumption.
Qed.

Lemma alias_step_well_keyed (code dept : str) (credit : num) (name : str) idx
  (alt_dept : str) :
  well_keyed idx -> well_keyed (alias_step code dept credit name idx alt_dept).
Proof.
  intros (S & N1 & N2). unfold alias_step.
  destruct (negb (str_eqb alt_dept dept)); [|repeat split; assumption].
  split; [|simpl; split; apply dict_set_nodup, dict_set_nodup; assumption].
  intros k. simpl. rewrite !dict_mem_set, (S k). reflexivity.
Qed.

Lemma alias_code_well_keyed idx (code : str) :
  well_keyed idx -> well_keyed (alias_code idx code).
Proof.
  intros W. unfold alias_code.
  destruct (department_of code) as [dept|]; [|exact W].
  destruct (dict_get (fst idx) code) as [credit|]; [|exact W].
  apply fold_left_invariant; [|exact W].
  intros a b _. apply alias_step_well_keyed.
Qed.

Lemma parse_course_rows_well_keyed (course_text : str) :
  well_keyed (parse_course_rows course_text).
Proof.
  unfold parse_course_rows.
  apply fold_left_invariant.
  { intros a p _ Ha. apply fold_left_invariant; [|exact Ha].
    intros a' line _ Ha'. unfold scan_special_course.
    destruct (re_search p line); [|exact Ha'].
    destruct (re_search re_credit_at_end line); [|exact Ha'].
    apply store_course_well_keyed, Ha'. }
  apply (fold_left_invariant (fun st => well_keyed (snd st))).
  - intros [flag idx] line _ S. unfold scan_course_line. cbn [snd] in S.
    destruct (_ || _); [exact S|].
    destruct (flag && _); [exact S|].
    destruct flag; [|exact S]. cbn [snd].
    induction course_patterns as [|p rest IH]; cbn [scan_course_row];
      [exact S|].
    destruct (re_search p line); [apply store_course_well_keyed, S | exact IH].
  - repeat split; try constructor.
Qed.

Lemma generate_aliases_well_keyed idx :
  well_keyed idx -> well_keyed (generate_aliases idx).
Proof.
  intros W. unfold generate_aliases.
  apply fold_left_invariant; [|exact W].
  intros a b _. apply alias_code_well_keyed.
Qed.

(** [name.lower().replace(" ", "")], the key of a name in
    [subject_name_map]. *)
Definition name_key (name : str) : str := replace space [] (lower name).

Lemma name_map_stores (subject_names : dict str) :
  name_map subject_names
  = fold_left (fun m e => dict_set m (name_key (snd e)) (fst e))
      subject_names [].
Proof. reflexivity. Qed.

Lemma NoDup_keys_get {V : Type} (d : dict V) (k : str) (v : V) :
  NoDup (keys d) -> In (k, v) d -> dict_get d k = Some v.
Proof.
  induction d as [|[k0 v0] d IH]; intros ND Hin; [destruct Hin|].
  simpl. simpl in ND. apply NoDup_cons_iff in ND as [N0 ND].
  destruct Hin as [[= -> ->]|Hin].
  - rewrite str_eqb_refl. reflexivity.
  - destruct (str_eqb k0 k) eqn:E; [|apply IH; assumption].
    apply str_eqb_eq in E. subst k0. exfalso. apply N0.
    apply in_map_iff. exists (k, v). auto.
Qed.

End IndexFacts.

(** X9: the three mappings [parse_course_data] returns fit together: the
    credits and the names have the same keys, no key twice; a code that
    [subject_name_map] holds under a key is a code of the two mappings whose
    name, in lower case and without spaces, is that key; and every name has
    its key in [subject_name_map]. *)
Theorem parse_course_data_consistent (num : Type) (N : Number num)
  (course_text : str) :
  let '(course_credits, subject_names, subject_name_map) :=
    parse_course_data course_text in
  (forall code, In code (keys course_credits) <-> In code (keys subject_names)) /\
  NoDup (keys course_credits) /\ NoDup (keys subject_names) /\
  NoDup (keys subject_name_map) /\
  (forall key code,
     dict_get subject_name_map key = Some code ->
     exists name credit,
       dict_get subject_names code = Some name /\
       dict_get course_credits code = Some credit /\
       name_key name = key) /\
  (forall code name,
     dict_get subject_names code = Some name ->
     In (name_key name) (keys subject_name_map)).
Proof.
  unfold parse_course_data.
  pose proof (generate_aliases_well_keyed _
                (parse_course_rows_well_keyed (num := num) course_text))
    as (S & N1 & N2).
  set (idx := generate_aliases (parse_course_rows course_text)) in *.
  assert (K : forall code, In code (keys (fst idx)) <-> In code (keys (snd idx))).
  { intros code. rewrite <- !dict_mem_keys, (S code). reflexivity. }
  split; [exact K|]. split; [exact N1|]. split; [exact N2|]. split; [|split].
  - rewrite name_map_stores.
    apply (stores_nodup (fun e : str * str => name_key (snd e)) fst).
    constructor.
  - intros key code Hg. rewrite name_map_stores in Hg.
    rewrite (stores_last_wins (fun e : str * str => name_key (snd e)) fst) in Hg.
    destruct (find _ (rev (snd idx))) as [[c n]|] eqn:F; [|discriminate Hg].
    injection Hg as <-. apply find_some in F as [Hin Hk].
    apply in_rev in Hin. cbn [fst snd] in *. apply str_eqb_eq in Hk.
    pose proof (NoDup_keys_get _ _ _ N2 Hin) as Gn.
    assert (Hc : In c (keys (fst idx))).
    { apply K. eapply dict_get_keys, Gn. }
    destruct (keys_dict_get _ _ Hc) as [credit Gc].
    exists n, credit. auto.
  - intros code name Hg. rewrite name_map_stores.
    apply (stores_keys (fun e : str * str => name_key (snd e)) fst).
    right. apply in_map_iff. exists (code, name). split; [reflexivity|].
    apply dict_get_In, Hg.
Qed.

(* ===================================================================== *)
(** ** What [combine_data] puts together *)

Lemma dict_set_entries {V : Type} (P : str * V -> Prop) (d : dict V) (k : str)
  (v : V) :
  Forall P d -> P (k, v) -> Forall P (dict_set d k v).
Proof.
  intros F Hv. apply Forall_forall. intros [k' v'] Hin.
  apply dict_set_In in Hin as [[-> ->]|Hin]; [exact Hv|].
  rewrite Forall_forall in F. apply (F (k', v') Hin).
Qed.

Section CombineFacts.
Context {num : Type} `{Number num} `{Similarity}.

(** A combined record: the credit is one of the course index, the grade
    point is [GRADE_POINTS.get(grade, 0)] and the weighted point is their
    product. *)
Definition well_combined (course_credits : dict num) (d : subject_data num)
  : Prop :=
  exists credit,
    d_credit d = Some credit /\
    In credit (map snd course_credits) /\
    d_grade_point d = dict_get_default GRADE_POINTS (d_grade d) 0%Z /\
    d_weighted_point d = mul credit (of_int (d_grade_point d)).

(** The mapping under construction: its keys are result codes, no key
    twice, and its records are well combined. *)
Definition combined_so_far (subjects : dict result_record)
  (course_credits : dict num) (cd : dict (subject_data num)) : Prop :=
  Forall (fun e => In (fst e) (keys subjects)
                   /\ well_combined course_credits (snd e)) cd /\
  NoDup (keys cd).

Lemma combined_entry_well (course_credits : dict num) (name : str)
  (credit : num) (grade : str) :
  In credit (map snd course_credits) ->
  well_combined course_credits (combined_entry name credit grade).
Proof.
  intros Hin. exists credit. split; [reflexivity|]. split; [exact Hin|].
  split; reflexivity.
Qed.

Lemma dict_get_value {V : Type} (d : dict V) (k : str) (v : V) :
  dict_get d k = Some v -> In v (map snd d).
Proof.
  intros G. apply dict_get_In in G. apply in_map_iff. exists (k, v). auto.
Qed.

Lemma combined_store (subjects : dict result_record) (course_credits : dict num)
  (cd : dict (subject_data num)) (code name grade : str) (credit : num) :
  combined_so_far subjects course_credits cd ->
  In code (keys subjects) ->
  In credit (map snd course_credits) ->
  combined_so_far subjects course_credits
    (dict_set cd code (combined_entry name credit grade)).
Proof.
  intros [F ND] Hc Hv. split; [|apply dict_set_nodup, ND].
  apply dict_set_entries; [exact F|]. split; [exact Hc|].
  apply combined_entry_well, Hv.
Qed.

Definition first_pass_so_far (subjects : dict result_record)
  (course_credits : dict num)
  (acc : dict (subject_data num) * list unmatched) : Prop :=
  combined_so_far subjects course_credits (fst acc) /\
  Forall (fun u => In (u_code u) (keys subjects)) (snd acc).

Lemma combine_one_so_far (subjects : dict result_record)
  (course_credits : dict num) (subject_names subject_name_map : dict str)
  (acc acc' : dict (subject_data num) * list unmatched)
  (entry : str * result_record) :
  In entry subjects ->
  first_pass_so_far subjects course_credits acc ->
  combine_one course_credits subject_names subject_name_map acc entry = Ok acc' ->
  first_pass_so_far subjects course_credits acc'.
Proof.
  intros Hin [C U]. unfold combine_one.
  destruct acc as [cd um]. destruct entry as [code rec]. cbn [fst snd] in *.
  assert (Hk : In code (keys subjects)).
  { apply in_map_iff. exists (code, rec). auto. }
  assert (Store : forall credit name0 acc0,
            In credit (map snd course_credits) ->
            (let name :=
               if dict_mem subject_names code && poor_name name0
               then dict_get_default subject_names code name0
               else if dict_mem subject_names (r_normalized_code rec)
                       && poor_name name0
               then dict_get_default subject_names (r_normalized_code rec) name0
               else name0 in
             Ok (dict_set cd code (combined_entry name credit (r_grade rec)), um))
            = Ok acc0 ->
            first_pass_so_far subjects course_credits acc0).
  { intros credit name0 acc0 Hv E. cbv zeta in E. injection E as <-.
    split; [|exact U]. cbn [fst]. apply combined_store; assumption. }
  destruct (dict_get course_credits code) as [credit|] eqn:G1; cbn [bind].
  { apply Store. eapply dict_get_value, G1. }
  destruct (dict_get course_credits (r_normalized_code rec)) as [credit|] eqn:G2;
    cbn [bind].
  { apply Store. eapply dict_get_value, G2. }
  destruct (find_matching_code code course_credits subject_names
              subject_name_map rec) as [[[|c0 c]|]|e]; cbn [bind];
    try discriminate.
  - intros [= <-]. split; [exact C|]. cbn [snd].
    apply Forall_app. split; [exact U|]. constructor; [exact Hk | constructor].
  - unfold dict_item.
    destruct (dict_get course_credits (c0 :: c)) as [credit|] eqn:G3;
      cbn [bind]; [|discriminate].
    apply Store. eapply dict_get_value, G3.
  - intros [= <-]. split; [exact C|]. cbn [snd].
    apply Forall_app. split; [exact U|]. constructor; [exact Hk | constructor].
Qed.

Lemma special_case_pass_so_far (subjects : dict result_record)
  (course_credits : dict num) (subject_names : dict str) (subj : unmatched)
  (cases : list (str * regex)) (cd : dict (subject_data num)) :
  In (u_code subj) (keys subjects) ->
  combined_so_far subjects course_credits cd ->
  combined_so_far subjects course_credits
    (special_case_pass course_credits subject_names subj cases cd).
Proof.
  intros Hu C.
  induction cases as [|[keyword pattern] rest IH]; cbn [special_case_pass];
    [exact C|].
  destruct (contains keyword (u_name subj)); [|exact IH].
  destruct (filter (re_found pattern) (keys course_credits)) as [|code l];
    [exact IH|].
  destruct (dict_get course_credits code) as [credit|] eqn:G; [|exact C].
  apply combined_store; [exact C | exact Hu | eapply dict_get_value, G].
Qed.

Lemma semester_type_pass_so_far (subjects : dict result_record)
  (course_credits : dict num) (subject_names : dict str) (subj : unmatched)
  (sem type_code : option str) (codes : list str)
  (cd cd' : dict (subject_data num)) :
  In (u_code subj) (keys subjects) ->
  combined_so_far subjects course_credits cd ->
  semester_type_pass course_credits subject_names subj sem type_code codes cd
    = Ok cd' ->
  combined_so_far subjects course_credits cd'.
Proof.
  intros Hu C.
  induction codes as [|code rest IH]; cbn [semester_type_pass].
  - intros [= <-]. exact C.
  - destruct (extract_core_code_parts code) as [[[y d] s] t].
    destruct (same_semester_and_type sem type_code s t) as [[|]|x]; cbn [bind];
      try discriminate; [|exact IH].
    unfold dict_item.
    destruct (dict_get course_credits code) as [credit|] eqn:G; cbn [bind];
      [|discriminate].
    intros [= <-].
    apply combined_store; [exact C | exact Hu | eapply dict_get_value, G].
Qed.

Lemma second_chance_so_far (subjects : dict result_record)
  (course_credits : dict num) (subject_names : dict str)
  (cd cd' : dict (subject_data num)) (subj : unmatched) :
  In (u_code subj) (keys subjects) ->
  combined_so_far subjects course_credits cd ->
  second_chance course_credits subject_names cd subj = Ok cd' ->
  combined_so_far subjects course_credits cd'.
Proof.
  intros Hu C. unfold second_chance.
  destruct (extract_core_code_parts (u_code subj)) as [[[y d] s] t].
  pose proof (special_case_pass_so_far subjects course_credits subject_names
                subj special_cases cd Hu C) as C1.
  destruct (truthy s).
  - apply semester_type_pass_so_far; assumption.
  - intros [= <-]. exact C1.
Qed.

Lemma combine_data_so_far (subjects : dict result_record)
  (course_credits : dict num) (subject_names subject_name_map : dict str)
  (cd : dict (subject_data num)) :
  combine_data subjects course_credits subject_names subject_name_map = Ok cd ->
  combined_so_far subjects course_credits cd.
Proof.
  unfold combine_data.
  destruct (fold_result
              (combine_one course_credits subject_names subject_name_map)
              subjects ([], [])) as [[cd1 um]|x] eqn:E1; cbn [bind];
    [|discriminate].
  assert (I1 : first_pass_so_far subjects course_credits (cd1, um)).
  { revert E1. apply fold_result_invariant.
    - intros a b a' Hb. apply combine_one_so_far, Hb.
    - split; [split|]; constructor. }
  destruct I1 as [C U]. cbn [fst snd] in *.
  assert (G : forall l, incl l um -> forall a a',
             combined_so_far subjects course_credits a ->
             fold_result (second_chance course_credits subject_names) l a
               = Ok a' ->
             combined_so_far subjects course_credits a').
  { intros l Hl. apply fold_result_invariant.
    intros a b a' Hb Ha. apply second_chance_so_far; [|exact Ha].
    rewrite Forall_forall in U. apply U, Hl, Hb. }
  exact (G um (incl_refl um) cd1 cd C).
Qed.



Lemma fold_result_raise {A B : Type} (f : A -> B -> result A) (l : list B) :
  forall a e,
    fold_result f l a = Raise e ->
    exists a' b, In b l /\ f a' b = Raise e.
Proof.
  induction l as [|b l IH]; intros a e; cbn [fold_result]; [discriminate|].
  destruct (f a b) as [a1|e1] eqn:E; cbn [bind].
  - intros R. destruct (IH a1 e R) as (a' & b' & Hin & Hf).
    exists a', b'. split; [right; exact Hin | exact Hf].
  - intros [= <-]. exists a, b. split; [left; reflexivity | exact E].
Qed.

(** A name of blanks only, longer than three characters: [split()[0]]
    fails on it. *)
Definition blank_name (name : str) : Prop :=
  split_ws (lower name) = [] /\ 3 < length name.

Lemma combine_one_raise (course_credits : dict num)
  (subject_names subject_name_map : dict str)
  (acc : dict (subject_data num) * list unmatched)
  (entry : str * result_record) (e : exn) :
  combine_one course_credits subject_names subject_name_map acc entry = Raise e ->
  e = IndexError /\ blank_name (r_name (snd entry)).
Proof.
  unfold combine_one. destruct acc as [cd um]. destruct entry as [code rec].
  cbn [snd].
  destruct (dict_get course_credits code) as [credit|]; cbn [bind].
  { destruct (_ && _); [discriminate|]. destruct (_ && _); discriminate. }
  destruct (dict_get course_credits (r_normalized_code rec)) as [credit|];
    cbn [bind].
  { destruct (_ && _); [discriminate|]. destruct (_ && _); discriminate. }
  pose proof (find_matching_code_outcome code course_credits subject_names
                subject_name_map rec) as O.
  destruct (find_matching_code code course_credits subject_names
              subject_name_map rec) as [[[|c0 c]|]|e0]; cbn [bind];
    try discriminate.
  - destruct (dict_item_keys course_credits (c0 :: c) O) as [v ->]. cbn [bind].
    destruct (_ && _); [discriminate|]. destruct (_ && _); discriminate.
  - intros [= <-]. destruct O as (-> & Hs & Hl). split; [reflexivity|].
    split; assumption.
Qed.

Lemma combine_data_raise (subjects : dict result_record)
  (course_credits : dict num) (subject_names subject_name_map : dict str)
  (e : exn) :
  combine_data subjects course_credits subject_names subject_name_map = Raise e ->
  e = IndexError /\
  exists code rec, In (code, rec) subjects /\ blank_name (r_name rec).
Proof.
  unfold combine_data.
  destruct (fold_result
              (combine_one course_credits subject_names subject_name_map)
              subjects ([], [])) as [[cd1 um]|x] eqn:E1; cbn [bind].
  - cbn [fst snd]. intros R. exfalso.
    destruct (fold_result_ok (second_chance course_credits subject_names) um)
      with (a := cd1) as [cd E2].
    { intros a b _. apply second_chance_ok. }
    congruence.
  - intros [= <-].
    apply fold_result_raise in E1 as (a' & [code rec] & Hin & Hf).
    apply combine_one_raise in Hf as [-> Hb].
    split; [reflexivity|]. exists code, rec. auto.
Qed.

End CombineFacts.

(** X10: every record of [combine_data] stands under the code of a result
    subject, no code twice, so there are at most as many as result subjects;
    its credit is a credit of the course index, its grade point is
    [GRADE_POINTS.get(grade, 0)] and its weighted point is the credit times
    the grade point.  [combine_data] raises nothing but the [IndexError] of
    a result name that is longer than three characters and all blanks. *)
Theorem combine_data_records (num : Type) (N : Number num) (S : Similarity)
  (subjects : dict result_record) (course_credits : dict num)
  (subject_names subject_name_map : dict str) :
  match combine_data subjects course_credits subject_names subject_name_map with
  | Ok combined_data =>
      (forall code d,
         In (code, d) combined_data ->
         In code (keys subjects) /\
         exists credit,
           d_credit d = Some credit /\
           In credit (map snd course_credits) /\
           d_grade_point d = dict_get_default GRADE_POINTS (d_grade d) 0%Z /\
           d_weighted_point d = mul credit (of_int (d_grade_point d))) /\
      NoDup (keys combined_data) /\
      length combined_data <= length subjects
  | Raise e =>
      e = IndexError /\
      exists code rec, In (code, rec) subjects /\ blank_name (r_name rec)
  end.
Proof.
  destruct (combine_data subjects course_credits subject_names subject_name_map)
    as [cd|e] eqn:E.
  - destruct (combine_data_so_far _ _ _ _ _ E) as [F ND].
    rewrite Forall_forall in F.
    split; [|split; [exact ND|]].
    + intros code d Hin. apply (F (code, d) Hin).
    + rewrite <- (length_map fst cd), <- (length_map fst subjects).
      apply NoDup_incl_length; [exact ND|].
      intros k Hk. apply in_map_iff in Hk as ([k' d] & <- & Hin).
      apply (F (k', d) Hin).
  - apply (combine_data_raise _ _ _ _ _ E).
Qed.

(** *** A code that is in the course index *)

Lemma fold_result_app {A B : Type} (f : A -> B -> result A) (l1 l2 : list B)
  (a : A) :
  fold_result f (l1 ++ l2) a
  = (a1 <- fold_result f l1 a ;;; fold_result f l2 a1).
Proof.
  revert a; induction l1 as [|b l1 IH]; intros a; cbn [fold_result app bind];
    [reflexivity|].
  destruct (f a b) as [a'|e]; cbn [bind]; [apply IH | reflexivity].
Qed.

Section DirectMatch.
Context {num : Type} `{Number num} `{Similarity}.

(** One result record either stores under its own code or joins the
    unmatched subjects. *)
Lemma combine_one_effect (course_credits : dict num)
  (subject_names subject_name_map : dict str)
  (acc acc' : dict (subject_data num) * list unmatched)
  (code : str) (rec : result_record) :
  combine_one course_credits subject_names subject_name_map acc (code, rec)
    = Ok acc' ->
  (exists name credit,
     acc' = (dict_set (fst acc) code (combined_entry name credit (r_grade rec)),
             snd acc) /\
     (forall c, dict_get course_credits code = Some c -> credit = c) /\
     (forall c, dict_get course_credits code = None ->
                dict_get course_credits (r_normalized_code rec) = Some c ->
                credit = c))
  \/
  (exists name,
     acc' = (fst acc, snd acc ++ [mk_unmatched code name (r_grade rec)]) /\
     dict_get course_credits code = None /\
     dict_get course_credits (r_normalized_code rec) = None).
Proof.
  unfold combine_one. destruct acc as [cd um]. cbn [fst snd].
  destruct (dict_get course_credits code) as [credit|] eqn:G1; cbn [bind].
  { intros [= <-]. left. eexists. exists credit. split; [reflexivity|].
    split; [congruence | discriminate]. }
  destruct (dict_get course_credits (r_normalized_code rec)) as [credit|] eqn:G2;
    cbn [bind].
  { intros [= <-]. left. eexists. exists credit. split; [reflexivity|].
    split; [discriminate | congruence]. }
  destruct (find_matching_code code course_credits subject_names
              subject_name_map rec) as [[[|c0 c]|]|e]; cbn [bind];
    try discriminate.
  - intros [= <-]. right. eexists. auto.
  - destruct (dict_item course_credits (c0 :: c)) as [credit|e]; cbn [bind];
      [|discriminate].
    intros [= <-]. left. eexists. exists credit. split; [reflexivity|].
    split; discriminate.
  - intros [= <-]. right. eexists. auto.
Qed.

(** The second chance of a subject stores under its code only. *)
Lemma second_chance_other (course_credits : dict num) (subject_names : dict str)
  (cd cd' : dict (subject_data num)) (subj : unmatched) (k : str) :
  u_code subj <> k ->
  second_chance course_credits subject_names cd subj = Ok cd' ->
  dict_get cd' k = dict_get cd k.
Proof.
  intros Nk. unfold second_chance.
  assert (S1 : forall cases,
            dict_get (special_case_pass course_credits subject_names subj
                        cases cd) k = dict_get cd k).
  { induction cases as [|[keyword pattern] rest IH]; cbn [special_case_pass];
      [reflexivity|].
    destruct (contains keyword (u_name subj)); [|exact IH].
    destruct (filter (re_found pattern) (keys course_credits)) as [|c l];
      [exact IH|].
    destruct (dict_get course_credits c); [|reflexivity].
    apply dict_get_set_neq, Nk. }
  specialize (S1 special_cases).
  remember (special_case_pass course_credits subject_names subj special_cases
              cd) as cd1 eqn:E1.
  clear E1. rewrite <- S1. clear S1.
  destruct (extract_core_code_parts (u_code subj)) as [[[y d] s] t].
  destruct (truthy s); [|congruence].
  generalize (keys course_credits) as codes.
  induction codes as [|code rest IH]; cbn [semester_type_pass].
  - congruence.
  - destruct (extract_core_code_parts code) as [[[y2 d2] s2] t2].
    destruct (same_semester_and_type s t s2 t2) as [[|]|x]; cbn [bind];
      try discriminate; [|exact IH].
    destruct (dict_item course_credits code) as [credit|x]; cbn [bind];
      [|discriminate].
    intros E. assert (E' : cd' = dict_set cd1 (u_code subj)
        (combined_entry (dict_get_default subject_names code (u_name subj))
           credit (u_grade subj))) by congruence.
    rewrite E'. apply dict_get_set_neq, Nk.
Qed.

(** The state of the first pass once [code] has been stored with [credit]
    and [grade]: later records have other codes. *)
Definition stored_with (code grade : str) (credit : num)
  (acc : dict (subject_data num) * list unmatched) : Prop :=
  (exists d, dict_get (fst acc) code = Some d /\
             d_credit d = Some credit /\ d_grade d = grade) /\
  Forall (fun u => u_code u <> code) (snd acc).

Lemma first_pass_keeps (course_credits : dict num)
  (subject_names subject_name_map : dict str) (code grade : str) (credit : num)
  (l : dict result_record) :
  ~ In code (keys l) ->
  forall acc acc',
    stored_with code grade credit acc ->
    fold_result (combine_one course_credits subject_names subject_name_map)
      l acc = Ok acc' ->
    stored_with code grade credit acc'.
Proof.
  intros Nk. apply fold_result_invariant.
  intros a [k r] a' Hin [(d & Gd & Gc & Gg) U] E.
  assert (Nkc : k <> code).
  { intros ->. apply Nk. apply in_map_iff. exists (code, r). auto. }
  apply combine_one_effect in E
    as [(name & c & -> & _)|(name & -> & _)]; unfold stored_with;
    cbn [fst snd].
  - split; [|exact U]. exists d.
    rewrite (dict_get_set_neq _ _ _ _ Nkc). auto.
  - split; [exists d; auto|]. apply Forall_app. split; [exact U|].
    constructor; [exact Nkc | constructor].
Qed.

Lemma first_pass_unmatched_other (course_credits : dict num)
  (subject_names subject_name_map : dict str) (code : str)
  (l : dict result_record) :
  ~ In code (keys l) ->
  forall acc acc',
    Forall (fun u => u_code u <> code) (snd acc) ->
    fold_result (combine_one course_credits subject_names subject_name_map)
      l acc = Ok acc' ->
    Forall (fun u => u_code u <> code) (snd acc').
Proof.
  intros Nk. apply fold_result_invariant.
  intros a [k r] a' Hin U E.
  assert (Nkc : k <> code).
  { intros ->. apply Nk. apply in_map_iff. exists (code, r). auto. }
  apply combine_one_effect in E
    as [(name & c & -> & _)|(name & -> & _)]; cbn [fst snd]; [exact U|].
  apply Forall_app. split; [exact U|]. constructor; [exact Nkc | constructor].
Qed.

Lemma second_pass_keeps (course_credits : dict num) (subject_names : dict str)
  (code : str) (um : list unmatched) :
  Forall (fun u => u_code u <> code) um ->
  forall cd cd',
    fold_result (second_chance course_credits subject_names) um cd = Ok cd' ->
    dict_get cd' code = dict_get cd code.
Proof.
  induction um as [|u um IH]; intros U cd cd'; cbn [fold_result].
  - intros [= <-]. reflexivity.
  - apply Forall_cons_iff in U as [Nu U].
    destruct (second_chance course_credits subject_names cd u) as [cd1|e] eqn:E;
      cbn [bind]; [|discriminate].
    intros E2. rewrite (IH U cd1 cd' E2).
    apply (second_chance_other _ _ _ _ _ _ Nu E).
Qed.

Lemma combine_data_direct (subjects : dict result_record)
  (course_credits : dict num) (subject_names subject_name_map : dict str)
  (cd : dict (subject_data num)) (code : str) (rec : result_record)
  (credit : num) :
  NoDup (keys subjects) ->
  In (code, rec) subjects ->
  dict_get course_credits code = Some credit
  \/ (dict_get course_credits code = None /\
      dict_get course_credits (r_normalized_code rec) = Some credit) ->
  combine_data subjects course_credits subject_names subject_name_map = Ok cd ->
  exists d,
    dict_get cd code = Some d /\
    d_credit d = Some credit /\ d_grade d = r_grade rec.
Proof.
  intros ND Hin Hc. unfold combine_data.
  apply in_split in Hin as (pre & post & ->).
  unfold keys in ND. rewrite map_app in ND. cbn [map fst] in ND.
  pose proof (NoDup_remove_2 _ _ _ ND) as Nk.
  assert (Npre : ~ In code (keys pre)).
  { intros Hp. apply Nk. apply in_or_app. auto. }
  assert (Npost : ~ In code (keys post)).
  { intros Hp. apply Nk. apply in_or_app. auto. }
  rewrite fold_result_app.
  destruct (fold_result
              (combine_one course_credits subject_names subject_name_map)
              pre ([], [])) as [acc1|e] eqn:E1; cbn [bind]; [|discriminate].
  pose proof (first_pass_unmatched_other course_credits subject_names
                subject_name_map code pre Npre ([], []) acc1
                (Forall_nil _) E1) as U1.
  cbn [fold_result].
  destruct (combine_one course_credits subject_names subject_name_map acc1
              (code, rec)) as [acc2|e] eqn:E2; cbn [bind]; [|discriminate].
  assert (S2 : stored_with code (r_grade rec) credit acc2).
  { apply combine_one_effect in E2
      as [(name & c & -> & C1 & C2)|(name & -> & G1 & G2)];
      unfold stored_with; cbn [fst snd].
    - split; [|exact U1]. eexists. rewrite dict_get_set_eq.
      split; [reflexivity|]. cbn [combined_entry d_credit d_grade].
      split; [|reflexivity]. f_equal.
      destruct Hc as [Hc|[Hn Hc]]; [apply C1, Hc | apply (C2 _ Hn Hc)].
    - exfalso. destruct Hc as [Hc|[_ Hc]]; congruence. }
  destruct (fold_result
              (combine_one course_credits subject_names subject_name_map)
              post acc2) as [acc3|e] eqn:E3; cbn [bind]; [|discriminate].
  pose proof (first_pass_keeps course_credits subject_names subject_name_map
                code (r_grade rec) credit post Npost acc2 acc3 S2 E3)
    as [(d & Gd & Gc & Gg) U3].
  intros E4. exists d.
  rewrite (second_pass_keeps course_credits subject_names code (snd acc3) U3
             (fst acc3) cd E4).
  auto.
Qed.

End DirectMatch.

(** The result parser changes its mapping only by [store_graded]. *)
Lemma parse_result_data_invariant (P : dict result_record -> Prop)
  (result_text : str) :
  P [] ->
  (forall subjects code name grade,
     P subjects -> P (store_graded subjects code name grade)) ->
  P (parse_result_data result_text).
Proof.
  intros P0 Ps. unfold parse_result_data.
  apply fold_left_invariant.
  { intros a e _ Ha. apply fold_left_invariant; [|exact Ha].
    intros a' kw _ Ha'. unfold scan_keyword.
    destruct (contains kw (snd e)); [|exact Ha'].
    destruct (re_search re_subject_code (snd e)); [|exact Ha'].
    destruct (re_search re_grade_at_end (snd e)); apply Ps, Ha'. }
  apply fold_left_invariant.
  { intros a pn _ Ha. apply fold_left_invariant; [|exact Ha].
    intros a' line _ Ha'. unfold scan_special.
    destruct (re_search (fst pn) line); [|exact Ha'].
    destruct (re_search re_grade_at_end line); [|exact Ha'].
    apply Ps, Ha'. }
  apply fold_left_invariant.
  { intros a [i line] _ Ha. unfold scan_grades_block.
    destruct (contains (lit "GRADES") line && (i + 1 <? length (split_lines result_text)));
      [|exact Ha].
    apply fold_left_invariant; [|exact Ha].
    intros a' j _ Ha'. unfold scan_grades_row.
    destruct (nth_error (split_lines result_text) j); [|exact Ha'].
    destruct (re_search re_grades_row l); [|exact Ha'].
    apply Ps, Ha'. }
  apply fold_left_invariant; [|exact P0].
  intros a [i line] _ Ha. unfold scan_subject_line.
  destruct (re_search re_subject_code line); [|exact Ha].
  apply Ps, Ha.
Qed.

Lemma parse_result_data_nodup (result_text : str) :
  NoDup (keys (parse_result_data result_text)).
Proof.
  apply parse_result_data_invariant; [constructor|].
  intros subjects code name grade ND. unfold store_graded.
  destruct grade as [g|]; [|exact ND].
  destruct (dict_mem GRADE_POINTS g); [|exact ND].
  apply dict_set_nodup, ND.
Qed.

(** X11: a subject of the result document whose code is a key of the course
    credits is combined under its own code with the credit of that key and
    with its own grade; so is a subject whose code is no key while its
    normal form is one, with the credit of the normal form.  No other
    subject and no step of the second pass changes that entry. *)
Theorem combine_data_indexed_code (num : Type) (N : Number num)
  (S : Similarity) (result_text : str) (course_credits : dict num)
  (subject_names subject_name_map : dict str)
  (combined_data : dict (subject_data num)) (code : str)
  (rec : result_record) (credit : num) :
  In (code, rec) (parse_result_data result_text) ->
  dict_get course_credits code = Some credit
  \/ (dict_get course_credits code = None /\
      dict_get course_credits (r_normalized_code rec) = Some credit) ->
  combine_data (parse_result_data result_text) course_credits subject_names
    subject_name_map = Ok combined_data ->
  exists d,
    dict_get combined_data code = Some d /\
    d_credit d = Some credit /\ d_grade d = r_grade rec /\
    d_grade_point d = dict_get_default GRADE_POINTS (r_grade rec) 0%Z.
Proof.
  intros Hin Hc E.
  destruct (combine_data_direct _ course_credits subject_names
              subject_name_map combined_data code rec credit
              (parse_result_data_nodup result_text) Hin Hc E)
    as (d & Gd & Gc & Gg).
  exists d. repeat split; try assumption.
  pose proof (combine_data_from_table _ course_credits subject_names
                subject_name_map combined_data E) as F.
  rewrite Forall_forall in F.
  destruct (F (code, d) (dict_get_In _ _ _ Gd)) as [Hd _].
  cbn [snd] in Hd. rewrite Hd, Gg. reflexivity.
Qed.

(** [combine_data_indexed_code] on the management result: the code is a key
    of the credits, beside a course of another semester. *)
Lemma combine_data_indexed_code_witness :
  exists d,
    dict_get
      [ (lit "23CS3CSFM",
         mk_subject_data (lit "Fundamentals of Management") (Some 4%Q)
           (lit "A") 8%Z 32%Q) ]
      (lit "23CS3CSFM") = Some d /\
    d_credit d = Some 4%Q /\ d_grade d = lit "A" /\
    d_grade_point d = dict_get_default GRADE_POINTS (lit "A") 0%Z.
Proof.
  apply (combine_data_indexed_code Q Q_number difflib management_result
           [(lit "22CS4PCOS", 3%Q); (lit "23CS3CSFM", 4%Q)] [] []
           [ (lit "23CS3CSFM",
              mk_subject_data (lit "Fundamentals of Management") (Some 4%Q)
                (lit "A") 8%Z 32%Q) ]
           (lit "23CS3CSFM")
           (mk_result_record (lit "Fundamentals of Management") (lit "A")
              (lit "23CS3CSFM"))
           4%Q).
  - vm_compute. left. reflexivity.
  - left. reflexivity.
  - vm_compute. reflexivity.
Defined.

(* ===================================================================== *)
(** ** The credits of the course parser *)

(** *** What a group of a pattern takes *)

(** The patterns in the groups of [r], by their opening parenthesis. *)
Fixpoint group_bodies (r : regex) : list regex :=
  match r with
  | Cat r1 r2 => group_bodies r1 ++ group_bodies r2
  | Grp r1 => r1 :: group_bodies r1
  | _ => []
  end.

(** [g] is a text that a match of [body] takes somewhere. *)
Definition taken_by (g : str) (body : regex) : Prop :=
  exists prev s m, In m (run body prev s) /\ g = firstn (fst m) s.

Lemma group_bodies_length (r : regex) :
  groups_on_path r = true -> length (group_bodies r) = ngroups r.
Proof.
  induction r; cbn [groups_on_path group_bodies ngroups length]; intros G;
    try reflexivity.
  - apply andb_true_iff in G as [G1 G2].
    rewrite length_app, (IHr1 G1), (IHr2 G2). reflexivity.
  - apply andb_true_iff in G as [G1 G2].
    apply Nat.eqb_eq in G1. apply Nat.eqb_eq in G2. lia.
  - apply Nat.eqb_eq in G. lia.
  - rewrite (IHr G). reflexivity.
Qed.

Lemma run_group_bodies (r : regex) :
  groups_on_path r = true ->
  forall prev s m, In m (run r prev s) ->
    Forall2 taken_by (snd m) (group_bodies r).
Proof.
  induction r; intros G prev s m Hm; cbn [groups_on_path] in G;
    cbn [group_bodies].
  - rewrite (run_no_groups Eps eq_refl prev s m Hm). constructor.
  - rewrite (run_no_groups (Chr p) eq_refl prev s m Hm). constructor.
  - rewrite (run_no_groups (Rep greedy p lo hi) eq_refl prev s m Hm).
    constructor.
  - apply andb_true_iff in G as [G1 G2]. cbn [run] in Hm.
    apply in_flat_map in Hm as (m1 & H1 & Hm).
    apply in_map_iff in Hm as (m2 & <- & H2). cbn [snd].
    apply Forall2_app; [apply (IHr1 G1 _ _ _ H1) | apply (IHr2 G2 _ _ _ H2)].
  - apply andb_true_iff in G as [G1 G2].
    apply Nat.eqb_eq in G1. apply Nat.eqb_eq in G2.
    rewrite (run_no_groups (Alt r1 r2) ltac:(cbn [ngroups]; lia) prev s m Hm).
    constructor.
  - apply Nat.eqb_eq in G.
    rewrite (run_no_groups (Opt r) G prev s m Hm). constructor.
  - cbn [run] in Hm. apply in_map_iff in Hm as (m1 & <- & H1). cbn [snd].
    constructor; [|apply (IHr G _ _ _ H1)].
    exists prev, s, m1. cbn [fst]. auto.
  - rewrite (run_no_groups Bnd eq_refl prev s m Hm). constructor.
  - rewrite (run_no_groups Eol eq_refl prev s m Hm). constructor.
Qed.

(** [m.group(k)] of a match is a text that the [k]-th group of the pattern
    takes. *)
Lemma group_text_taken (r body : regex) (s : str) (m : rmatch) (k : nat) :
  groups_on_path r = true -> re_search r s = Some m ->
  nth_error (group_bodies r) (k - 1) = Some body ->
  taken_by (group_text m k) body.
Proof.
  intros G Hs Hb. unfold re_search in Hs.
  apply search_from_some in Hs as (i & n & caps & tl & _ & Hr & ->).
  pose proof (run_group_bodies r G (char_before None s i) (skipn i s) (n, caps)
                ltac:(rewrite Hr; left; reflexivity)) as F.
  cbn [snd] in F. unfold group_text, group. cbn [m_groups].
  revert Hb. generalize (k - 1) as j. clear Hr.
  induction F as [|g b caps bodies Hg F IH]; intros [|j]; cbn [nth_error];
    try discriminate.
  - intros [= <-]. exact Hg.
  - apply IH.
Qed.

(** *** The numeral of a credit *)

(** The body of [re_credit]: [\d+(?:\.\d+)?]. *)
Definition credit_body : regex :=
  plus is_digit ;; Opt (Chr (is_char "."%char) ;; plus is_digit).

(** Digits, or digits, a point and digits. *)
Definition credit_numeral (t : str) : Prop :=
  exists whole fraction,
    whole <> [] /\ forallb is_digit whole = true /\
    forallb is_digit fraction = true /\
    (t = whole \/ (fraction <> [] /\ t = whole ++ "."%char :: fraction)).

Lemma run_plus (p : ascii -> bool) (prev : option ascii) (s : str)
  (m : nat * list str) :
  In m (run (plus p) prev s) ->
  1 <= fst m /\ forallb p (firstn (fst m) s) = true.
Proof.
  unfold plus. cbn [run]. intros Hm.
  apply in_map_iff in Hm as (k & <- & Hk). apply counts_In in Hk.
  cbn [fst cap_hi] in *. split; [lia|].
  apply (forallb_firstn_le p s k (span p s)); [lia | apply span_all].
Qed.

Lemma firstn_nonempty {A : Type} (n : nat) (l : list A) :
  1 <= n -> n <= length l -> firstn n l <> [].
Proof.
  intros H1 H2 E. apply (f_equal (@length A)) in E.
  rewrite firstn_length_le in E by exact H2. cbn [length] in E. lia.
Qed.

Lemma taken_by_credit_body (t : str) :
  taken_by t credit_body -> credit_numeral t.
Proof.
  intros (prev & s & m & Hm & ->). unfold credit_body in Hm.
  cbn [run] in Hm. fold (plus is_digit) in Hm.
  apply in_flat_map in Hm as (m1 & H1 & Hm).
  apply in_map_iff in Hm as (m2 & <- & H2). cbn [fst].
  pose proof (run_bound _ _ _ _ H1) as B1.
  apply run_plus in H1 as [L1 D1].
  rewrite firstn_plus.
  exists (firstn (fst m1) s).
  apply in_app_iff in H2 as [H2|[<-|[]]].
  - apply in_flat_map in H2 as (c1 & Hc & H2).
    apply in_map_iff in H2 as (c2 & <- & H3). cbn [fst].
    destruct (skipn (fst m1) s) as [|c rest] eqn:Es; [destruct Hc|].
    cbn [run] in Hc. destruct (is_char "."%char c) eqn:Ec; [|destruct Hc].
    destruct Hc as [<-|[]]. cbn [fst skipn char_before] in *.
    apply is_char_eq in Ec. subst c.
    pose proof (run_bound _ _ _ _ H3) as B3.
    change (skipn 1 ("."%char :: rest)) with rest in H3, B3.
    apply run_plus in H3 as [L3 D3].
    exists (firstn (fst c2) rest).
    split; [apply firstn_nonempty; assumption|].
    split; [exact D1|]. split; [exact D3|]. right.
    split; [apply firstn_nonempty; assumption|].
    change (1 + fst c2) with (S (fst c2)). reflexivity.
  - exists []. split; [apply firstn_nonempty; assumption|].
    split; [exact D1|]. split; [reflexivity|]. left.
    cbn [fst firstn]. apply app_nil_r.
Qed.

Lemma digit_not_space (c : ascii) : is_digit c = true -> is_space c = false.
Proof. intros E. apply alnum_not_space. unfold is_alnum. rewrite E. apply orb_true_r. Qed.

Lemma credit_numeral_clean (t : str) : credit_numeral t -> clean_edges t.
Proof.
  intros (whole & fraction & Nw & Dw & Df & Ht).
  assert (Hh : match t with [] => True | c :: _ => is_space c = false end).
  { destruct whole as [|c w]; [congruence|].
    cbn [forallb] in Dw. apply andb_true_iff in Dw as [Dc _].
    destruct Ht as [->|[_ ->]]; apply digit_not_space, Dc. }
  split; [exact Hh|].
  destruct Ht as [->|[Nf ->]].
  - rewrite <- forallb_rev in Dw. destruct (rev whole) as [|c r]; [exact I|].
    cbn [forallb] in Dw. apply andb_true_iff in Dw as [Dc _].
    apply digit_not_space, Dc.
  - rewrite rev_app_distr. cbn [rev]. rewrite <- app_assoc.
    rewrite <- forallb_rev in Df.
    destruct (rev fraction) as [|c r] eqn:Er.
    + apply (f_equal (@rev ascii)) in Er. rewrite rev_involutive in Er.
      cbn [rev] in Er. congruence.
    + cbn [forallb] in Df. apply andb_true_iff in Df as [Dc _].
      apply digit_not_space, Dc.
Qed.

Lemma digits_value_from (s : str) (acc : Z) :
  (0 <= acc)%Z -> forallb is_digit s = true ->
  (0 <= fold_left (fun acc c => (10 * acc + (Z.of_nat (code_of c) - 48))%Z)
         s acc)%Z.
Proof.
  revert acc; induction s as [|c s IH]; intros acc Ha Hd; cbn [fold_left];
    [exact Ha|].
  cbn [forallb] in Hd. apply andb_true_iff in Hd as [Dc Ds].
  apply IH; [|exact Ds].
  unfold is_digit, between in Dc. apply andb_true_iff in Dc as [D1 _].
  apply Nat.leb_le in D1. lia.
Qed.

Lemma digits_value_nonneg (s : str) :
  forallb is_digit s = true -> (0 <= digits_value s)%Z.
Proof. apply digits_value_from. lia. Qed.

Lemma span_all_of (p : ascii -> bool) (s : str) :
  forallb p s = true -> span p s = length s.
Proof.
  induction s as [|c s IH]; cbn [forallb span length]; [reflexivity|].
  intros E. apply andb_true_iff in E as [-> Es]. rewrite (IH Es). reflexivity.
Qed.

(** [float] of such a numeral is the decimal its digits write. *)
Lemma float_of_numeral {num : Type} `{Number num} (t : str) :
  credit_numeral t ->
  exists whole fraction,
    whole <> [] /\ forallb is_digit whole = true /\
    forallb is_digit fraction = true /\
    (0 <= digits_value (whole ++ fraction))%Z /\
    float_of t = of_decimal (digits_value (whole ++ fraction)) (length fraction).
Proof.
  intros (whole & fraction & Nw & Dw & Df & Ht).
  unfold float_of. destruct Ht as [->|[Nf ->]].
  - exists whole, []. rewrite app_nil_r.
    split; [exact Nw|]. split; [exact Dw|]. split; [reflexivity|].
    split; [apply digits_value_nonneg, Dw|].
    rewrite (span_all_of _ _ Dw), firstn_all.
    rewrite skipn_all2 by lia. rewrite app_nil_r. reflexivity.
  - exists whole, fraction.
    split; [exact Nw|]. split; [exact Dw|]. split; [exact Df|].
    split.
    { apply digits_value_nonneg. rewrite forallb_app, Dw, Df. reflexivity. }
    rewrite (span_app_stop is_digit whole fraction "."%char Dw eq_refl).
    rewrite firstn_app, firstn_all, Nat.sub_diag. cbn [firstn].
    rewrite app_nil_r.
    change (S (length whole)) with (1 + length whole).
    rewrite <- skipn_skipn.
    rewrite skipn_app, skipn_all, Nat.sub_diag. cbn [skipn app].
    reflexivity.
Qed.

(** *** The credits stored *)

Section CreditFacts.
Context {num : Type} `{Number num}.
Implicit Types (idx : course_index (num := num)).

(** A credit that [float] read off a numeral. *)
Definition written_credit (credit : num) : Prop :=
  exists t, credit_numeral t /\ credit = float_of t.

Definition written_credits idx : Prop :=
  Forall (fun e : str * num => written_credit (snd e)) (fst idx).

Lemma written_of_group (r : regex) (line : str) (m : rmatch) (k : nat) :
  groups_on_path r = true -> re_search r line = Some m ->
  nth_error (group_bodies r) (k - 1) = Some credit_body ->
  written_credit (float_of (strip (group_text m k))).
Proof.
  intros G Hs Hb.
  pose proof (taken_by_credit_body _ (group_text_taken r _ line m k G Hs Hb))
    as C.
  exists (group_text m k). split; [exact C|].
  rewrite (strip_clean _ (credit_numeral_clean _ C)). reflexivity.
Qed.

Lemma store_course_written idx (code name : str) (credit : num) :
  written_credit credit -> written_credits idx ->
  written_credits (store_course idx code name credit).
Proof.
  intros C W. unfold written_credits, store_course. cbn [fst].
  apply dict_set_Forall; [apply dict_set_Forall|]; assumption.
Qed.

Lemma alias_step_written (code dept : str) (credit : num) (name : str) idx
  (alt_dept : str) :
  written_credit credit -> written_credits idx ->
  written_credits (alias_step code dept credit name idx alt_dept).
Proof.
  intros C W. unfold alias_step.
  destruct (negb (str_eqb alt_dept dept)); [|exact W].
  unfold written_credits. cbn [fst].
  apply dict_set_Forall; [apply dict_set_Forall|]; assumption.
Qed.

Lemma alias_code_written idx (code : str) :
  written_credits idx -> written_credits (alias_code idx code).
Proof.
  intros W. unfold alias_code.
  destruct (department_of code) as [dept|]; [|exact W].
  destruct (dict_get (fst idx) code) as [credit|] eqn:G; [|exact W].
  assert (C : written_credit credit).
  { unfold written_credits in W. rewrite Forall_forall in W.
    apply (W (code, credit)), dict_get_In, G. }
  apply fold_left_invariant; [|exact W].
  intros a b _. apply alias_step_written, C.
Qed.

(** The credit is the third group of each of the three patterns, and the
    group of the pattern for the end of a line. *)
Lemma course_patterns_credit :
  Forall (fun p => groups_on_path p = true /\
                   nth_error (group_bodies p) (3 - 1) = Some credit_body)
    course_patterns.
Proof. repeat constructor. Qed.

Lemma parse_course_rows_written (course_text : str) :
  written_credits (parse_course_rows course_text).
Proof.
  unfold parse_course_rows.
  apply fold_left_invariant.
  { intros a p _ Ha. apply fold_left_invariant; [|exact Ha].
    intros a' line _ Ha'. unfold scan_special_course.
    destruct (re_search p line); [|exact Ha'].
    destruct (re_search re_credit_at_end line) as [credit_match|] eqn:Ec;
      [|exact Ha'].
    apply store_course_written; [|exact Ha'].
    apply (written_of_group re_credit_at_end line credit_match 1);
      [reflexivity | exact Ec | reflexivity]. }
  apply (fold_left_invariant (fun st => written_credits (snd st))).
  - intros [flag idx] line _ S. unfold scan_course_line. cbn [snd] in S.
    destruct (_ || _); [exact S|].
    destruct (flag && _); [exact S|].
    destruct flag; [|exact S]. cbn [snd].
    pose proof course_patterns_credit as F.
    induction F as [|p rest [G Hb] F IH]; cbn [scan_course_row]; [exact S|].
    destruct (re_search p line) as [m|] eqn:Em; [|exact IH].
    apply store_course_written; [|exact S].
    apply (written_of_group p line m 3 G Em Hb).
  - constructor.
Qed.

Lemma generate_aliases_written idx :
  written_credits idx -> written_credits (generate_aliases idx).
Proof.
  intros W. unfold generate_aliases.
  apply fold_left_invariant; [|exact W].
  intros a b _. apply alias_code_written.
Qed.

End CreditFacts.

(** X12: every credit in the [course_credits] of [parse_course_data] is
    [float] of a numeral that is digits, or digits, a point and digits: the
    decimal with that many digits after the point which the digits write,
    and none below 0. *)
Theorem parse_course_data_credits (num : Type) (N : Number num)
  (course_text : str) :
  Forall
    (fun entry : str * num =>
       exists whole fraction,
         whole <> [] /\ forallb is_digit whole = true /\
         forallb is_digit fraction = true /\
         (0 <= digits_value (whole ++ fraction))%Z /\
         snd entry
         = of_decimal (digits_value (whole ++ fraction)) (length fraction))
    (fst (fst (parse_course_data course_text))).
Proof.
  pose proof (generate_aliases_written _
                (parse_course_rows_written (num := num) course_text)) as W.
  unfold written_credits in W. unfold parse_course_data. cbn [fst].
  revert W. apply Forall_impl.
  intros [code credit] (t & C & ->). cbn [snd].
  apply float_of_numeral, C.
Qed.

(** *** The sign of a rounded number *)

(** Zero, a positive number or the positive infinity. *)
Definition not_negative (x : spec_float) : Prop :=
  match x with
  | S754_zero _ | S754_infinity false | S754_finite false _ _ => True
  | _ => False
  end.

Lemma shr_1_sign (mrs : shr_record) :
  (0 <= shr_m mrs)%Z -> (0 <= shr_m (shr_1 mrs))%Z.
Proof.
  destruct mrs as [[|[p|p|]|p] r s]; cbn [shr_1 shr_m]; lia.
Qed.

Lemma iter_pos_invariant {A : Type} (P : A -> Prop) (f : A -> A) :
  (forall x, P x -> P (f x)) ->
  forall n x, P x -> P (iter_pos f n x).
Proof.
  intros Hf. induction n as [n IH|n IH|]; intros x Hx; cbn [iter_pos]; auto.
Qed.

Lemma shr_fexp_sign (m e : Z) (l : location) :
  (0 <= m)%Z -> (0 <= shr_m (fst (shr_fexp prec emax m e l)))%Z.
Proof.
  intros Hm. unfold shr_fexp, shr.
  assert (H0 : (0 <= shr_m (shr_record_of_loc m l))%Z).
  { destruct l as [|[| |]]; exact Hm. }
  destruct (fexp prec emax (Zdigits2 m + e) - e)%Z as [|p|p]; cbn [fst];
    [exact H0| |exact H0].
  apply (iter_pos_invariant (fun mrs => (0 <= shr_m mrs)%Z)); [|exact H0].
  apply shr_1_sign.
Qed.

Lemma round_nearest_even_sign (mx : Z) (lx : location) :
  (0 <= mx)%Z -> (0 <= round_nearest_even mx lx)%Z.
Proof.
  intros Hm. unfold round_nearest_even.
  destruct lx as [|[| |]]; [exact Hm| |exact Hm|lia].
  destruct (Z.even mx); lia.
Qed.

Lemma binary_round_aux_sign (mx ex : Z) (lx : location) :
  (0 <= mx)%Z -> not_negative (binary_round_aux prec emax false mx ex lx).
Proof.
  intros Hm. unfold binary_round_aux.
  pose proof (shr_fexp_sign mx ex lx Hm) as H1.
  destruct (shr_fexp prec emax mx ex lx) as [mrs' e']. cbn [fst] in H1.
  pose proof (shr_fexp_sign _ e' loc_Exact
                (round_nearest_even_sign _ (loc_of_shr_record mrs') H1)) as H2.
  destruct (shr_fexp prec emax _ e' loc_Exact) as [mrs'' e''].
  cbn [fst] in H2.
  destruct (shr_m mrs'') as [|p|p]; [exact I| |lia].
  destruct (e'' <=? emax - prec)%Z; exact I.
Qed.

Lemma binary_round_sign (mx : positive) (ex : Z) :
  not_negative (binary_round prec emax false mx ex).
Proof.
  unfold binary_round.
  destruct (shl_align mx ex _) as [mz ez].
  apply binary_round_aux_sign. lia.
Qed.

Lemma binary_normalize_sign (m e : Z) :
  (0 <= m)%Z -> not_negative (binary_normalize prec emax m e false).
Proof.
  intros Hm. destruct m as [|p|p]; cbn [binary_normalize];
    [exact I | apply binary_round_sign | lia].
Qed.

(** The float of a number that is not negative is not negative. *)
Lemma SF2Prim_sign (x : spec_float) :
  not_negative x -> not_negative (Prim2SF (SF2Prim x)).
Proof.
  destruct x as [[|]|[|]| |[|] m e]; cbn [not_negative]; intros Hx;
    try destruct Hx; try exact I.
  cbn [SF2Prim]. unfold Z.ldexp.
  rewrite ldshiftexp_spec, of_uint63_spec.
  pose proof (binary_normalize_sign (Uint63Axioms.to_Z (of_Z (Z.pos m))) 0) as B.
  destruct (binary_normalize prec emax _ 0 false) as [s|s| |s m' e'] eqn:E.
  - exact I.
  - cbn [SFldexp]. apply B. apply Uint63.to_Z_bounded.
  - cbn [SFldexp]. apply B. apply Uint63.to_Z_bounded.
  - cbn [SFldexp].
    assert (Hs : s = false).
    { destruct s; [|reflexivity]. exfalso. apply B. apply Uint63.to_Z_bounded. }
    subst s. apply binary_round_sign.
Qed.

Lemma not_negative_leb (x : float) :
  not_negative (Prim2SF x) -> PrimFloat.leb PrimFloat.zero x = true.
Proof.
  intros Hx. rewrite FloatAxioms.leb_spec.
  change (Prim2SF PrimFloat.zero) with (S754_zero false).
  destruct (Prim2SF x) as [s|[|]| |[|] m e]; try destruct Hx; reflexivity.
Qed.

Lemma float_of_ratio_sign (n : Z) (d : positive) :
  (0 <= n)%Z -> PrimFloat.leb PrimFloat.zero (float_of_ratio n d) = true.
Proof.
  intros Hn. apply not_negative_leb. unfold float_of_ratio.
  destruct n as [|p|p]; [exact I| |lia].
  cbv zeta. apply SF2Prim_sign.
  replace (Z.pos p <? 0)%Z with false by (symmetry; apply Z.ltb_ge; lia).
  apply binary_normalize_sign.
  set (a := Z.abs (Z.pos p)).
  set (s := Z.max 0 (Z.log2 (Z.pos d) - Z.log2 a + 56)).
  assert (Hq : (0 <= a * 2 ^ s / Z.pos d)%Z).
  { apply Z.div_pos; [|lia]. apply Z.mul_nonneg_nonneg; [unfold a; lia|].
    apply Z.pow_nonneg. lia. }
  destruct (a * 2 ^ s mod Z.pos d =? 0)%Z; lia.
Qed.

(** *** Credits are not negative *)

(** What the guards of the aggregator need of a decimal numeral: one with
    digits that write no negative number is not below 0.  [Q_decimal] and
    [float_decimal] show it of both readings of the arithmetic. *)
Class DecimalLaw (num : Type) `{Number num} : Prop := {
  decimal_not_negative :
    forall (m : Z) (k : nat),
      (0 <= m)%Z -> num_leb (of_int 0) (of_decimal m k) = true
}.

#[export] Instance Q_decimal : DecimalLaw Q.
Proof.
  constructor. intros m k Hm. cbn [num_leb of_int of_decimal Q_number].
  apply Qle_bool_iff. rewrite Qred_correct.
  unfold Qle. cbn [Qnum Qden inject_Z]. lia.
Qed.

#[export] Instance float_decimal : DecimalLaw float.
Proof.
  constructor. intros m k Hm. cbn [num_leb of_int of_decimal float_number].
  apply (float_of_ratio_sign m (scale10 k) Hm).
Qed.

(** X13: on exact rationals and on binary64 no credit that
    [parse_course_data] stores is below 0, or not a number; so no subject
    that [combine_data] combines with these credits has a negative credit,
    and the totals of [calculate_sgpa] are sums of credits that are not
    negative. *)
Theorem combine_data_credits_not_negative (num : Type) (N : Number num)
  (D : DecimalLaw num) (S : Similarity) (course_text : str) :
  Forall (fun entry : str * num => num_leb (of_int 0) (snd entry) = true)
    (fst (fst (parse_course_data course_text))) /\
  (forall (subjects : dict result_record)
          (combined_data : dict (subject_data num)),
     combine_data subjects (fst (fst (parse_course_data course_text)))
       (snd (fst (parse_course_data course_text)))
       (snd (parse_course_data course_text)) = Ok combined_data ->
     nonneg_credits combined_data).
Proof.
  assert (F : Forall (fun entry : str * num =>
                        num_leb (of_int 0) (snd entry) = true)
                (fst (fst (parse_course_data course_text)))).
  { pose proof (generate_aliases_written _
                  (parse_course_rows_written (num := num) course_text)) as W.
    unfold written_credits in W. unfold parse_course_data. cbn [fst].
    revert W. apply Forall_impl.
    intros [code credit] (t & C & ->). cbn [snd].
    destruct (float_of_numeral t C) as (whole & fraction & _ & _ & _ & Hm & ->).
    apply decimal_not_negative, Hm. }
  split; [exact F|].
  intros subjects combined_data E.
  destruct (combine_data_so_far _ _ _ _ _ E) as [W _].
  rewrite Forall_forall in W, F.
  intros entry credit Hin Hc.
  destruct (W entry Hin) as [_ (credit' & Hc' & Hin' & _)].
  assert (credit' = credit) by congruence. subst credit'.
  apply in_map_iff in Hin' as (e & <- & He). apply (F e He).
Qed.

(** [combine_data_credits_not_negative] on binary64, for the management
    course. *)
Lemma combine_data_credits_witness :
  nonneg_credits
    [ (lit "23CS3CSFM",
       mk_subject_data (lit "Fundamentals of Management") (Some 4%float)
         (lit "A") 8%Z 32%float) ].
Proof.
  destruct (combine_data_credits_not_negative float float_number
              float_decimal difflib management_courses) as [_ C].
  apply (C (parse_result_data management_result)).
  vm_compute. reflexivity.
Defined.
